(** * NBAFantasyOptimizer: the optimisation model of [nba_fantasy_optimizer.py]

    A shallow embedding of the class [NBAFantasyOptimizer]: the player and
    schedule tables, the linear expressions and constraints the class hands
    to PuLP, the methods that build the model, and the run ([main]) with its
    console output.  Numbers read from the data files and the configuration
    are rationals; the points column of the players table keeps the type
    pandas reads it with, since an assignment to it depends on that type;
    every decision variable is binary. *)

From Stdlib Require Import List ZArith QArith Qround String DecimalString Bool Lia Lqa.
Import ListNotations.

Local Open Scope Q_scope.

(** ** The part of PuLP the class uses *)

Module PuLP.

(** The six [LpVariable.dicts] of [initialize_variables], keyed by player
    index, or by player index and day, and the variable [__dummy] that PuLP
    itself puts into an objective that has no term when it writes the
    problem out for the solver. *)
Inductive var : Type :=
  | initial_squad (i : nat)
  | squad_day (i : nat) (d : Z)
  | chosen_day (i : nat) (d : Z)
  | t_in (i : nat) (d : Z)
  | t_out (i : nat) (d : Z)
  | doubled_score (i : nat) (d : Z)
  | dummyVar.

Definition var_eqb (v w : var) : bool :=
  match v, w with
  | initial_squad i, initial_squad j => Nat.eqb i j
  | squad_day i d, squad_day j e => Nat.eqb i j && Z.eqb d e
  | chosen_day i d, chosen_day j e => Nat.eqb i j && Z.eqb d e
  | t_in i d, t_in j e => Nat.eqb i j && Z.eqb d e
  | t_out i d, t_out j e => Nat.eqb i j && Z.eqb d e
  | doubled_score i d, doubled_score j e => Nat.eqb i j && Z.eqb d e
  | dummyVar, dummyVar => true
  | _, _ => false
  end.

(** [LpAffineExpression]: an insertion-ordered dictionary from variables to
    coefficients, and a constant. *)
Record LpAffineExpression : Type := mkExpr {
  terms : list (var * Q);
  constant : Q
}.

Definition empty_expr : LpAffineExpression := mkExpr [] 0.

(** [LpAffineExpression(v)] for a variable [v]. *)
Definition of_var (v : var) : LpAffineExpression := mkExpr [(v, 1)] 0.

(** [self.get(key, 0)] *)
Fixpoint coeff (ts : list (var * Q)) (key : var) : Q :=
  match ts with
  | [] => 0
  | (k, x) :: r => if var_eqb k key then x else coeff r key
  end.

(** [addterm]: a key already there has [value] added to its coefficient and
    keeps its place, a new one goes last with [value]. *)
Fixpoint addterm (ts : list (var * Q)) (key : var) (value : Q) : list (var * Q) :=
  match ts with
  | [] => [(key, value)]
  | (k, x) :: r =>
      if var_eqb k key then (k, x + value) :: r
      else (k, x) :: addterm r key value
  end.

(** What an arithmetic operator or [lpSum] can meet: a variable, an
    expression or a number ([isinstance] in the source). *)
Inductive operand : Type :=
  | V (v : var)
  | E (e : LpAffineExpression)
  | N (c : Q).

(** [addInPlace(other, sign)]: a variable is one more term, an expression
    gives its constant and each of its terms, a number goes to the constant. *)
Definition addInPlace (e : LpAffineExpression) (other : operand) (sign : Q)
  : LpAffineExpression :=
  match other with
  | V v => mkExpr (addterm (terms e) v sign) (constant e)
  | E o =>
      mkExpr
        (fold_left (fun ts vx => addterm ts (fst vx) (snd vx * sign)) (terms o) (terms e))
        (constant e + constant o * sign)
  | N c => mkExpr (terms e) (constant e + c * sign)
  end.

(** [e + other] and [e - other] copy [e] and add in place. *)
Definition add (e : LpAffineExpression) (other : operand) : LpAffineExpression :=
  addInPlace e other 1.
Definition sub (e : LpAffineExpression) (other : operand) : LpAffineExpression :=
  addInPlace e other (-1).

(** [e * c] and [c * e] for a number [c]: the empty expression when [c] is
    zero, every coefficient and the constant scaled otherwise. *)
Definition mul (e : LpAffineExpression) (c : Q) : LpAffineExpression :=
  if Qeq_bool c 0 then empty_expr
  else mkExpr (map (fun vx => (fst vx, c * snd vx)) (terms e)) (constant e * c).

(** [lpSum(vector)]: an empty expression to which every element is added in
    place; of a dictionary, its values. *)
Definition lpSum (vector : list operand) : LpAffineExpression :=
  fold_left (fun e other => addInPlace e other 1) vector empty_expr.

Inductive sense : Type := LpConstraintLE | LpConstraintEQ | LpConstraintGE.

(** [LpConstraint(e, sense)] stands for [e sense 0]; the right-hand side of a
    comparison has been subtracted into [e]. *)
Record LpConstraint : Type := mkConstraint {
  expr : LpAffineExpression;
  csense : sense;
  cname : option string
}.

(** [lhs <= rhs], [lhs == rhs] and [lhs >= rhs]: [LpConstraint(lhs - rhs, sense)]. *)
Definition lp_le (lhs : LpAffineExpression) (rhs : operand) : LpConstraint :=
  mkConstraint (sub lhs rhs) LpConstraintLE None.
Definition lp_eq (lhs : LpAffineExpression) (rhs : operand) : LpConstraint :=
  mkConstraint (sub lhs rhs) LpConstraintEQ None.
Definition lp_ge (lhs : LpAffineExpression) (rhs : operand) : LpConstraint :=
  mkConstraint (sub lhs rhs) LpConstraintGE None.

(** [prob += (constraint, name)] *)
Definition named (c : LpConstraint) (n : string) : LpConstraint :=
  mkConstraint (expr c) (csense c) (Some n).

(** [e.value()] once the solver has filled [varValue] in: nothing when a
    variable of [e] has no value. *)
Fixpoint value_terms (vv : var -> option Q) (ts : list (var * Q)) (s : Q) : option Q :=
  match ts with
  | [] => Some s
  | (v, x) :: r =>
      match vv v with
      | None => None
      | Some q => value_terms vv r (s + q * x)
      end
  end.

Definition pulp_value (vv : var -> option Q) (e : LpAffineExpression) : option Q :=
  value_terms vv (terms e) (constant e).

(** The value of an expression under an assignment of the variables. *)
Definition eval_terms (a : var -> Q) (ts : list (var * Q)) : Q :=
  fold_right (fun vx s => a (fst vx) * snd vx + s) 0 ts.

Definition value (a : var -> Q) (e : LpAffineExpression) : Q :=
  constant e + eval_terms a (terms e).

Definition holds (a : var -> Q) (c : LpConstraint) : Prop :=
  match csense c with
  | LpConstraintLE => value a (expr c) <= 0
  | LpConstraintEQ => value a (expr c) == 0
  | LpConstraintGE => 0 <= value a (expr c)
  end.

Definition holdsb (a : var -> Q) (c : LpConstraint) : bool :=
  match csense c with
  | LpConstraintLE => Qle_bool (value a (expr c)) 0
  | LpConstraintEQ => Qeq_bool (value a (expr c)) 0
  | LpConstraintGE => Qle_bool 0 (value a (expr c))
  end.

Inductive LpStatus : Type :=
  | LpStatusNotSolved
  | LpStatusOptimal
  | LpStatusInfeasible
  | LpStatusUnbounded
  | LpStatusUndefined.

Definition is_optimal (s : LpStatus) : bool :=
  match s with LpStatusOptimal => true | _ => false end.

End PuLP.
Import PuLP.

(** ** The data set and the configuration *)

(** The two types of a column of numbers.  [read_csv] reads a cell written
    as a whole number as an [int64] and one written with a fraction or an
    exponent as a [float64], and gives the column the type [int64] when
    every cell of it is one, [float64] otherwise. *)
Inductive dtype : Type := int64 | float64.

(** A row of [players.csv]; the row's position in the table is its index
    label ([read_csv] gives a [RangeIndex]).  Teams are the numeric
    identifiers that [games.csv] uses for the home and the away team.
    [points_cell] is how the cell of [points_per_game] is read, or was
    written by an assignment; the value is a rational in both cases. *)
Record Player : Type := mkPlayer {
  name : string;
  now_cost : Q;
  element_type : Z;
  team : Z;
  points_per_game : Q;
  points_cell : dtype
}.

Definition DataFrame : Type := list Player.

Definition is_int64 (t : dtype) : bool :=
  match t with int64 => true | float64 => false end.

(** [players_df["points_per_game"].dtype]: [int64] for a column of [int64]
    cells only, [float64] as soon as one cell is a [float64]. *)
Definition points_dtype (df : DataFrame) : dtype :=
  if forallb (fun p => is_int64 (points_cell p)) df then int64 else float64.

(** Whether a column of type [t] takes the number [x] as it is: a [float64]
    column takes every number, an [int64] column a whole number within the
    range of the type, be it written [40] or [40.0].  pandas refuses to
    change the type of a column for a value it cannot hold. *)
Definition can_hold (t : dtype) (x : Q) : bool :=
  match t with
  | float64 => true
  | int64 =>
      Qeq_bool (inject_Z (Qfloor x)) x
      && Qle_bool (inject_Z (- 2 ^ 63)) x && Qle_bool x (inject_Z (2 ^ 63 - 1))
  end.

(** A row of [games.csv]. *)
Record Game : Type := mkGame {
  event : Z;
  team_h : Z;
  team_a : Z
}.

(** [config.json]; the keys [initial_squad] and [player_points_adjustments]
    are the fields [must_include] and [player_points_adjustments], the second
    one optional. *)
Record Config : Type := mkConfig {
  budget : Q;
  start_gameday : Z;
  end_gameday : Z;
  transfers : Q;
  must_include : list string;
  player_points_adjustments : option (list (string * Q))
}.

(** [players_df.index] and the rows with their labels. *)
Definition index (df : DataFrame) : list nat := seq 0 (List.length df).
Definition rows (df : DataFrame) : list (nat * Player) := combine (index df) df.

(** [players_df[players_df[col] == x].index] *)
Definition index_where (df : DataFrame) (p : Player -> bool) : list nat :=
  map fst (filter (fun ip => p (snd ip)) (rows df)).

(** [players_df["name"].values] membership *)
Definition name_in (df : DataFrame) (player_name : string) : bool :=
  existsb (fun p => String.eqb (name p) player_name) df.

(** [players_df["team"].unique()]: first occurrences, in order. *)
Fixpoint unique (seen l : list Z) : list Z :=
  match l with
  | [] => []
  | x :: r =>
      if existsb (Z.eqb x) seen then unique seen r
      else x :: unique (x :: seen) r
  end.

(** [range(start_gameday, end_gameday + 1)] *)
Definition days (c : Config) : list Z :=
  map (fun k => (start_gameday c + Z.of_nat k)%Z)
      (seq 0 (Z.to_nat (end_gameday c + 1 - start_gameday c)%Z)).

Definition str_nat (n : nat) : string := NilEmpty.string_of_uint (Nat.to_uint n).
Definition str_Z (z : Z) : string := NilZero.string_of_int (Z.to_int z).

(** ** The optimiser object and the state of a run *)

Definition loc : Type := nat.

(** What the run prints, one constructor per [print] of the source with the
    values it interpolates. *)
Inductive output : Type :=
  | Warning_not_found (player_name : string)
  | No_optimal_solution
  | Total_points (v : option Q)
  | Transfers_to_be_made
  | Day_header (d : Z)
  | Transfers_in_header
  | Transfers_out_header
  | Transfer_line (player_name : string)
  | Initial_squad_header
  | Squad_line (player_name : string).

(** The exception [.index[0]] raises on an empty selection, and the one an
    assignment raises for a value the column cannot hold. *)
Inductive exn : Type := IndexError | TypeError.

(** [self.prob] together with the bounds stored in the variable objects. *)
Record LpProblem : Type := mkProblem {
  declared : list var;
  lowBound : var -> Q;
  upBound : var -> Q;
  constraints : list LpConstraint;
  objective : option LpAffineExpression
}.

(** The objects a run reads and writes: the tables the caller and the
    optimiser both refer to, the problem, what the solver left behind, the
    console, and the problems handed to the solver so far. *)
Record State : Type := mkState {
  heap : loc -> DataFrame;
  prob : LpProblem;
  status : LpStatus;
  varValue : var -> option Q;
  stdout : list output;
  solves : list LpProblem
}.

(** [__init__] keeps the references it is given; [games_df] is never written,
    so it is kept by value. *)
Record Optimizer : Type := mkOptimizer {
  players_df : loc;
  games_df : list Game;
  config : Config
}.

Definition INITIAL_PLAYERS_COUNT : Q := 10.
Definition MIN_PLAYER_TYPE_COUNT : Q := 2.
Definition PLAYER_TYPE_COUNT : Q := 5.
Definition TOTAL_PLAYERS_PER_DAY : Q := 5.
Definition MAX_PLAYERS_FROM_SAME_TEAM : Q := 2.

Definition empty_problem : LpProblem :=
  mkProblem [] (fun _ => 0) (fun _ => 1) [] None.

(** The state right after [NBAFantasyOptimizer(players_df, games_df, config)]. *)
Definition fresh (h : loc -> DataFrame) : State :=
  mkState h empty_problem LpStatusNotSolved (fun _ => None) [] [].

(** A method either finishes or raises, and leaves a state behind in both
    cases. *)
Definition M : Type := State -> State * option exn.

Definition ret : M := fun s => (s, None).
Definition raise (e : exn) : M := fun s => (s, Some e).
Definition bind (m k : M) : M :=
  fun s => match m s with
           | (s', None) => k s'
           | (s', Some e) => (s', Some e)
           end.

Declare Scope method_scope.
Delimit Scope method_scope with method.
Notation "m ;; k" := (bind m k) (at level 61, right associativity) : method_scope.

Fixpoint for_each {A : Type} (l : list A) (body : A -> M) : M :=
  match l with
  | [] => ret
  | x :: r => bind (body x) (for_each r body)
  end.

Definition modify (f : State -> State) : M := fun s => (f s, None).

Definition print (o : output) : M :=
  modify (fun s => mkState (heap s) (prob s) (status s) (varValue s)
                           (stdout s ++ [o]) (solves s)).

Definition set_prob (f : LpProblem -> LpProblem) : M :=
  modify (fun s => mkState (heap s) (f (prob s)) (status s) (varValue s)
                           (stdout s) (solves s)).

Definition set_heap (l : loc) (df : DataFrame) : M :=
  modify (fun s => mkState (fun l' => if Nat.eqb l' l then df else heap s l')
                           (prob s) (status s) (varValue s) (stdout s) (solves s)).

(** [self.prob += c] for each constraint of [cs], in order. *)
Definition add_constraints_list (cs : list LpConstraint) : M :=
  set_prob (fun p => mkProblem (declared p) (lowBound p) (upBound p)
                               (constraints p ++ cs) (objective p)).

(** ** The methods of [NBAFantasyOptimizer] *)

Local Open Scope method_scope.

(** The keys [(i, d) for i in index for d in days]. *)
Definition keys (df : DataFrame) (ds : list Z) (f : nat -> Z -> var) : list var :=
  flat_map (fun i => map (f i) ds) (index df).

Definition initialize_variables (self : Optimizer) : M := fun s =>
  let df := heap s (players_df self) in
  let ds := days (config self) in
  set_prob (fun p =>
    mkProblem (map initial_squad (index df)
               ++ keys df ds squad_day ++ keys df ds chosen_day
               ++ keys df ds t_in ++ keys df ds t_out
               ++ keys df ds doubled_score)
              (fun _ => 0) (fun _ => 1) (constraints p) (objective p)) s.

(** A cell of a column of type [t] with [points] written into it. *)
Definition set_points (p : Player) (points : Q) (t : dtype) : Player :=
  mkPlayer (name p) (now_cost p) (element_type p) (team p) points t.

(** What the assignment below leaves when the column takes the value: the
    rows of that name have it, in the type of the column. *)
Definition with_points (df : DataFrame) (player_name : string) (points : Q)
  : DataFrame :=
  map (fun p => if String.eqb (name p) player_name
                then set_points p points (points_dtype df) else p) df.

(** [players_df.loc[players_df["name"] == player_name, "points_per_game"] = points]
    on a table that has a row of that name: nothing is written and
    [TypeError] is raised when the column cannot hold [points]. *)
Definition assign_points (df : DataFrame) (player_name : string) (points : Q)
  : option DataFrame :=
  if can_hold (points_dtype df) points then Some (with_points df player_name points)
  else None.

Definition adjust_player_points (self : Optimizer) (adjustments : list (string * Q))
  : M :=
  for_each adjustments (fun entry s =>
    let df := heap s (players_df self) in
    if name_in df (fst entry)
    then match assign_points df (fst entry) (snd entry) with
         | Some df' => set_heap (players_df self) df' s
         | None => raise TypeError s
         end
    else print (Warning_not_found (fst entry)) s).

Definition set_bounds (v : var) (lo up : Q) : M :=
  set_prob (fun p =>
    mkProblem (declared p)
              (fun w => if var_eqb w v then lo else lowBound p w)
              (fun w => if var_eqb w v then up else upBound p w)
              (constraints p) (objective p)).

Definition initial_squad_size (df : DataFrame) : LpConstraint :=
  lp_eq (lpSum (map V (map initial_squad (index df)))) (N INITIAL_PLAYERS_COUNT).

Definition add_initial_player_constraints (self : Optimizer) : M := fun s =>
  let df := heap s (players_df self) in
  (add_constraints_list [initial_squad_size df] ;;
   for_each (must_include (config self)) (fun player_name =>
     match index_where df (fun p => String.eqb (name p) player_name) with
     | [] => raise IndexError
     | player_index :: _ => set_bounds (initial_squad player_index) 1 1
     end)) s.

Definition budget_constraints (df : DataFrame) (c : Config) : list LpConstraint :=
  named (lp_le (lpSum (map (fun ip => E (mul (of_var (initial_squad (fst ip)))
                                          (now_cost (snd ip)))) (rows df)))
            (N (budget c)))
        "Inital Squad Budget"
  :: map (fun d =>
       named (lp_le (lpSum (map (fun ip => E (mul (of_var (squad_day (fst ip) d))
                                               (now_cost (snd ip)))) (rows df)))
                 (N (budget c)))
             ("Budget Day " ++ str_Z d))
     (days c).

Definition add_budget_constraints (self : Optimizer) : M := fun s =>
  add_constraints_list (budget_constraints (heap s (players_df self)) (config self)) s.

Definition consistency_name (dir : string) (i : nat) (d : Z) : string :=
  ("Transfer_" ++ dir ++ "_Consistency_" ++ str_nat i ++ "_" ++ str_Z d)%string.

Definition transfer_consistency (c : Config) (i : nat) (d : Z) : list LpConstraint :=
  if Z.eqb d (start_gameday c) then
    [ named (lp_ge (of_var (t_in i d))
                (E (sub (of_var (squad_day i d)) (V (initial_squad i)))))
            (consistency_name "In" i d);
      named (lp_ge (of_var (t_out i d))
                (E (sub (of_var (initial_squad i)) (V (squad_day i d)))))
            (consistency_name "Out" i d) ]
  else
    [ named (lp_ge (of_var (t_in i d))
                (E (sub (of_var (squad_day i d)) (V (squad_day i (d - 1))))))
            (consistency_name "In" i d);
      named (lp_ge (of_var (t_out i d))
                (E (sub (of_var (squad_day i (d - 1))) (V (squad_day i d)))))
            (consistency_name "Out" i d) ].

Definition transfer_constraints (df : DataFrame) (c : Config) : list LpConstraint :=
  lp_le (lpSum (map V (keys df (days c) t_in))) (N (transfers c))
  :: lp_le (lpSum (map V (keys df (days c) t_out))) (N (transfers c))
  :: flat_map (fun i => flat_map (transfer_consistency c i) (days c)) (index df).

Definition add_transfer_constraints (self : Optimizer) : M := fun s =>
  add_constraints_list (transfer_constraints (heap s (players_df self)) (config self)) s.

Definition of_type (t : Z) (p : Player) : bool := Z.eqb (element_type p) t.

Definition daily_constraints (df : DataFrame) (d : Z) : list LpConstraint :=
  [ lp_ge (lpSum (map (fun i => V (chosen_day i d)) (index_where df (of_type 1))))
       (N MIN_PLAYER_TYPE_COUNT);
    lp_ge (lpSum (map (fun i => V (chosen_day i d)) (index_where df (of_type 2))))
       (N MIN_PLAYER_TYPE_COUNT);
    lp_eq (lpSum (map (fun i => V (chosen_day i d)) (index df)))
       (N TOTAL_PLAYERS_PER_DAY);
    lp_eq (lpSum (map (fun i => V (doubled_score i d)) (index df))) (N 1);
    lp_eq (lpSum (map (fun i => V (squad_day i d)) (index_where df (of_type 1))))
       (N PLAYER_TYPE_COUNT);
    lp_eq (lpSum (map (fun i => V (squad_day i d)) (index_where df (of_type 2))))
       (N PLAYER_TYPE_COUNT) ]
  ++ flat_map (fun i =>
       [ lp_le (of_var (chosen_day i d)) (V (squad_day i d));
         lp_le (of_var (doubled_score i d)) (V (chosen_day i d)) ])
     (index df).

Definition add_daily_constraints (self : Optimizer) : M := fun s =>
  add_constraints_list
    (flat_map (daily_constraints (heap s (players_df self))) (days (config self))) s.

Definition team_constraints (df : DataFrame) (c : Config) : list LpConstraint :=
  flat_map (fun t =>
    map (fun d =>
      lp_le (lpSum (map (fun i => V (squad_day i d))
                     (index_where df (fun p => Z.eqb (team p) t))))
         (N MAX_PLAYERS_FROM_SAME_TEAM))
      (days c))
    (unique [] (map team df)).

Definition add_team_constraints (self : Optimizer) : M := fun s =>
  add_constraints_list (team_constraints (heap s (players_df self)) (config self)) s.

Definition add_constraints (self : Optimizer) : M :=
  add_initial_player_constraints self ;;
  add_budget_constraints self ;;
  add_transfer_constraints self ;;
  add_daily_constraints self ;;
  add_team_constraints self.

(** The inner function of [set_objective_function], on the row of the player. *)
Definition player_points_for_day (games : list Game) (p : Player) (day : Z) : Q :=
  let games_on_day := filter (fun g => Z.eqb (event g) day) games in
  if existsb (fun g => Z.eqb (team_h g) (team p)) games_on_day
     || existsb (fun g => Z.eqb (team_a g) (team p)) games_on_day
  then points_per_game p
  else 0.

Definition objective_function (df : DataFrame) (games : list Game) (c : Config)
  : LpAffineExpression :=
  lpSum (flat_map (fun ip =>
           map (fun d =>
                  E (mul (add (of_var (chosen_day (fst ip) d))
                              (V (doubled_score (fst ip) d)))
                         (player_points_for_day games (snd ip) d)))
               (days c))
         (rows df)).

Definition set_objective_function (self : Optimizer) : M := fun s =>
  set_prob (fun p =>
    mkProblem (declared p) (lowBound p) (upBound p) (constraints p)
              (Some (objective_function (heap s (players_df self)) (games_df self)
                                        (config self)))) s.

(** [varValue == 1] *)
Definition is_one (o : option Q) : bool :=
  match o with
  | Some q => Qeq_bool q 1
  | None => false
  end.

Definition player_name_at (df : DataFrame) (i : nat) : string :=
  match nth_error df i with
  | Some p => name p
  | None => EmptyString
  end.

Definition print_initial_squad (self : Optimizer) : M := fun s =>
  let df := heap s (players_df self) in
  (print Initial_squad_header ;;
   for_each (index df) (fun player_idx s' =>
     if is_one (varValue s' (initial_squad player_idx))
     then print (Squad_line (player_name_at df player_idx)) s'
     else ret s')) s.

Definition print_solution (self : Optimizer) : M := fun s =>
  let df := heap s (players_df self) in
  if negb (is_optimal (status s)) then print No_optimal_solution s
  else
    (print (Total_points (match objective (prob s) with
                          | Some e => pulp_value (varValue s) e
                          | None => None
                          end)) ;;
     print Transfers_to_be_made ;;
     for_each (days (config self)) (fun d s' =>
       let transfers_in :=
         filter (fun i => is_one (varValue s' (t_in i d))) (index df) in
       let transfers_out :=
         filter (fun i => is_one (varValue s' (t_out i d))) (index df) in
       match transfers_in, transfers_out with
       | [], [] => ret s'
       | _, _ =>
           (print (Day_header d) ;;
            match transfers_in with
            | [] => ret
            | _ => print Transfers_in_header ;;
                   for_each transfers_in (fun i =>
                     print (Transfer_line (player_name_at df i)))
            end ;;
            match transfers_out with
            | [] => ret
            | _ => print Transfers_out_header ;;
                   for_each transfers_out (fun i =>
                     print (Transfer_line (player_name_at df i)))
            end) s'
       end)) s.

(** What writing the problem out for the solver does to the objective:
    [fixObjective] adds [__dummy] to an objective that has no term, and
    [restoreObjective] subtracts it again, which leaves the key with the
    coefficient 0. *)
Definition restored_objective (o : option LpAffineExpression)
  : option LpAffineExpression :=
  match o with
  | Some e =>
      match terms e with
      | [] => Some (sub (add e (V dummyVar)) (V dummyVar))
      | _ => Some e
      end
  | None => None
  end.

(** [assignVarsVals]: every variable but [__dummy] gets the value the solver
    found for it. *)
Definition assigned (values : var -> option Q) : var -> option Q :=
  fun v => match v with
           | dummyVar => None
           | _ => values v
           end.

Section Run.

(** The solver engine: from the problem to a status and the values it writes
    into the variables. *)
Variable solver : LpProblem -> LpStatus * (var -> option Q).

(** [self.prob.solve()]: the problem as it was built goes to the engine, the
    status and the values come back, [__dummy] has no value, and the
    objective is left as [restored_objective] has it. *)
Definition solve : M :=
  modify (fun s =>
    let p := prob s in
    mkState (heap s)
            (mkProblem (declared p) (lowBound p) (upBound p) (constraints p)
                       (restored_objective (objective p)))
            (fst (solver p)) (assigned (snd (solver p)))
            (stdout s) (solves s ++ [p])).

(** Everything [setup_problem] does before it calls the solver. *)
Definition build_model (self : Optimizer) : M :=
  match player_points_adjustments (config self) with
  | Some adjustments => adjust_player_points self adjustments
  | None => ret
  end ;;
  initialize_variables self ;;
  add_constraints self ;;
  set_objective_function self.

Definition setup_problem (self : Optimizer) : M :=
  build_model self ;;
  solve ;;
  print_solution self.

(** [main], from the contents of the three files: the players table is one
    object, at [players_loc], that [main] and the optimiser both refer to. *)
Definition players_loc : loc := 0%nat.

Definition main (c : Config) (players : DataFrame) (games : list Game)
  : State * option exn :=
  let optimizer := mkOptimizer players_loc games c in
  (setup_problem optimizer ;; print_initial_squad optimizer)
    (fresh (fun _ => players)).

End Run.

(** ** Assignments of the variables *)

(** The value is an integer. *)
Definition integral (q : Q) : Prop := inject_Z (Qfloor q) == q.

Definition var_ok (p : LpProblem) (a : var -> Q) (v : var) : Prop :=
  integral (a v) /\ lowBound p v <= a v /\ a v <= upBound p v.

Definition var_okb (p : LpProblem) (a : var -> Q) (v : var) : bool :=
  Qeq_bool (inject_Z (Qfloor (a v))) (a v)
  && Qle_bool (lowBound p v) (a v) && Qle_bool (a v) (upBound p v).

(** The assignment satisfies the problem: every declared variable is an
    integer within its bounds and every constraint holds. *)
Definition feasible (p : LpProblem) (a : var -> Q) : Prop :=
  Forall (var_ok p a) (declared p) /\ Forall (holds a) (constraints p).

Definition feasibleb (p : LpProblem) (a : var -> Q) : bool :=
  forallb (var_okb p a) (declared p) && forallb (holdsb a) (constraints p).

(** What an operand is worth under an assignment. *)
Definition operand_value (a : var -> Q) (o : operand) : Q :=
  match o with
  | V v => a v
  | E e => value a e
  | N c => c
  end.

Definition total (l : list Q) : Q := fold_right Qplus 0 l.

(** The two values of a binary variable. *)
Definition binary (q : Q) : Prop := q == 0 \/ q == 1.

(** The players, among those of [idx], whose variable [f i] is set. *)
Definition members (a : var -> Q) (f : nat -> var) (idx : list nat) : list nat :=
  filter (fun i => Qeq_bool (a (f i)) 1) idx.

(** ** The model as a whole *)

(** The table after the overrides of [adjustments], applied in order, when
    the column takes them all. *)
Fixpoint adjusted (df : DataFrame) (adjustments : list (string * Q)) : DataFrame :=
  match adjustments with
  | [] => df
  | entry :: r =>
      adjusted (if name_in df (fst entry)
                then with_points df (fst entry) (snd entry) else df) r
  end.

(** The column takes every override that names a player of the table. *)
Definition overrides_fit (df : DataFrame) (adjustments : list (string * Q)) : bool :=
  forallb (fun entry => negb (name_in df (fst entry))
                        || can_hold (points_dtype df) (snd entry)) adjustments.

Definition model_fits (c : Config) (df : DataFrame) : bool :=
  match player_points_adjustments c with
  | Some adjustments => overrides_fit df adjustments
  | None => true
  end.

(** The warnings for the entries of [adjustments] that name nobody. *)
Definition warnings (df : DataFrame) (adjustments : list (string * Q)) : list output :=
  map Warning_not_found (filter (fun n => negb (name_in df n)) (map fst adjustments)).

(** The table the model is built from. *)
Definition model_table (c : Config) (df : DataFrame) : DataFrame :=
  match player_points_adjustments c with
  | Some adjustments => adjusted df adjustments
  | None => df
  end.

Definition model_warnings (c : Config) (df : DataFrame) : list output :=
  match player_points_adjustments c with
  | Some adjustments => warnings df adjustments
  | None => []
  end.

(** The constraints in the order [add_constraints] emits them, and the
    variables in the order [initialize_variables] creates them. *)
Definition model_constraints (df : DataFrame) (c : Config) : list LpConstraint :=
  [initial_squad_size df] ++ budget_constraints df c ++ transfer_constraints df c
  ++ flat_map (daily_constraints df) (days c) ++ team_constraints df c.

Definition model_variables (df : DataFrame) (c : Config) : list var :=
  map initial_squad (index df)
  ++ keys df (days c) squad_day ++ keys df (days c) chosen_day
  ++ keys df (days c) t_in ++ keys df (days c) t_out
  ++ keys df (days c) doubled_score.

(** Every bound is 0 or 1 below and 1 above. *)
Definition binary_bounds (p : LpProblem) : Prop :=
  forall v, (lowBound p v == 0 \/ lowBound p v == 1) /\ upBound p v == 1.

(** The problem [setup_problem] hands to the solver when it is run on the
    contents of the three files, if construction gets that far. *)
Definition generated_model (c : Config) (players : DataFrame) (games : list Game)
  : option LpProblem :=
  match build_model (mkOptimizer players_loc games c) (fresh (fun _ => players)) with
  | (s, None) => Some (prob s)
  | (_, Some _) => None
  end.

(** The variable [squad_day[i, d]] is compared with in the transfer
    bookkeeping of day [d]. *)
Definition previous (c : Config) (i : nat) (d : Z) : var :=
  if Z.eqb d (start_gameday c) then initial_squad i else squad_day i (d - 1).

(** The players of the table that are in the squad, in the line-up, captain
    on day [d], and those of the initial squad. *)
Definition squad (a : var -> Q) (df : DataFrame) (d : Z) : list nat :=
  members a (fun i => squad_day i d) (index df).
Definition lineup (a : var -> Q) (df : DataFrame) (d : Z) : list nat :=
  members a (fun i => chosen_day i d) (index df).
Definition captains (a : var -> Q) (df : DataFrame) (d : Z) : list nat :=
  members a (fun i => doubled_score i d) (index df).
Definition initial (a : var -> Q) (df : DataFrame) : list nat :=
  members a initial_squad (index df).

(** The squad members of day [d] whose position type satisfies [q]. *)
Definition squad_of (a : var -> Q) (df : DataFrame) (d : Z) (q : Player -> bool)
  : list nat :=
  members a (fun i => squad_day i d) (index_where df q).

Definition other_type (p : Player) : bool := negb (of_type 1 p) && negb (of_type 2 p).






(** The schedule has a game on day [d] with the team of [x] at home or away. *)
Definition plays_on (games : list Game) (x : Player) (d : Z) : Prop :=
  exists g, In g games /\ event g = d /\ (team_h g = team x \/ team_a g = team x).

(** What the entries of a term list for the variable [v] add up to, and what
    an operand brings to the coefficient of [v]. *)
Definition weight (ts : list (var * Q)) (v : var) : Q :=
  total (map (fun kx => if var_eqb (fst kx) v then snd kx else 0) ts).

Definition operand_weight (o : operand) (v : var) : Q :=
  match o with
  | V w => if var_eqb w v then 1 else 0
  | E e => weight (terms e) v
  | N _ => 0
  end.

(** ** What a run prints *)

(** The state with the lines [l] printed. *)
Definition emit (l : list output) (s : State) : State :=
  mkState (heap s) (prob s) (status s) (varValue s) (stdout s ++ l) (solves s).

(** The lines of [print_initial_squad]. *)
Definition squad_lines (df : DataFrame) (vv : var -> option Q) : list output :=
  Initial_squad_header
  :: map (fun i => Squad_line (player_name_at df i))
         (filter (fun i => is_one (vv (initial_squad i))) (index df)).

(** The lines of [print_solution] for one day, and all of them. *)
Definition day_lines (df : DataFrame) (vv : var -> option Q) (d : Z) : list output :=
  let transfers_in := filter (fun i => is_one (vv (t_in i d))) (index df) in
  let transfers_out := filter (fun i => is_one (vv (t_out i d))) (index df) in
  match transfers_in, transfers_out with
  | [], [] => []
  | _, _ =>
      Day_header d
      :: match transfers_in with
         | [] => []
         | _ => Transfers_in_header
                :: map (fun i => Transfer_line (player_name_at df i)) transfers_in
         end
      ++ match transfers_out with
         | [] => []
         | _ => Transfers_out_header
                :: map (fun i => Transfer_line (player_name_at df i)) transfers_out
         end
  end.

Definition solution_lines (c : Config) (df : DataFrame) (st : LpStatus)
  (vv : var -> option Q) (obj : option LpAffineExpression) : list output :=
  if negb (is_optimal st) then [No_optimal_solution]
  else Total_points (match obj with
                     | Some e => pulp_value vv e
                     | None => None
                     end)
       :: Transfers_to_be_made
       :: flat_map (day_lines df vv) (days c).

(** The lines that are the roster: the objective value, the transfer plan and
    the initial squad. *)
Definition roster_line (o : output) : bool :=
  match o with
  | Warning_not_found _ | No_optimal_solution => false
  | _ => true
  end.

Definition is_warning (o : output) : bool :=
  match o with
  | Warning_not_found _ => true
  | _ => false
  end.

(** ** Costs, line-ups by type, squad changes and console lines *)

(** What the players whose variable [f i] is set cost together. *)
Definition cost_of (a : var -> Q) (df : DataFrame) (f : nat -> var) : Q :=
  total (map (fun ip => now_cost (snd ip))
             (filter (fun ip => Qeq_bool (a (f (fst ip))) 1) (rows df))).

(** What the players whose variable [f i] is set score on day [d]. *)
Definition points_of (a : var -> Q) (df : DataFrame) (games : list Game) (d : Z)
  (f : nat -> var) : Q :=
  total (map (fun ip => player_points_for_day games (snd ip) d)
             (filter (fun ip => Qeq_bool (a (f (fst ip))) 1) (rows df))).

(** The line-up members of day [d] whose row satisfies [q]. *)
Definition lineup_of (a : var -> Q) (df : DataFrame) (d : Z) (q : Player -> bool)
  : list nat :=
  members a (fun i => chosen_day i d) (index_where df q).

(** The players and days of the model, in the order of the variable keys. *)
Definition pairs (df : DataFrame) (c : Config) : list (nat * Z) :=
  flat_map (fun i => map (pair i) (days c)) (index df).

(** The player is in the squad of the day and was not in the one before (the
    initial squad, on the first day); and the other way round. *)
Definition joins (a : var -> Q) (c : Config) (k : nat * Z) : bool :=
  Qeq_bool (a (squad_day (fst k) (snd k))) 1
  && Qeq_bool (a (previous c (fst k) (snd k))) 0.

Definition leaves (a : var -> Q) (c : Config) (k : nat * Z) : bool :=
  Qeq_bool (a (squad_day (fst k) (snd k))) 0
  && Qeq_bool (a (previous c (fst k) (snd k))) 1.

(** The variables a constraint mentions. *)
Definition mentioned (q : LpConstraint) : list var := map fst (terms (expr q)).

Definition is_squad_line (o : output) : bool :=
  match o with
  | Squad_line _ => true
  | _ => false
  end.

(** The variable is one of a player of the table and, for the daily
    variables, of a day of the window. *)
Definition in_domain (df : DataFrame) (c : Config) (v : var) : Prop :=
  match v with
  | initial_squad i => In i (index df)
  | squad_day i d | chosen_day i d | t_in i d | t_out i d | doubled_score i d =>
      In i (index df) /\ In d (days c)
  | dummyVar => False
  end.

(** The variables of an operand. *)
Definition operand_vars (o : operand) : list var :=
  match o with
  | V v => [v]
  | E e => map fst (terms e)
  | N _ => []
  end.

(** ** A small league, for the examples *)

Module League.

Local Open Scope string_scope.

(** Five players of type 1, five of type 2 and one of type 3, over six
    teams; the points of the Rookie make the column a [float64] column. *)
Definition players : DataFrame :=
  [ mkPlayer "P0" 10 1 1 30 int64;  mkPlayer "P1" 10 1 1 25 int64;
    mkPlayer "P2" 10 1 2 20 int64;  mkPlayer "P3" 10 1 2 15 int64;
    mkPlayer "P4" 10 1 3 10 int64;  mkPlayer "P5" 10 2 3 28 int64;
    mkPlayer "P6" 10 2 4 22 int64;  mkPlayer "P7" 10 2 4 18 int64;
    mkPlayer "P8" 10 2 5 12 int64;  mkPlayer "P9" 10 2 5 8 int64;
    mkPlayer "Rookie" 10 3 6 40.5 float64 ].

(** The league without the Rookie: every cell of the points column is a
    whole number, an [int64] column. *)
Definition veterans : DataFrame := firstn 10 players.

Definition games : list Game :=
  [ mkGame 1 1 2; mkGame 1 3 4; mkGame 2 5 6 ].

(** Days 1 and 2, a generous budget, no transfer allowed. *)
Definition no_transfer : Config := mkConfig 200 1 2 0 ["P0"] None.

(** The same with one transfer allowed. *)
Definition one_transfer : Config := mkConfig 200 1 2 1 ["P0"] None.

(** A must-include name that is not in the table, and an override for a
    name that is not there either. *)
Definition ghost : Config :=
  mkConfig 200 1 2 1 ["P0"; "Ghost"; "Phantom"] (Some [("Nobody", 50)]).

(** Overrides for one player of the table and one unknown name. *)
Definition overrides : Config :=
  mkConfig 200 1 2 1 ["P0"] (Some [("P1", 99); ("Nobody", 50)]).

(** A budget no squad of ten fits in. *)
Definition too_poor : Config := mkConfig 50 1 2 1 ["P0"] None.

(** Days 5 and 6, on which nobody plays. *)
Definition idle_week : Config := mkConfig 200 5 6 0 ["P0"] None.

(** Overrides for two players of the table, the second one with a fraction,
    and for one unknown name. *)
Definition fractional : Config :=
  mkConfig 200 1 2 1 ["P0"] (Some [("P1", 99); ("P0", 40.5); ("Nobody", 50)]).

Definition in_first_ten (i : nat) : Q := if Nat.ltb i 10 then 1 else 0.

(** The first ten players all week; P0, P1, P2, P5 and P6 play, P0 is captain. *)
Definition keep_ten (v : var) : Q :=
  match v with
  | initial_squad i => in_first_ten i
  | squad_day i _ => in_first_ten i
  | chosen_day i _ =>
      if existsb (Nat.eqb i) [0; 1; 2; 5; 6]%nat then 1 else 0
  | doubled_score i _ => if Nat.eqb i 0 then 1 else 0
  | t_in _ _ => 0
  | t_out _ _ => 0
  | dummyVar => 0
  end.

(** The same, and the Rookie joins the squad on day 1 and stays. *)
Definition add_rookie (v : var) : Q :=
  match v with
  | squad_day 10 _ => 1
  | t_in 10 1 => 1
  | _ => keep_ten v
  end.

(** A solver that optimises nothing and reports [keep_ten], and one that
    reports [add_rookie]. *)
Definition solver_keep_ten (p : LpProblem) : LpStatus * (var -> option Q) :=
  (LpStatusOptimal, fun v => Some (keep_ten v)).

(** The model built for a configuration of the league. *)
Definition model (c : Config) : LpProblem :=
  prob (fst (build_model (mkOptimizer players_loc games c) (fresh (fun _ => players)))).

(** A solver that finds the problem infeasible and leaves in the variables
    the bounds of those that are fixed. *)
Definition solver_infeasible (p : LpProblem) : LpStatus * (var -> option Q) :=
  (LpStatusInfeasible, fun v => Some (lowBound p v)).

End League.

(** * Properties *)

(** ** Linear expressions *)

Lemma var_eqb_eq (v w : var) : var_eqb v w = true <-> v = w.
Proof.
  destruct v, w; simpl; split; intro H; try discriminate;
    rewrite ?andb_true_iff, ?Nat.eqb_eq, ?Z.eqb_eq in *;
    try (destruct H; subst; reflexivity);
    try (subst; reflexivity);
    inversion H; subst; auto.
Qed.

Lemma var_eqb_refl (v : var) : var_eqb v v = true.
Proof. apply var_eqb_eq; reflexivity. Qed.


Lemma eval_addterm a ts key x :
  eval_terms a (addterm ts key x) == eval_terms a ts + a key * x.
Proof.
  induction ts as [|[k y] r IH]; cbn [addterm].
  - cbn [eval_terms fold_right fst snd]. ring.
  - destruct (var_eqb k key) eqn:Hk; cbn [eval_terms fold_right fst snd].
    + apply var_eqb_eq in Hk; subst. ring.
    + fold (eval_terms a (addterm r key x)). rewrite IH.
      fold (eval_terms a r). ring.
Qed.

Lemma eval_fold_addterm a sign other ts :
  eval_terms a (fold_left (fun ts vx => addterm ts (fst vx) (snd vx * sign)) other ts)
  == eval_terms a ts + sign * eval_terms a other.
Proof.
  revert ts; induction other as [|[k y] r IH]; intro ts; simpl.
  - ring.
  - rewrite IH, eval_addterm. simpl. ring.
Qed.

Lemma value_addInPlace a e other sign :
  value a (addInPlace e other sign) == value a e + sign * operand_value a other.
Proof.
  destruct other as [v|o|c];
    unfold value, addInPlace; cbn [terms constant operand_value].
  - rewrite eval_addterm. ring.
  - rewrite eval_fold_addterm. unfold value. ring.
  - ring.
Qed.

Lemma value_sub a e other : value a (sub e other) == value a e - operand_value a other.
Proof. unfold sub. rewrite value_addInPlace. ring. Qed.

Lemma value_add a e other : value a (add e other) == value a e + operand_value a other.
Proof. unfold add. rewrite value_addInPlace. ring. Qed.

Lemma value_of_var a v : value a (of_var v) == a v.
Proof. unfold value, of_var; simpl. ring. Qed.

Lemma eval_terms_scale a c ts :
  eval_terms a (map (fun vx => (fst vx, c * snd vx)) ts) == c * eval_terms a ts.
Proof.
  induction ts as [|[k y] r IH]; simpl.
  - ring.
  - rewrite IH. ring.
Qed.

Lemma value_mul a e c : value a (mul e c) == c * value a e.
Proof.
  unfold mul. destruct (Qeq_bool c 0) eqn:Hc.
  - apply Qeq_bool_eq in Hc. rewrite Hc. unfold value; simpl. ring.
  - unfold value; simpl. rewrite eval_terms_scale. ring.
Qed.

Lemma value_fold_addInPlace a l e :
  value a (fold_left (fun e other => addInPlace e other 1) l e)
  == value a e + total (map (operand_value a) l).
Proof.
  revert e; induction l as [|o r IH]; intro e; simpl.
  - ring.
  - rewrite IH, value_addInPlace. ring.
Qed.

Lemma value_lpSum a l : value a (lpSum l) == total (map (operand_value a) l).
Proof.
  unfold lpSum. rewrite value_fold_addInPlace. unfold value; simpl. ring.
Qed.

(** The constraints, read as the comparisons they were written as. *)
Lemma holds_le a lhs rhs :
  holds a (lp_le lhs rhs) <-> value a lhs <= operand_value a rhs.
Proof. unfold holds, lp_le; simpl. rewrite value_sub. split; intro; lra. Qed.

Lemma holds_ge a lhs rhs :
  holds a (lp_ge lhs rhs) <-> operand_value a rhs <= value a lhs.
Proof. unfold holds, lp_ge; simpl. rewrite value_sub. split; intro; lra. Qed.

Lemma holds_eq a lhs rhs :
  holds a (lp_eq lhs rhs) <-> value a lhs == operand_value a rhs.
Proof. unfold holds, lp_eq; simpl. rewrite value_sub. split; intro; lra. Qed.

Lemma holds_named a c n : holds a (named c n) <-> holds a c.
Proof. unfold holds, named; simpl. tauto. Qed.

Lemma holdsb_holds a c : holdsb a c = true <-> holds a c.
Proof.
  unfold holdsb, holds. destruct (csense c).
  - apply Qle_bool_iff.
  - apply Qeq_bool_iff.
  - apply Qle_bool_iff.
Qed.

(** ** Binary values and head counts *)

Lemma integral_binary q : integral q -> 0 <= q -> q <= 1 -> binary q.
Proof.
  unfold integral, binary. intros Hi H0 H1.
  rewrite <- Hi in H0, H1 |- *.
  change 0 with (inject_Z 0) in *. change 1 with (inject_Z 1) in *.
  rewrite <- Zle_Qle in H0, H1.
  assert (Qfloor q = 0 \/ Qfloor q = 1)%Z as [Hz|Hz] by lia; rewrite Hz; [left|right]; reflexivity.
Qed.

Lemma total_map_ext {A} (f g : A -> Q) l :
  (forall x, In x l -> f x == g x) -> total (map f l) == total (map g l).
Proof.
  induction l as [|x r IH]; intro H; simpl.
  - reflexivity.
  - rewrite (H x (or_introl Logic.eq_refl)), IH; [reflexivity|].
    intros y Hy. apply H. right; exact Hy.
Qed.

Lemma total_app l1 l2 : total (l1 ++ l2) == total l1 + total l2.
Proof.
  induction l1 as [|x r IH]; simpl.
  - ring.
  - rewrite IH. ring.
Qed.

Lemma total_nonneg l : (forall x, In x l -> 0 <= x) -> 0 <= total l.
Proof.
  induction l as [|x r IH]; intro H; simpl.
  - lra.
  - assert (0 <= x) by (apply H; left; reflexivity).
    assert (0 <= total r) by (apply IH; intros; apply H; right; assumption).
    lra.
Qed.

Lemma total_le_member l x :
  (forall y, In y l -> 0 <= y) -> In x l -> x <= total l.
Proof.
  induction l as [|y r IH]; intros H Hin; simpl.
  - destruct Hin.
  - assert (0 <= y) by (apply H; left; reflexivity).
    assert (0 <= total r) by (apply total_nonneg; intros; apply H; right; assumption).
    destruct Hin as [->|Hin].
    + lra.
    + assert (x <= total r) by (apply IH; auto; intros; apply H; right; assumption).
      lra.
Qed.

(** The sum of binary variables is the number of those that are set. *)
Lemma total_binary_count (a : var -> Q) (f : nat -> var) (idx : list nat) :
  (forall i, In i idx -> binary (a (f i))) ->
  total (map (fun i => a (f i)) idx)
  == inject_Z (Z.of_nat (List.length (members a f idx))).
Proof.
  induction idx as [|i r IH]; intro H; simpl.
  - reflexivity.
  - rewrite IH by (intros; apply H; right; assumption).
    destruct (H i (or_introl Logic.eq_refl)) as [H0|H1].
    + destruct (Qeq_bool (a (f i)) 1) eqn:Hb.
      * apply Qeq_bool_eq in Hb. rewrite H0 in Hb. discriminate.
      * rewrite H0. ring.
    + destruct (Qeq_bool (a (f i)) 1) eqn:Hb.
      * simpl List.length. rewrite Nat2Z.inj_succ, <- Z.add_1_r, inject_Z_plus.
        rewrite H1. simpl. ring.
      * rewrite (Qeq_eq_bool _ _ H1) in Hb. discriminate.
Qed.

Lemma count_eq (n m : nat) : inject_Z (Z.of_nat n) == inject_Z (Z.of_nat m) -> n = m.
Proof. intro H. apply Nat2Z.inj, inject_Z_injective, H. Qed.

(** ** What the methods leave behind *)

Lemma name_in_with_points df n v m :
  name_in (with_points df n v) m = name_in df m.
Proof.
  unfold name_in, with_points. generalize (points_dtype df). intro t.
  induction df as [|p r IH]; simpl.
  - reflexivity.
  - rewrite IH. destruct (String.eqb (name p) n); reflexivity.
Qed.

(** An assignment of points leaves the column the type it had. *)
Lemma points_dtype_with_points df n v :
  points_dtype (with_points df n v) = points_dtype df.
Proof.
  unfold with_points.
  assert (H : forall t l,
            forallb (fun p => is_int64 (points_cell p))
                    (map (fun p => if String.eqb (name p) n then set_points p v t else p) l)
            = forallb (fun p => if String.eqb (name p) n then is_int64 t
                                else is_int64 (points_cell p)) l).
  { intros t l. induction l as [|p r IH]; simpl; [reflexivity|].
    rewrite IH. destruct (String.eqb (name p) n); reflexivity. }
  unfold points_dtype at 1. rewrite H. unfold points_dtype.
  destruct (forallb (fun p => is_int64 (points_cell p)) df) eqn:Hall.
  - replace (forallb _ df) with true; [reflexivity|]. symmetry.
    rewrite forallb_forall in Hall. apply forallb_forall. intros p Hp.
    destruct (String.eqb (name p) n); [reflexivity|apply Hall, Hp].
  - replace (forallb _ df) with false; [reflexivity|]. symmetry.
    apply not_true_iff_false. intro Hnew. apply not_true_iff_false in Hall.
    apply Hall. rewrite forallb_forall in Hnew. apply forallb_forall. intros p Hp.
    specialize (Hnew p Hp). destruct (String.eqb (name p) n); [discriminate|exact Hnew].
Qed.

Lemma overrides_fit_with_points df n v adjustments :
  overrides_fit (with_points df n v) adjustments = overrides_fit df adjustments.
Proof.
  unfold overrides_fit. rewrite points_dtype_with_points.
  induction adjustments as [|e r IH]; cbn [forallb]; [reflexivity|].
  rewrite IH, name_in_with_points. reflexivity.
Qed.

Lemma warnings_step df entry r :
  warnings df (entry :: r)
  = (if name_in df (fst entry) then [] else [Warning_not_found (fst entry)])
    ++ warnings (if name_in df (fst entry)
                 then with_points df (fst entry) (snd entry) else df) r.
Proof.
  unfold warnings. simpl.
  assert (Hext : forall df', (forall m, name_in df' m = name_in df m) ->
            filter (fun n => negb (name_in df' n)) (map fst r)
            = filter (fun n => negb (name_in df n)) (map fst r)).
  { intros df' H. apply filter_ext. intro m. rewrite H. reflexivity. }
  destruct (name_in df (fst entry)) eqn:Hn; simpl.
  - rewrite (Hext (with_points df (fst entry) (snd entry))); [reflexivity|].
    intro m. apply name_in_with_points.
  - reflexivity.
Qed.

Ltac splits := repeat match goal with |- _ /\ _ => split end.

Lemma bind_ok (m k : M) s : snd (m s) = None -> bind m k s = k (fst (m s)).
Proof. unfold bind. destruct (m s) as [s' [e|]]; simpl; [discriminate|reflexivity]. Qed.

Lemma bind_assoc (m k j : M) s : bind (bind m k) j s = bind m (bind k j) s.
Proof. unfold bind. destruct (m s) as [s' [e|]]; reflexivity. Qed.

Lemma bind_raise (m k : M) s e :
  snd (m s) = Some e -> bind m k s = (fst (m s), Some e).
Proof.
  unfold bind. destruct (m s) as [s' [e'|]]; simpl; [|discriminate].
  intro H; inversion H; reflexivity.
Qed.

Lemma warnings_are_warnings df adjustments :
  forallb is_warning (warnings df adjustments) = true.
Proof.
  unfold warnings. induction (filter _ _) as [|n l IH]; simpl; auto.
Qed.

Lemma adjust_player_points_step self entry rest s :
  adjust_player_points self (entry :: rest) s
  = let df := heap s (players_df self) in
    if name_in df (fst entry)
    then if can_hold (points_dtype df) (snd entry)
         then adjust_player_points self rest
                (fst (set_heap (players_df self)
                               (with_points df (fst entry) (snd entry)) s))
         else (s, Some TypeError)
    else adjust_player_points self rest (fst (print (Warning_not_found (fst entry)) s)).
Proof.
  unfold adjust_player_points. cbn [for_each]. unfold bind at 1. cbv zeta.
  unfold assign_points at 1.
  destruct (name_in (heap s (players_df self)) (fst entry)); [|reflexivity].
  destruct (can_hold (points_dtype (heap s (players_df self))) (snd entry));
    reflexivity.
Qed.

(** The override loop writes the table at [players_df], prints the warnings
    and touches nothing else.  It ends normally, with every override in the
    table, when the column takes them all; it raises [TypeError] at the
    first one the column cannot hold. *)
Lemma adjust_player_points_spec self adjustments s :
  let df := heap s (players_df self) in
  let r := adjust_player_points self adjustments s in
  (forall l, l <> players_df self -> heap (fst r) l = heap s l)
  /\ prob (fst r) = prob s /\ status (fst r) = status s
  /\ varValue (fst r) = varValue s /\ solves (fst r) = solves s
  /\ (exists w, stdout (fst r) = stdout s ++ w /\ forallb is_warning w = true)
  /\ (overrides_fit df adjustments = true ->
      snd r = None
      /\ heap (fst r) (players_df self) = adjusted df adjustments
      /\ stdout (fst r) = stdout s ++ warnings df adjustments)
  /\ (overrides_fit df adjustments = false -> snd r = Some TypeError).
Proof.
  revert s. induction adjustments as [|entry rest IH]; intro s; cbn zeta.
  - cbn. splits; auto; try discriminate.
    + exists []. rewrite app_nil_r. auto.
    + intros _. rewrite app_nil_r. auto.
  - rewrite adjust_player_points_step. cbv zeta.
    unfold overrides_fit. cbn [forallb].
    fold (overrides_fit (heap s (players_df self)) rest).
    rewrite warnings_step. cbn [adjusted].
    destruct (name_in (heap s (players_df self)) (fst entry)) eqn:Hn; cbn [negb orb].
    + destruct (can_hold (points_dtype (heap s (players_df self))) (snd entry)) eqn:Hc;
        cbn [andb].
      * match goal with |- context [adjust_player_points self rest ?s1] =>
          specialize (IH s1); cbn zeta in IH;
          destruct IH as (I1 & I2 & I3 & I4 & I5 & I6 & I7 & I8)
        end.
        cbn [set_heap print modify fst snd heap prob status varValue stdout solves] in *.
        rewrite Nat.eqb_refl in I7, I8. rewrite overrides_fit_with_points in I7, I8.
        cbn [app]. splits; try assumption.
        intros l Hl. rewrite I1 by assumption.
        apply Nat.eqb_neq in Hl. rewrite Hl. reflexivity.
      * cbn [fst snd]. splits; auto; try discriminate.
        exists []. rewrite app_nil_r. auto.
    + match goal with |- context [adjust_player_points self rest ?s1] =>
        specialize (IH s1); cbn zeta in IH;
        destruct IH as (I1 & I2 & I3 & I4 & I5 & I6 & I7 & I8)
      end.
      cbn [set_heap print modify fst snd heap prob status varValue stdout solves] in *.
      splits; try assumption.
      * destruct I6 as (w & Hw & Hall). exists (Warning_not_found (fst entry) :: w).
        rewrite Hw, <- app_assoc. split; [reflexivity|exact Hall].
      * intro Hfit. destruct (I7 Hfit) as (J1 & J2 & J3). splits; try assumption.
        rewrite J3, <- app_assoc. reflexivity.
Qed.

Lemma filter_combine_nil (p : Player -> bool) (df : DataFrame) :
  forall idx : list nat, List.length idx = List.length df ->
  (map fst (filter (fun ip => p (snd ip)) (combine idx df)) = [] <-> existsb p df = false).
Proof.
  induction df as [|x r IH]; intros [|i idx] Hlen; simpl in *; try discriminate.
  - tauto.
  - destruct (p x); simpl.
    + split; discriminate.
    + apply IH. lia.
Qed.

Lemma index_where_nil df p : index_where df p = [] <-> existsb p df = false.
Proof. apply filter_combine_nil. unfold index. apply length_seq. Qed.

(** The loop over the must-include names only moves bounds; it raises at the
    first name that is not in the table, and only then. *)
Lemma must_include_loop_spec df names s :
  let r := for_each names (fun player_name =>
             match index_where df (fun p => String.eqb (name p) player_name) with
             | [] => raise IndexError
             | player_index :: _ => set_bounds (initial_squad player_index) 1 1
             end) s in
  heap (fst r) = heap s /\ stdout (fst r) = stdout s /\ status (fst r) = status s
  /\ varValue (fst r) = varValue s /\ solves (fst r) = solves s
  /\ constraints (prob (fst r)) = constraints (prob s)
  /\ declared (prob (fst r)) = declared (prob s)
  /\ objective (prob (fst r)) = objective (prob s)
  /\ (binary_bounds (prob s) -> binary_bounds (prob (fst r)))
  /\ snd r = if forallb (name_in df) names then None else Some IndexError.
Proof.
  revert s. induction names as [|n rest IH]; intro s; cbn zeta.
  - cbn. splits; auto.
  - cbn [for_each forallb].
    destruct (index_where df (fun p => String.eqb (name p) n)) as [|i l] eqn:Hw.
    + apply index_where_nil in Hw. unfold name_in at 1. rewrite Hw.
      cbn. splits; auto.
    + assert (Hin : name_in df n = true).
      { destruct (name_in df n) eqn:Hn; [reflexivity|].
        apply index_where_nil in Hn. rewrite Hn in Hw. discriminate. }
      rewrite Hin. cbn [andb]. rewrite bind_ok by reflexivity.
      match goal with |- context [for_each rest ?b ?s1] =>
        specialize (IH s1); cbn zeta in IH;
        destruct IH as (I1 & I2 & I3 & I4 & I5 & I6 & I7 & I8 & I9 & I10)
      end.
      cbn [set_bounds set_prob modify fst heap prob status varValue stdout solves
           constraints declared objective] in *.
      splits; try assumption.
      intro Hb. apply I9. intro v. cbn [lowBound upBound].
      destruct (var_eqb v (initial_squad i)).
      * split; [right|]; reflexivity.
      * apply Hb.
Qed.

(** What [setup_problem] does between the overrides and the solver: the whole
    model when every must-include name is in the table, and [IndexError]
    otherwise. *)
Lemma construction_spec self s :
  let c := config self in
  let df := heap s (players_df self) in
  let r := (initialize_variables self ;; add_constraints self ;;
            set_objective_function self) s in
  heap (fst r) = heap s /\ stdout (fst r) = stdout s
  /\ status (fst r) = status s /\ varValue (fst r) = varValue s
  /\ solves (fst r) = solves s
  /\ (forallb (name_in df) (must_include c) = true ->
      snd r = None
      /\ constraints (prob (fst r)) = constraints (prob s) ++ model_constraints df c
      /\ declared (prob (fst r)) = model_variables df c
      /\ objective (prob (fst r)) = Some (objective_function df (games_df self) c)
      /\ binary_bounds (prob (fst r)))
  /\ (forallb (name_in df) (must_include c) = false -> snd r = Some IndexError).
Proof.
  intros c df r. subst c.
  assert (Hr : r = (initialize_variables self ;; add_constraints self ;;
                    set_objective_function self) s) by reflexivity.
  clearbody r.
  rewrite bind_ok in Hr by reflexivity.
  unfold add_constraints in Hr. rewrite bind_assoc in Hr.
  unfold bind at 1 in Hr. unfold add_initial_player_constraints in Hr.
  cbv beta zeta in Hr.
  rewrite (bind_ok (add_constraints_list _)) in Hr by reflexivity.
  cbn [initialize_variables add_constraints_list set_prob modify fst heap prob
       status varValue stdout solves constraints declared objective lowBound upBound]
    in Hr.
  fold df in Hr.
  match type of Hr with context [for_each (must_include (config self)) ?b ?s2] =>
    pose proof (must_include_loop_spec df (must_include (config self)) s2) as L;
    cbn zeta in L; destruct (for_each (must_include (config self)) b s2) as [s3 e]
  end.
  cbn [fst snd heap prob status varValue stdout solves constraints declared objective] in L.
  destruct L as (L1 & L2 & L3 & L4 & L5 & L6 & L7 & L8 & L9 & L10).
  assert (Hbb : binary_bounds (prob s3)).
  { apply L9. intro v. cbn [lowBound upBound]. split; [left|]; reflexivity. }
  clear L9.
  destruct (forallb (name_in df) (must_include (config self))) eqn:Hall; subst e r.
  - cbn [bind add_budget_constraints add_transfer_constraints add_daily_constraints
         add_team_constraints set_objective_function add_constraints_list set_prob
         modify fst snd heap prob status varValue stdout solves constraints declared
         objective lowBound upBound].
    rewrite L1. fold df.
    splits; try congruence.
    intros _. splits; try congruence.
    + rewrite L6. unfold model_constraints.
      rewrite <- !app_assoc. reflexivity.
    + exact L7.
    + exact Hbb.
  - cbn [fst snd].
    splits; try congruence.
Qed.

(** The state [build_model] leaves.  When the column takes the overrides,
    the table has them and the warnings are printed, and then the whole
    model is there when every must-include name is in the table, and
    [IndexError] is raised otherwise; when the column does not take them,
    [TypeError] is raised.  Nothing but warnings is printed, and no other
    table, nor the solver's state, is touched. *)
Lemma build_model_spec self s :
  let c := config self in
  let df0 := heap s (players_df self) in
  let df := model_table c df0 in
  let r := build_model self s in
  (forall l, l <> players_df self -> heap (fst r) l = heap s l)
  /\ status (fst r) = status s /\ varValue (fst r) = varValue s
  /\ solves (fst r) = solves s
  /\ (exists w, stdout (fst r) = stdout s ++ w /\ forallb is_warning w = true)
  /\ (model_fits c df0 = true ->
      heap (fst r) (players_df self) = df
      /\ stdout (fst r) = stdout s ++ model_warnings c df0
      /\ (forallb (name_in df) (must_include c) = true ->
          snd r = None
          /\ constraints (prob (fst r)) = constraints (prob s) ++ model_constraints df c
          /\ declared (prob (fst r)) = model_variables df c
          /\ objective (prob (fst r)) = Some (objective_function df (games_df self) c)
          /\ binary_bounds (prob (fst r)))
      /\ (forallb (name_in df) (must_include c) = false -> snd r = Some IndexError))
  /\ (model_fits c df0 = false -> snd r = Some TypeError).
Proof.
  intros c df0 df r. subst c.
  assert (Hr : r = build_model self s) by reflexivity. clearbody r.
  unfold model_table, model_warnings, model_fits in *.
  unfold build_model in Hr.
  set (adj := match player_points_adjustments (config self) with
              | Some adjustments => adjust_player_points self adjustments
              | None => ret
              end) in Hr.
  set (fits := match player_points_adjustments (config self) with
               | Some adjustments => overrides_fit df0 adjustments
               | None => true
               end).
  assert (Hadj :
    (forall l, l <> players_df self -> heap (fst (adj s)) l = heap s l)
    /\ prob (fst (adj s)) = prob s /\ status (fst (adj s)) = status s
    /\ varValue (fst (adj s)) = varValue s /\ solves (fst (adj s)) = solves s
    /\ (exists w, stdout (fst (adj s)) = stdout s ++ w /\ forallb is_warning w = true)
    /\ (fits = true ->
        snd (adj s) = None
        /\ heap (fst (adj s)) (players_df self) = df
        /\ stdout (fst (adj s))
           = stdout s ++ match player_points_adjustments (config self) with
                         | Some adjustments => warnings df0 adjustments
                         | None => []
                         end)
    /\ (fits = false -> snd (adj s) = Some TypeError)).
  { subst adj df fits df0. destruct (player_points_adjustments (config self)) as [a|].
    - apply adjust_player_points_spec.
    - cbn. splits; auto; try discriminate.
      + exists []. rewrite app_nil_r. auto.
      + intros _. rewrite app_nil_r. auto. }
  destruct Hadj as (A1 & A2 & A3 & A4 & A5 & A6 & A7 & A8).
  destruct fits eqn:Hfits.
  - destruct (A7 Logic.eq_refl) as (B1 & B2 & B3). clear A7 A8.
    rewrite bind_ok in Hr by exact B1.
    pose proof (construction_spec self (fst (adj s))) as C. cbn zeta in C.
    rewrite <- Hr, B2 in C.
    destruct C as (C1 & C2 & C3 & C4 & C5 & C6 & C7).
    splits; try congruence.
    + intros l Hl. rewrite C1. apply A1, Hl.
    + destruct A6 as (w & Hw & Hall). exists w. split; [congruence|exact Hall].
    + intros _. splits; try congruence; [|exact C7].
      intro Hall. destruct (C6 Hall) as (D1 & D2 & D3 & D4 & D5).
      splits; try congruence; exact D5.
  - pose proof (A8 Logic.eq_refl) as B1.
    rewrite (bind_raise _ _ _ _ B1) in Hr. subst r. cbn [fst snd].
    splits; auto; discriminate.
Qed.

(** The run up to the solver gives a model exactly when the column takes the
    overrides and every must-include name is in the table. *)
Lemma generated_model_spec c players games :
  let df := model_table c players in
  (model_fits c players = true ->
   forallb (name_in df) (must_include c) = true ->
   exists p, generated_model c players games = Some p
     /\ constraints p = model_constraints df c
     /\ declared p = model_variables df c
     /\ objective p = Some (objective_function df games c)
     /\ binary_bounds p)
  /\ (model_fits c players = false \/ forallb (name_in df) (must_include c) = false ->
      generated_model c players games = None).
Proof.
  cbn zeta. unfold generated_model.
  pose proof (build_model_spec (mkOptimizer players_loc games c)
                (fresh (fun _ => players))) as H.
  cbn zeta in H. cbn [config players_df games_df fresh heap prob constraints
                      empty_problem app] in H.
  destruct H as (_ & _ & _ & _ & _ & Hfit & Hno).
  destruct (build_model (mkOptimizer players_loc games c) (fresh (fun _ => players)))
    as [s e].
  cbn [fst snd] in *. split.
  - intros Hf Hall. destruct (Hfit Hf) as (_ & _ & Hok & _).
    destruct (Hok Hall) as (-> & H1 & H2 & H3 & H4).
    exists (prob s). auto.
  - intros [Hf|Hall].
    + rewrite (Hno Hf). reflexivity.
    + destruct (model_fits c players) eqn:Hf.
      * destruct (Hfit Logic.eq_refl) as (_ & _ & _ & Hko). rewrite (Hko Hall).
        reflexivity.
      * rewrite (Hno Logic.eq_refl). reflexivity.
Qed.

(** A model that was generated: the column took the overrides and the
    must-include names are in the table. *)
Lemma generated_model_fits c players games p :
  generated_model c players games = Some p ->
  model_fits c players = true
  /\ forallb (name_in (model_table c players)) (must_include c) = true.
Proof.
  intro Hgen. destruct (generated_model_spec c players games) as [_ Hko].
  cbn zeta in Hko.
  destruct (model_fits c players); destruct (forallb _ (must_include c));
    try (split; reflexivity); rewrite Hko in Hgen by auto; discriminate.
Qed.

Lemma generated_model_inv c players games p :
  generated_model c players games = Some p ->
  let df := model_table c players in
  constraints p = model_constraints df c
  /\ declared p = model_variables df c
  /\ objective p = Some (objective_function df games c)
  /\ binary_bounds p.
Proof.
  intros Hgen df.
  destruct (generated_model_fits c players games p Hgen) as [Hf Hall].
  destruct (generated_model_spec c players games) as [Hok _]. fold df in Hok.
  destruct (Hok Hf Hall) as (p' & Hp' & H). congruence.
Qed.

Lemma in_keys df ds f i d :
  In i (index df) -> In d ds -> In (f i d) (keys df ds f).
Proof.
  intros Hi Hd. unfold keys. apply in_flat_map. exists i. split; [exact Hi|].
  apply in_map, Hd.
Qed.

Lemma feasibleb_feasible p a : feasibleb p a = true -> feasible p a.
Proof.
  unfold feasibleb, feasible. rewrite andb_true_iff, !forallb_forall.
  intros [Hv Hc]. split; apply Forall_forall; intros x Hx.
  - specialize (Hv x Hx). unfold var_okb in Hv. unfold var_ok, integral.
    rewrite !andb_true_iff in Hv. destruct Hv as [[H1 H2] H3].
    apply Qeq_bool_eq in H1. apply Qle_bool_iff in H2, H3. auto.
  - apply holdsb_holds, Hc, Hx.
Qed.

Lemma feasible_binary p a v :
  binary_bounds p -> feasible p a -> In v (declared p) -> binary (a v).
Proof.
  intros Hb [Hv _] Hin.
  rewrite Forall_forall in Hv. destruct (Hv v Hin) as (Hi & Hlo & Hup).
  destruct (Hb v) as [Hl Hu].
  apply integral_binary; [exact Hi| |].
  - destruct Hl as [Hl|Hl]; rewrite Hl in Hlo; lra.
  - rewrite Hu in Hup. exact Hup.
Qed.

Lemma value_lpSum_vars a (f : nat -> var) idx :
  value a (lpSum (map (fun i => V (f i)) idx)) == total (map (fun i => a (f i)) idx).
Proof. rewrite value_lpSum, map_map. reflexivity. Qed.

(** A sum of binary variables that a constraint fixes counts heads. *)
Lemma holds_eq_count a (f : nat -> var) idx (n : nat) :
  (forall i, In i idx -> binary (a (f i))) ->
  holds a (lp_eq (lpSum (map (fun i => V (f i)) idx)) (N (inject_Z (Z.of_nat n)))) ->
  List.length (members a f idx) = n.
Proof.
  intros Hb H. apply holds_eq in H. cbn [operand_value] in H.
  rewrite value_lpSum_vars, total_binary_count in H by exact Hb.
  apply count_eq, H.
Qed.

Section Feasible.

Variables (c : Config) (players : DataFrame) (games : list Game).
Variables (p : LpProblem) (a : var -> Q).
Hypothesis Hgen : generated_model c players games = Some p.
Hypothesis Hfeas : feasible p a.

Local Abbreviation df := (model_table c players).

Lemma model_holds q : In q (model_constraints df c) -> holds a q.
Proof.
  destruct (generated_model_inv _ _ _ _ Hgen) as (Hc & _).
  destruct Hfeas as [_ H]. rewrite Forall_forall in H. fold df in Hc.
  rewrite Hc in H. apply H.
Qed.

Lemma daily_holds d q : In d (days c) -> In q (daily_constraints df d) -> holds a q.
Proof.
  intros Hd Hq. apply model_holds. unfold model_constraints.
  rewrite !in_app_iff. right; right; right; left.
  apply in_flat_map. exists d; auto.
Qed.

Lemma transfer_holds q : In q (transfer_constraints df c) -> holds a q.
Proof.
  intro Hq. apply model_holds. unfold model_constraints.
  rewrite !in_app_iff. right; right; left. exact Hq.
Qed.

Lemma model_binary v : In v (model_variables df c) -> binary (a v).
Proof.
  destruct (generated_model_inv _ _ _ _ Hgen) as (_ & Hd & _ & Hb).
  fold df in Hd. intro Hv. apply (feasible_binary p); auto. rewrite Hd; exact Hv.
Qed.

Lemma binary_initial i : In i (index df) -> binary (a (initial_squad i)).
Proof.
  intro Hi. apply model_binary. unfold model_variables.
  apply in_app_iff; left. apply in_map, Hi.
Qed.

Lemma binary_squad i d : In i (index df) -> In d (days c) -> binary (a (squad_day i d)).
Proof.
  intros Hi Hd. apply model_binary. unfold model_variables.
  rewrite !in_app_iff. right; left. apply in_keys; assumption.
Qed.

Lemma binary_chosen i d : In i (index df) -> In d (days c) -> binary (a (chosen_day i d)).
Proof.
  intros Hi Hd. apply model_binary. unfold model_variables.
  rewrite !in_app_iff. right; right; left. apply in_keys; assumption.
Qed.

Lemma binary_t_in i d : In i (index df) -> In d (days c) -> binary (a (t_in i d)).
Proof.
  intros Hi Hd. apply model_binary. unfold model_variables.
  rewrite !in_app_iff. right; right; right; left. apply in_keys; assumption.
Qed.

Lemma binary_t_out i d : In i (index df) -> In d (days c) -> binary (a (t_out i d)).
Proof.
  intros Hi Hd. apply model_binary. unfold model_variables.
  rewrite !in_app_iff. right; right; right; right; left. apply in_keys; assumption.
Qed.

Lemma binary_doubled i d :
  In i (index df) -> In d (days c) -> binary (a (doubled_score i d)).
Proof.
  intros Hi Hd. apply model_binary. unfold model_variables.
  rewrite !in_app_iff. right; right; right; right; right. apply in_keys; assumption.
Qed.

Lemma index_where_index q i : In i (index_where df q) -> In i (index df).
Proof.
  unfold index_where, rows. intro H. apply in_map_iff in H.
  destruct H as ([j x] & <- & H). apply filter_In in H. destruct H as [H _].
  apply in_combine_l in H. exact H.
Qed.

Lemma initial_count : List.length (initial a df) = 10%nat.
Proof.
  apply (holds_eq_count a initial_squad (index df) 10).
  - apply binary_initial.
  - rewrite <- map_map. apply model_holds. left. reflexivity.
Qed.

Lemma lineup_count d : In d (days c) -> List.length (lineup a df d) = 5%nat.
Proof.
  intro Hd. apply (holds_eq_count a (fun i => chosen_day i d) (index df) 5).
  - intros i Hi. apply binary_chosen; assumption.
  - apply (daily_holds d); [exact Hd|]. cbn. auto.
Qed.

Lemma squad_type_count d t :
  In d (days c) -> t = 1%Z \/ t = 2%Z ->
  List.length (squad_of a df d (of_type t)) = 5%nat.
Proof.
  intros Hd Ht.
  apply (holds_eq_count a (fun i => squad_day i d) (index_where df (of_type t)) 5).
  - intros i Hi. apply binary_squad; [eapply index_where_index; eauto|assumption].
  - apply (daily_holds d); [exact Hd|]. destruct Ht as [->| ->]; cbn; auto 7.
Qed.

(** C6. In every assignment that satisfies the generated model, the initial
    squad has exactly 10 members and, on every day of the window, the line-up
    has exactly 5 members and the squad holds exactly 5 players of position
    type 1 and exactly 5 of position type 2. *)
Theorem squad_and_lineup_sizes :
  List.length (initial a df) = 10%nat
  /\ forall d, In d (days c) ->
       List.length (lineup a df d) = 5%nat
       /\ List.length (squad_of a df d (of_type 1)) = 5%nat
       /\ List.length (squad_of a df d (of_type 2)) = 5%nat.
Proof.
  split; [exact initial_count|].
  intros d Hd. splits.
  - apply lineup_count, Hd.
  - apply squad_type_count; auto.
  - apply squad_type_count; auto.
Qed.

Lemma in_members (f : nat -> var) idx i :
  In i (members a f idx) <-> In i idx /\ a (f i) == 1.
Proof.
  unfold members. rewrite filter_In, Qeq_bool_iff. tauto.
Qed.

Lemma lineup_in_squad_holds i d :
  In i (index df) -> In d (days c) ->
  a (chosen_day i d) <= a (squad_day i d)
  /\ a (doubled_score i d) <= a (chosen_day i d).
Proof.
  intros Hi Hd. split.
  - assert (H : holds a (lp_le (of_var (chosen_day i d)) (V (squad_day i d)))).
    { apply (daily_holds d); [exact Hd|]. unfold daily_constraints.
      apply in_app_iff; right. apply in_flat_map. exists i. cbn; auto. }
    apply holds_le in H. rewrite value_of_var in H. exact H.
  - assert (H : holds a (lp_le (of_var (doubled_score i d)) (V (chosen_day i d)))).
    { apply (daily_holds d); [exact Hd|]. unfold daily_constraints.
      apply in_app_iff; right. apply in_flat_map. exists i. cbn; auto. }
    apply holds_le in H. rewrite value_of_var in H. exact H.
Qed.

(** C7. In every assignment that satisfies the generated model, every day of
    the window has exactly one captain, the captain is in that day's line-up,
    and every member of the line-up is in that day's squad. *)
Theorem one_captain_in_lineup_in_squad :
  forall d, In d (days c) ->
    (exists captain, captains a df d = [captain] /\ In captain (lineup a df d))
    /\ incl (lineup a df d) (squad a df d).
Proof.
  intros d Hd. split.
  - assert (Hlen : List.length (captains a df d) = 1%nat).
    { apply (holds_eq_count a (fun i => doubled_score i d) (index df) 1).
      - intros i Hi. apply binary_doubled; assumption.
      - apply (daily_holds d); [exact Hd|]. cbn. auto 6. }
    destruct (captains a df d) as [|captain [|x r]] eqn:Hcap; try discriminate.
    exists captain. split; [reflexivity|].
    assert (Hin : In captain (captains a df d)) by (rewrite Hcap; left; reflexivity).
    apply in_members in Hin. destruct Hin as [Hi H1].
    apply in_members. split; [exact Hi|].
    destruct (lineup_in_squad_holds captain d Hi Hd) as [_ Hle].
    destruct (binary_chosen captain d Hi Hd) as [H0|H]; [|exact H].
    rewrite H0, H1 in Hle. lra.
  - intros i Hin. apply in_members in Hin. destruct Hin as [Hi H1].
    apply in_members. split; [exact Hi|].
    destruct (lineup_in_squad_holds i d Hi Hd) as [Hle _].
    destruct (binary_squad i d Hi Hd) as [H0|H]; [|exact H].
    rewrite H0, H1 in Hle. lra.
Qed.

(** The transfer bookkeeping of a player and a day, as inequalities. *)
Lemma consistency_holds i d :
  In i (index df) -> In d (days c) ->
  a (squad_day i d) - a (previous c i d) <= a (t_in i d)
  /\ a (previous c i d) - a (squad_day i d) <= a (t_out i d).
Proof.
  intros Hi Hd.
  assert (Hsub : forall q, In q (transfer_consistency c i d) -> holds a q).
  { intros q Hq. apply transfer_holds. unfold transfer_constraints.
    right; right. apply in_flat_map. exists i. split; [exact Hi|].
    apply in_flat_map. exists d. split; assumption. }
  unfold transfer_consistency, previous in *.
  destruct (Z.eqb d (start_gameday c)); split.
  all: match goal with
       | |- _ <= a (t_in _ _) => pose proof (Hsub _ (or_introl Logic.eq_refl)) as H
       | |- _ <= a (t_out _ _) =>
           pose proof (Hsub _ (or_intror (or_introl Logic.eq_refl))) as H
       end;
       apply holds_named, holds_ge in H; cbn [operand_value] in H;
       rewrite value_sub, !value_of_var in H; cbn [operand_value] in H; exact H.
Qed.

Lemma in_days d :
  In d (days c) <->
  exists k, (k < Z.to_nat (end_gameday c + 1 - start_gameday c))%nat
            /\ d = (start_gameday c + Z.of_nat k)%Z.
Proof.
  unfold days. rewrite in_map_iff. split.
  - intros (k & <- & Hk). apply in_seq in Hk. exists k. split; [lia|reflexivity].
  - intros (k & Hk & ->). exists k. split; [reflexivity|]. apply in_seq. lia.
Qed.

Lemma transfers_zero_no_transfer i d :
  transfers c == 0 -> In i (index df) -> In d (days c) ->
  a (t_in i d) == 0 /\ a (t_out i d) == 0.
Proof.
  intros H0 Hi Hd.
  assert (Hsum : forall f, (f = t_in \/ f = t_out) ->
            In (lp_le (lpSum (map V (keys df (days c) f))) (N (transfers c)))
               (transfer_constraints df c)).
  { intros f [->| ->]; unfold transfer_constraints; cbn; auto. }
  assert (Hz : forall f, (f = t_in \/ f = t_out) -> a (f i d) == 0).
  { intros f Hf.
    pose proof (transfer_holds _ (Hsum f Hf)) as H.
    apply holds_le in H. cbn [operand_value] in H.
    rewrite value_lpSum, map_map in H.
    assert (Ht : total (map a (keys df (days c) f)) <= transfers c) by exact H.
    clear H.
    assert (Hb : forall v, In v (keys df (days c) f) -> binary (a v)).
    { intros v Hv. apply model_binary. unfold model_variables.
      rewrite !in_app_iff. destruct Hf as [->| ->]; auto 7. }
    assert (Hle : a (f i d) <= total (map a (keys df (days c) f))).
    { apply total_le_member.
      - intros y Hy. apply in_map_iff in Hy. destruct Hy as (v & <- & Hv).
        destruct (Hb v Hv) as [E0|E1]; [rewrite E0|rewrite E1]; lra.
      - apply in_map. apply in_keys; assumption. }
    destruct (Hb (f i d) (in_keys df (days c) f i d Hi Hd)) as [E0|E1];
      [exact E0|]. rewrite E1 in Hle. lra. }
  split; apply Hz; auto.
Qed.

(** Without a transfer the squad of a day is the one of the day before, and
    so the initial one, day after day. *)
Lemma squad_stays_initial :
  transfers c == 0 ->
  forall i d, In i (index df) -> In d (days c) ->
    a (squad_day i d) == a (initial_squad i).
Proof.
  intros H0 i d Hi Hd.
  apply in_days in Hd. destruct Hd as (k & Hk & ->).
  induction k as [|k IH].
  - assert (Hd : In (start_gameday c + Z.of_nat 0)%Z (days c))
      by (apply in_days; exists 0%nat; auto).
    destruct (transfers_zero_no_transfer i _ H0 Hi Hd) as [Hi0 Ho0].
    destruct (consistency_holds i _ Hi Hd) as [C1 C2].
    unfold previous in C1, C2.
    replace (start_gameday c + Z.of_nat 0)%Z with (start_gameday c) in * by lia.
    rewrite Z.eqb_refl in C1, C2. lra.
  - assert (Hd : In (start_gameday c + Z.of_nat (S k))%Z (days c))
      by (apply in_days; exists (S k); auto).
    assert (Hd' : In (start_gameday c + Z.of_nat k)%Z (days c))
      by (apply in_days; exists k; split; [lia|reflexivity]).
    destruct (transfers_zero_no_transfer i _ H0 Hi Hd) as [Hi1 Ho1].
    destruct (transfers_zero_no_transfer i _ H0 Hi Hd') as [Hi0 Ho0].
    destruct (consistency_holds i _ Hi Hd) as [C1 C2].
    unfold previous in C1, C2.
    replace (start_gameday c + Z.of_nat (S k) =? start_gameday c)%Z with false
      in C1, C2 by (symmetry; apply Z.eqb_neq; lia).
    replace (start_gameday c + Z.of_nat (S k) - 1)%Z
      with (start_gameday c + Z.of_nat k)%Z in C1, C2 by lia.
    assert (IH' := IH ltac:(lia)). lra.
Qed.

(** C3. With a transfer limit of 0, every assignment that satisfies the
    generated model keeps the initial squad all week: for every player and
    every day of the window [squad_day] equals [initial_squad], and every
    transfer variable is zero. *)
Theorem no_transfer_keeps_initial_squad :
  transfers c == 0 ->
  forall i d, In i (index df) -> In d (days c) ->
    a (squad_day i d) == a (initial_squad i)
    /\ a (t_in i d) == 0 /\ a (t_out i d) == 0.
Proof.
  intros H0 i d Hi Hd.
  destruct (transfers_zero_no_transfer i d H0 Hi Hd) as [Hin Hout].
  splits; try assumption.
  apply squad_stays_initial; assumption.
Qed.


End Feasible.

(** ** Head counts by position type *)

Lemma map_fst_combine {A B} (l : list A) (l' : list B) :
  List.length l = List.length l' -> map fst (combine l l') = l.
Proof.
  revert l'; induction l as [|x r IH]; intros [|y r'] H; simpl in *;
    try discriminate; try reflexivity.
  f_equal. apply IH. lia.
Qed.

Lemma map_fst_rows df : map fst (rows df) = index df.
Proof. unfold rows. apply map_fst_combine. unfold index. apply length_seq. Qed.

Lemma length_filter_map {A B} (g : A -> B) (P : B -> bool) l :
  List.length (filter P (map g l)) = List.length (filter (fun x => P (g x)) l).
Proof.
  induction l as [|x r IH]; simpl; [reflexivity|].
  destruct (P (g x)); simpl; rewrite IH; reflexivity.
Qed.

Lemma length_filter_filter {A} (P Q : A -> bool) l :
  List.length (filter P (filter Q l))
  = List.length (filter (fun x => Q x && P x) l).
Proof.
  induction l as [|x r IH]; simpl; [reflexivity|].
  destruct (Q x); simpl; [destruct (P x); simpl|]; rewrite IH; reflexivity.
Qed.

Lemma members_index a f df :
  List.length (members a f (index df))
  = List.length (filter (fun ip => Qeq_bool (a (f (fst ip))) 1) (rows df)).
Proof.
  unfold members. rewrite <- map_fst_rows, length_filter_map. reflexivity.
Qed.

Lemma members_index_where a f df q :
  List.length (members a f (index_where df q))
  = List.length (filter (fun ip => q (snd ip) && Qeq_bool (a (f (fst ip))) 1) (rows df)).
Proof.
  unfold members, index_where.
  rewrite length_filter_map, length_filter_filter. reflexivity.
Qed.

Lemma type_cases (x : Player) :
  (of_type 1 x = true /\ of_type 2 x = false /\ other_type x = false)
  \/ (of_type 1 x = false /\ of_type 2 x = true /\ other_type x = false)
  \/ (of_type 1 x = false /\ of_type 2 x = false /\ other_type x = true).
Proof.
  unfold other_type, of_type.
  destruct (Z.eqb_spec (element_type x) 1) as [H1|H1];
    destruct (Z.eqb_spec (element_type x) 2) as [H2|H2]; cbn; auto.
  exfalso. lia.
Qed.

(** A head count over the table splits by position type. *)
Lemma count_by_type (P : nat * Player -> bool) (l : list (nat * Player)) :
  List.length (filter P l)
  = (List.length (filter (fun ip => of_type 1 (snd ip) && P ip) l)
     + List.length (filter (fun ip => of_type 2 (snd ip) && P ip) l)
     + List.length (filter (fun ip => other_type (snd ip) && P ip) l))%nat.
Proof.
  induction l as [|x r IH]; simpl; [reflexivity|].
  destruct (type_cases (snd x)) as [(-> & -> & ->)|[(-> & -> & ->)|(-> & -> & ->)]];
    destruct (P x); cbn [andb List.length]; lia.
Qed.

Lemma squad_by_type a df d :
  List.length (squad a df d)
  = (List.length (squad_of a df d (of_type 1))
     + List.length (squad_of a df d (of_type 2))
     + List.length (squad_of a df d other_type))%nat.
Proof.
  unfold squad, squad_of. rewrite members_index, !members_index_where.
  apply count_by_type.
Qed.

(** In the generated model a day's squad has ten members and those of another
    position type. *)
Lemma squad_size_formula c players games p a d :
  generated_model c players games = Some p -> feasible p a -> In d (days c) ->
  List.length (squad a (model_table c players) d)
  = (10 + List.length (squad_of a (model_table c players) d other_type))%nat.
Proof.
  intros Hgen Hfeas Hd. rewrite squad_by_type.
  rewrite (squad_type_count c players games p a Hgen Hfeas d 1),
          (squad_type_count c players games p a Hgen Hfeas d 2); auto.
Qed.


(** ** The constraints of one day, on their own *)

Lemma in_combine_seq (df : DataFrame) i x :
  forall s, In (i, x) (combine (seq s (List.length df)) df)
            <-> (s <= i)%nat /\ nth_error df (i - s) = Some x.
Proof.
  induction df as [|y r IH]; intro s; simpl.
  - split; [tauto|]. intros [_ H]. destruct (i - s)%nat; discriminate.
  - rewrite IH. split.
    + intros [H|[Hle H]].
      * inversion H; subst. rewrite Nat.sub_diag. simpl. auto.
      * split; [lia|]. replace (i - s)%nat with (S (i - S s)) by lia. exact H.
    + intros [Hle H]. destruct (Nat.eq_dec s i) as [->|Hne].
      * rewrite Nat.sub_diag in H. simpl in H. inversion H; auto.
      * right. split; [lia|].
        replace (i - s)%nat with (S (i - S s)) in H by lia. exact H.
Qed.

Lemma in_rows df i x : In (i, x) (rows df) <-> nth_error df i = Some x.
Proof.
  unfold rows, index. rewrite in_combine_seq, Nat.sub_0_r.
  split; [tauto|]. intro H; split; [lia|exact H].
Qed.

Lemma in_index_where df q i :
  In i (index_where df q) <-> exists x, nth_error df i = Some x /\ q x = true.
Proof.
  unfold index_where. rewrite in_map_iff. split.
  - intros ([j x] & <- & H). apply filter_In in H. destruct H as [H Hq].
    exists x. split; [apply in_rows, H|exact Hq].
  - intros (x & Hx & Hq). exists (i, x). split; [reflexivity|].
    apply filter_In. split; [apply in_rows, Hx|exact Hq].
Qed.

Lemma in_index df i : In i (index df) <-> exists x, nth_error df i = Some x.
Proof.
  unfold index. rewrite in_seq. split.
  - intros [_ H]. destruct (nth_error df i) eqn:E; [eauto|].
    apply nth_error_None in E. lia.
  - intros (x & Hx). split; [lia|]. apply nth_error_Some. congruence.
Qed.









(** ** The transfer bookkeeping *)

Lemma total_flat_map {A B} (g : B -> Q) (h : A -> list B) l :
  total (map g (flat_map h l)) == total (map (fun x => total (map g (h x))) l).
Proof.
  induction l as [|x r IH]; simpl; [reflexivity|].
  rewrite map_app, total_app, IH. reflexivity.
Qed.

Lemma total_keys a df ds f :
  total (map a (keys df ds f))
  == total (map (fun i => total (map (fun d => a (f i d)) ds)) (index df)).
Proof.
  unfold keys. rewrite total_flat_map. apply total_map_ext.
  intros i _. rewrite map_map. reflexivity.
Qed.

Lemma holds_transfer_limit a df ds f limit :
  holds a (lp_le (lpSum (map V (keys df ds f))) (N limit))
  <-> total (map (fun i => total (map (fun d => a (f i d)) ds)) (index df)) <= limit.
Proof.
  rewrite holds_le, value_lpSum, map_map. cbn [operand_value].
  rewrite <- total_keys.
  assert (E : map (fun x => a x) (keys df ds f) = map a (keys df ds f)) by reflexivity.
  rewrite E. reflexivity.
Qed.

Lemma holds_consistency a x y t n :
  holds a (named (lp_ge (of_var t) (E (sub (of_var x) (V y)))) n)
  <-> a x - a y <= a t.
Proof.
  rewrite holds_named, holds_ge. cbn [operand_value].
  rewrite value_sub, !value_of_var. cbn [operand_value]. reflexivity.
Qed.

(** C2. What [add_transfer_constraints] adds to the problem contains, for
    every player and every day of the window, a constraint that says
    [transfer_in >= squad_day - previous] and one that says
    [transfer_out >= previous - squad_day], where [previous] is
    [initial_squad] on the first day and [squad_day] of the day before on the
    others; and a constraint that bounds the sum of all [transfer_in] over
    the window by the transfer limit, and one that does so for
    [transfer_out]. *)
Theorem transfer_constraints_emitted (self : Optimizer) (s : State) :
  exists added,
    add_transfer_constraints self s
    = (mkState (heap s)
               (mkProblem (declared (prob s)) (lowBound (prob s)) (upBound (prob s))
                          (constraints (prob s) ++ added) (objective (prob s)))
               (status s) (varValue s) (stdout s) (solves s), None)
    /\ (forall i d,
          In i (index (heap s (players_df self))) -> In d (days (config self)) ->
          exists c_in c_out,
            In c_in added /\ In c_out added
            /\ forall a,
                 (holds a c_in <->
                  a (squad_day i d) - a (previous (config self) i d) <= a (t_in i d))
                 /\ (holds a c_out <->
                     a (previous (config self) i d) - a (squad_day i d)
                     <= a (t_out i d)))
    /\ (exists limit_in limit_out,
          In limit_in added /\ In limit_out added
          /\ forall a,
               (holds a limit_in <->
                total (map (fun i => total (map (fun d => a (t_in i d))
                                                (days (config self))))
                           (index (heap s (players_df self))))
                <= transfers (config self))
               /\ (holds a limit_out <->
                   total (map (fun i => total (map (fun d => a (t_out i d))
                                                   (days (config self))))
                              (index (heap s (players_df self))))
                   <= transfers (config self))).
Proof.
  exists (transfer_constraints (heap s (players_df self)) (config self)).
  split; [reflexivity|]. split.
  - intros i d Hi Hd.
    assert (Hsub : forall q, In q (transfer_consistency (config self) i d) ->
              In q (transfer_constraints (heap s (players_df self)) (config self))).
    { intros q Hq. unfold transfer_constraints. right; right.
      apply in_flat_map. exists i. split; [exact Hi|].
      apply in_flat_map. exists d. split; assumption. }
    unfold transfer_consistency, previous in *.
    destruct (Z.eqb d (start_gameday (config self)));
      (eexists; eexists; split; [apply Hsub; left; reflexivity|];
       split; [apply Hsub; right; left; reflexivity|];
       intro a; split; apply holds_consistency).
  - eexists; eexists. split; [left; reflexivity|].
    split; [right; left; reflexivity|].
    intro a. split; apply holds_transfer_limit.
Qed.

(** ** The objective *)

Lemma existsb_filter {A} (f q : A -> bool) l :
  existsb f (filter q l) = true <-> exists g, In g l /\ q g = true /\ f g = true.
Proof.
  rewrite existsb_exists. split.
  - intros (g & Hg & Hf). apply filter_In in Hg. destruct Hg. eauto.
  - intros (g & Hg & Hq & Hf). exists g. split; [apply filter_In; auto|exact Hf].
Qed.

(** The points of a player on a day: the projection when the team plays,
    nothing otherwise. *)
Lemma player_points_for_day_spec games x d :
  (plays_on games x d -> player_points_for_day games x d = points_per_game x)
  /\ (~ plays_on games x d -> player_points_for_day games x d = 0).
Proof.
  unfold player_points_for_day, plays_on.
  destruct (existsb (fun g => Z.eqb (team_h g) (team x))
                    (filter (fun g => Z.eqb (event g) d) games)
            || existsb (fun g => Z.eqb (team_a g) (team x))
                       (filter (fun g => Z.eqb (event g) d) games)) eqn:Hb.
  - split; [reflexivity|]. intro Hno. exfalso. apply Hno.
    apply orb_true_iff in Hb. destruct Hb as [Hb|Hb];
      apply existsb_filter in Hb; destruct Hb as (g & Hg & He & Ht);
      apply Z.eqb_eq in He, Ht; exists g; auto.
  - split; [|reflexivity]. intros (g & Hg & He & Ht). exfalso.
    apply orb_false_iff in Hb. destruct Hb as [Hh Ha].
    destruct Ht as [Ht|Ht].
    + assert (H : existsb (fun g => Z.eqb (team_h g) (team x))
                    (filter (fun g => Z.eqb (event g) d) games) = true).
      { apply existsb_filter. exists g. rewrite !Z.eqb_eq. auto. }
      congruence.
    + assert (H : existsb (fun g => Z.eqb (team_a g) (team x))
                    (filter (fun g => Z.eqb (event g) d) games) = true).
      { apply existsb_filter. exists g. rewrite !Z.eqb_eq. auto. }
      congruence.
Qed.

Lemma value_objective_function a df games c :
  value a (objective_function df games c)
  == total (map (fun ip =>
       total (map (fun d =>
                player_points_for_day games (snd ip) d
                * (a (chosen_day (fst ip) d) + a (doubled_score (fst ip) d)))
              (days c)))
     (rows df)).
Proof.
  unfold objective_function. rewrite value_lpSum, total_flat_map.
  apply total_map_ext. intros ip _. rewrite map_map.
  apply total_map_ext. intros d _. cbn [operand_value].
  rewrite value_mul, value_add, value_of_var. cbn [operand_value]. reflexivity.
Qed.

Lemma coeff_addterm ts k x v :
  coeff (addterm ts k x) v == coeff ts v + (if var_eqb k v then x else 0).
Proof.
  induction ts as [|[k' y] r IH]; cbn [addterm coeff].
  - destruct (var_eqb k v); ring.
  - destruct (var_eqb k' k) eqn:Hk; cbn [coeff].
    + apply var_eqb_eq in Hk. subst k'. destruct (var_eqb k v); ring.
    + destruct (var_eqb k' v) eqn:Hv.
      * apply var_eqb_eq in Hv. subst k'.
        destruct (var_eqb k v) eqn:Hkv; [|ring].
        apply var_eqb_eq in Hkv. subst k. rewrite var_eqb_refl in Hk. discriminate.
      * exact IH.
Qed.

Lemma coeff_fold_addterm sign other ts v :
  coeff (fold_left (fun ts vx => addterm ts (fst vx) (snd vx * sign)) other ts) v
  == coeff ts v + sign * weight other v.
Proof.
  revert ts; induction other as [|[k y] r IH]; intro ts; unfold weight in *;
    cbn [fold_left map total fold_right fst snd].
  - ring.
  - rewrite IH, coeff_addterm. fold (total (map (fun kx : var * Q =>
      if var_eqb (fst kx) v then snd kx else 0) r)).
    destruct (var_eqb k v); ring.
Qed.

Lemma coeff_addInPlace e o sign v :
  coeff (terms (addInPlace e o sign)) v
  == coeff (terms e) v + sign * operand_weight o v.
Proof.
  destruct o as [w|o|n]; unfold addInPlace; cbn [terms operand_weight].
  - rewrite coeff_addterm. destruct (var_eqb w v); ring.
  - apply coeff_fold_addterm.
  - ring.
Qed.

Lemma coeff_lpSum l v :
  coeff (terms (lpSum l)) v == total (map (fun o => operand_weight o v) l).
Proof.
  unfold lpSum.
  assert (H : forall e,
    coeff (terms (fold_left (fun e other => addInPlace e other 1) l e)) v
    == coeff (terms e) v + total (map (fun o => operand_weight o v) l)).
  { induction l as [|o r IH]; intro e; cbn [fold_left map total fold_right].
    - ring.
    - rewrite IH, coeff_addInPlace.
      fold (total (map (fun o => operand_weight o v) r)). ring. }
  rewrite H. cbn. ring.
Qed.

Lemma constant_lpSum l :
  (forall o, In o l -> exists e, o = E e /\ constant e == 0) ->
  constant (lpSum l) == 0.
Proof.
  unfold lpSum. intro H.
  assert (G : forall e, constant e == 0 ->
    constant (fold_left (fun e other => addInPlace e other 1) l e) == 0).
  { induction l as [|o r IH]; intros e He; cbn [fold_left]; [exact He|].
    apply IH.
    - intros o' Ho'. apply H. right; exact Ho'.
    - destruct (H o (or_introl Logic.eq_refl)) as (e' & -> & He').
      cbn [addInPlace constant]. rewrite He, He'. ring. }
  apply G. reflexivity.
Qed.

(** What a term of the objective brings to the coefficient of a variable. *)
Lemma weight_objective_term i d pts v :
  weight (terms (mul (add (of_var (chosen_day i d)) (V (doubled_score i d))) pts)) v
  == (if var_eqb (chosen_day i d) v then pts else 0)
     + (if var_eqb (doubled_score i d) v then pts else 0).
Proof.
  unfold mul. destruct (Qeq_bool pts 0) eqn:Hp.
  - apply Qeq_bool_eq in Hp. unfold weight, empty_expr.
    cbn [terms map total fold_right].
    destruct (var_eqb (chosen_day i d) v), (var_eqb (doubled_score i d) v);
      rewrite ?Hp; reflexivity.
  - assert (Ht : terms (add (of_var (chosen_day i d)) (V (doubled_score i d)))
                 = [(chosen_day i d, 1); (doubled_score i d, 1)])
      by reflexivity.
    unfold weight. cbn [terms]. rewrite Ht.
    cbn [map fst snd total fold_right].
    destruct (var_eqb (chosen_day i d) v), (var_eqb (doubled_score i d) v); ring.
Qed.

Lemma total_zero {A} (g : A -> Q) l :
  (forall y, In y l -> g y == 0) -> total (map g l) == 0.
Proof.
  induction l as [|y r IH]; intro H; simpl; [reflexivity|].
  rewrite (H y (or_introl Logic.eq_refl)), IH; [ring|].
  intros z Hz. apply H. right; exact Hz.
Qed.

(** A sum in which one element only counts. *)
Lemma total_pick {A} (g : A -> Q) (l : list A) (x0 : A) :
  NoDup l -> In x0 l -> (forall y, In y l -> y <> x0 -> g y == 0) ->
  total (map g l) == g x0.
Proof.
  induction l as [|y r IH]; intros Hnd Hin Hz; [destruct Hin|].
  inversion Hnd as [|? ? Hy Hr]; subst. simpl.
  destruct Hin as [->|Hin].
  - rewrite total_zero; [ring|]. intros z Hz'. apply Hz; [right; exact Hz'|].
    intro; subst; contradiction.
  - rewrite (Hz y (or_introl Logic.eq_refl)) by (intro; subst; contradiction).
    rewrite IH; auto; [ring|]. intros z Hz'. apply Hz. right; exact Hz'.
Qed.

Lemma NoDup_days c : NoDup (days c).
Proof.
  unfold days. generalize (Z.to_nat (end_gameday c + 1 - start_gameday c)).
  intro n. generalize 0%nat. induction n as [|n IH]; intro k; simpl.
  - constructor.
  - constructor; [|apply IH]. rewrite in_map_iff. intros (j & Hj & Hin).
    apply in_seq in Hin. lia.
Qed.

Lemma NoDup_rows df : NoDup (rows df).
Proof.
  apply (NoDup_map_inv fst). rewrite map_fst_rows. apply seq_NoDup.
Qed.

Lemma coeff_objective_function df games c (mk : nat -> Z -> var) i0 x0 d0 :
  mk = chosen_day \/ mk = doubled_score ->
  nth_error df i0 = Some x0 -> In d0 (days c) ->
  coeff (terms (objective_function df games c)) (mk i0 d0)
  == player_points_for_day games x0 d0.
Proof.
  intros Hmk Hrow Hd. unfold objective_function.
  rewrite coeff_lpSum, total_flat_map.
  rewrite (total_pick _ (rows df) (i0, x0)).
  - rewrite map_map. cbn [fst snd operand_weight].
    rewrite (total_pick _ (days c) d0); [| apply NoDup_days | exact Hd |].
    + rewrite weight_objective_term.
      destruct Hmk as [->| ->]; rewrite var_eqb_refl; cbn [var_eqb]; ring.
    + intros d _ Hne. rewrite weight_objective_term.
      assert (Hz : (d =? d0)%Z = false) by (apply Z.eqb_neq; exact Hne).
      destruct Hmk as [->| ->]; cbn [var_eqb]; rewrite Hz, andb_false_r; ring.
  - apply NoDup_rows.
  - apply in_rows, Hrow.
  - intros [i x] Hin Hne. rewrite map_map. cbn [fst snd operand_weight].
    apply total_zero. intros d _. rewrite weight_objective_term.
    assert (Hz : (i =? i0)%nat = false).
    { apply Nat.eqb_neq. intro; subst i. apply in_rows in Hin.
      rewrite Hrow in Hin. inversion Hin; subst. apply Hne; reflexivity. }
    destruct Hmk as [->| ->]; cbn [var_eqb]; rewrite Hz; cbn [andb]; ring.
Qed.

Lemma constant_objective_function df games c :
  constant (objective_function df games c) == 0.
Proof.
  unfold objective_function. apply constant_lpSum.
  intros o Ho. apply in_flat_map in Ho. destruct Ho as (ip & _ & Ho).
  apply in_map_iff in Ho. destruct Ho as (d & <- & _).
  eexists. split; [reflexivity|].
  unfold mul. destruct (Qeq_bool _ 0); cbn; ring.
Qed.

(** C1. The objective [set_objective_function] builds gives the line-up
    variable and the captain variable of every player and day of the window
    the coefficient [points_per_game] of the player if the schedule has a game
    that day with the player's team at home or away, and 0 otherwise; its
    value is the sum over players and days of that coefficient times
    [lineup_day + captain_day], so that a line-up member counts once and the
    captain twice. *)
Theorem objective_is_points_times_lineup_plus_captain (self : Optimizer) (s : State) :
  exists obj,
    set_objective_function self s
    = (mkState (heap s)
               (mkProblem (declared (prob s)) (lowBound (prob s)) (upBound (prob s))
                          (constraints (prob s)) (Some obj))
               (status s) (varValue s) (stdout s) (solves s), None)
    /\ (forall i x d,
          nth_error (heap s (players_df self)) i = Some x ->
          In d (days (config self)) ->
          (plays_on (games_df self) x d ->
           coeff (terms obj) (chosen_day i d) == points_per_game x
           /\ coeff (terms obj) (doubled_score i d) == points_per_game x)
          /\ (~ plays_on (games_df self) x d ->
              coeff (terms obj) (chosen_day i d) == 0
              /\ coeff (terms obj) (doubled_score i d) == 0))
    /\ constant obj == 0
    /\ (forall a,
          value a obj
          == total (map (fun ip =>
               total (map (fun d =>
                        coeff (terms obj) (chosen_day (fst ip) d)
                        * (a (chosen_day (fst ip) d) + a (doubled_score (fst ip) d)))
                      (days (config self))))
             (rows (heap s (players_df self)))))
    /\ (forall a i d,
          a (chosen_day i d) == 1 ->
          (a (doubled_score i d) == 0 ->
           coeff (terms obj) (chosen_day i d)
           * (a (chosen_day i d) + a (doubled_score i d))
           == coeff (terms obj) (chosen_day i d))
          /\ (a (doubled_score i d) == 1 ->
              coeff (terms obj) (chosen_day i d)
              * (a (chosen_day i d) + a (doubled_score i d))
              == 2 * coeff (terms obj) (chosen_day i d))).
Proof.
  exists (objective_function (heap s (players_df self)) (games_df self) (config self)).
  split; [reflexivity|]. splits.
  - intros i x d Hrow Hd.
    pose proof (coeff_objective_function (heap s (players_df self)) (games_df self)
                  (config self) chosen_day i x d (or_introl Logic.eq_refl) Hrow Hd) as Hc.
    pose proof (coeff_objective_function (heap s (players_df self)) (games_df self)
                  (config self) doubled_score i x d (or_intror Logic.eq_refl) Hrow Hd) as Hd'.
    destruct (player_points_for_day_spec (games_df self) x d) as [Hyes Hno].
    split; intro Hp.
    + rewrite (Hyes Hp) in Hc, Hd'. split; assumption.
    + rewrite (Hno Hp) in Hc, Hd'. split; assumption.
  - apply constant_objective_function.
  - intro a. rewrite value_objective_function.
    apply total_map_ext. intros [i x] Hin.
    apply total_map_ext. intros d Hd. cbn [fst snd].
    rewrite (coeff_objective_function _ _ _ chosen_day i x d); auto.
    + reflexivity.
    + apply in_rows, Hin.
  - intros a i d H1. split; intro H2; rewrite H1, H2; ring.
Qed.

(** ** The console *)

Lemma emit_nil s : emit [] s = s.
Proof. destruct s. unfold emit. cbn. rewrite app_nil_r. reflexivity. Qed.

Lemma emit_emit l1 l2 s : emit l2 (emit l1 s) = emit (l1 ++ l2) s.
Proof. unfold emit. cbn. rewrite app_assoc. reflexivity. Qed.

Lemma bind_emit (m k : M) s l :
  m s = (emit l s, None) -> bind m k s = k (emit l s).
Proof. intro H. unfold bind. rewrite H. reflexivity. Qed.

(** A loop whose body prints lines that depend on the solver's values only. *)
Lemma for_each_emit {A} (g : (var -> option Q) -> A -> list output)
      (body : A -> M) (l : list A) :
  (forall x s, body x s = (emit (g (varValue s) x) s, None)) ->
  forall s, for_each l body s = (emit (flat_map (g (varValue s)) l) s, None).
Proof.
  intro Hbody. induction l as [|x r IH]; intro s; cbn [for_each flat_map].
  - unfold ret. rewrite emit_nil. reflexivity.
  - rewrite (bind_emit _ _ _ _ (Hbody x s)), IH, emit_emit. reflexivity.
Qed.

Lemma for_each_print {A} (g : A -> output) (l : list A) s :
  for_each l (fun x => print (g x)) s = (emit (map g l) s, None).
Proof.
  rewrite (for_each_emit (fun _ x => [g x])); [|reflexivity].
  replace (flat_map (fun x => [g x]) l) with (map g l); [reflexivity|].
  induction l as [|x r IH]; simpl; [reflexivity|]. rewrite IH. reflexivity.
Qed.

Lemma print_initial_squad_spec self s :
  print_initial_squad self s
  = (emit (squad_lines (heap s (players_df self)) (varValue s)) s, None).
Proof.
  unfold print_initial_squad. cbv zeta.
  rewrite (bind_emit _ _ _ [Initial_squad_header]) by reflexivity.
  rewrite (for_each_emit (fun vv i =>
             if is_one (vv (initial_squad i))
             then [Squad_line (player_name_at (heap s (players_df self)) i)]
             else [])).
  - rewrite emit_emit. unfold squad_lines. cbn [app varValue emit].
    do 2 f_equal. f_equal.
    induction (index (heap s (players_df self))) as [|i r IH]; simpl; [reflexivity|].
    destruct (is_one (varValue s (initial_squad i))); simpl; rewrite IH; reflexivity.
  - intros i s'. destruct (is_one (varValue s' (initial_squad i))).
    + reflexivity.
    + unfold ret. rewrite emit_nil. reflexivity.
Qed.

Lemma print_solution_spec self s :
  print_solution self s
  = (emit (solution_lines (config self) (heap s (players_df self)) (status s)
                          (varValue s) (objective (prob s))) s, None).
Proof.
  unfold print_solution, solution_lines. cbv zeta.
  destruct (negb (is_optimal (status s))); [reflexivity|].
  rewrite (bind_emit _ _ _ [Total_points _]) by reflexivity.
  rewrite (bind_emit _ _ _ [Transfers_to_be_made]) by reflexivity.
  rewrite (for_each_emit (day_lines (heap s (players_df self)))).
  - rewrite !emit_emit. reflexivity.
  - intros d s'. unfold day_lines. cbv zeta.
    set (tin := filter (fun i => is_one (varValue s' (t_in i d)))
                       (index (heap s (players_df self)))).
    set (tout := filter (fun i => is_one (varValue s' (t_out i d)))
                        (index (heap s (players_df self)))).
    assert (Hin : forall s1 : State,
              match tin with
              | [] => ret
              | _ => bind (print Transfers_in_header)
                          (for_each tin (fun i =>
                             print (Transfer_line
                                      (player_name_at (heap s (players_df self)) i))))
              end s1
              = (emit match tin with
                      | [] => []
                      | _ => Transfers_in_header
                             :: map (fun i => Transfer_line
                                      (player_name_at (heap s (players_df self)) i)) tin
                      end s1, None)).
    { intro s1. destruct tin as [|i r].
      - unfold ret. rewrite emit_nil. reflexivity.
      - rewrite (bind_emit _ _ _ [Transfers_in_header]) by reflexivity.
        rewrite for_each_print, emit_emit. reflexivity. }
    assert (Hout : forall s1 : State,
              match tout with
              | [] => ret
              | _ => bind (print Transfers_out_header)
                          (for_each tout (fun i =>
                             print (Transfer_line
                                      (player_name_at (heap s (players_df self)) i))))
              end s1
              = (emit match tout with
                      | [] => []
                      | _ => Transfers_out_header
                             :: map (fun i => Transfer_line
                                      (player_name_at (heap s (players_df self)) i)) tout
                      end s1, None)).
    { intro s1. destruct tout as [|i r].
      - unfold ret. rewrite emit_nil. reflexivity.
      - rewrite (bind_emit _ _ _ [Transfers_out_header]) by reflexivity.
        rewrite for_each_print, emit_emit. reflexivity. }
    assert (Hday : (bind (print (Day_header d))
                      (bind match tin with
                            | [] => ret
                            | _ => bind (print Transfers_in_header)
                                     (for_each tin (fun i =>
                                        print (Transfer_line
                                          (player_name_at (heap s (players_df self)) i))))
                            end
                            match tout with
                            | [] => ret
                            | _ => bind (print Transfers_out_header)
                                     (for_each tout (fun i =>
                                        print (Transfer_line
                                          (player_name_at (heap s (players_df self)) i))))
                            end)) s'
                   = (emit (Day_header d
                            :: match tin with
                               | [] => []
                               | _ => Transfers_in_header
                                      :: map (fun i => Transfer_line
                                           (player_name_at (heap s (players_df self)) i))
                                           tin
                               end
                            ++ match tout with
                               | [] => []
                               | _ => Transfers_out_header
                                      :: map (fun i => Transfer_line
                                           (player_name_at (heap s (players_df self)) i))
                                           tout
                               end) s', None)).
    { rewrite (bind_emit _ _ _ [Day_header d]) by reflexivity.
      rewrite (bind_emit _ _ _ _ (Hin _)), Hout, !emit_emit. reflexivity. }
    destruct tin as [|i r]; [destruct tout as [|j r']|].
    + unfold ret. rewrite emit_nil. reflexivity.
    + exact Hday.
    + exact Hday.
Qed.

(** ** The run *)

Lemma name_in_adjusted df adjustments m :
  name_in (adjusted df adjustments) m = name_in df m.
Proof.
  revert df; induction adjustments as [|e r IH]; intro df; cbn [adjusted].
  - reflexivity.
  - rewrite IH. destruct (name_in df (fst e)); [apply name_in_with_points|reflexivity].
Qed.

Lemma names_in_model_table c df names :
  forallb (name_in (model_table c df)) names = forallb (name_in df) names.
Proof.
  induction names as [|m l IH]; simpl; [reflexivity|].
  rewrite IH. unfold model_table.
  destruct (player_points_adjustments c); [rewrite name_in_adjusted|]; reflexivity.
Qed.

Lemma name_in_model_table c df m : name_in (model_table c df) m = name_in df m.
Proof.
  unfold model_table. destruct (player_points_adjustments c);
    [apply name_in_adjusted|reflexivity].
Qed.

Section RunFacts.

Variable solver : LpProblem -> LpStatus * (var -> option Q).

Lemma setup_problem_spec self s :
  setup_problem solver self s
  = match build_model self s with
    | (b, Some e) => (b, Some e)
    | (b, None) =>
        (emit (solution_lines (config self) (heap b (players_df self))
                              (fst (solver (prob b))) (assigned (snd (solver (prob b))))
                              (restored_objective (objective (prob b))))
              (fst (solve solver b)), None)
    end.
Proof.
  unfold setup_problem. unfold bind at 1.
  destruct (build_model self s) as [b [e|]]; [reflexivity|].
  rewrite bind_ok by reflexivity. rewrite print_solution_spec. reflexivity.
Qed.

(** The whole run.  When the model is generated, the run ends normally: the
    solver is called once, on the model, and the console has the warnings,
    the lines of [print_solution] and those of [print_initial_squad].  When
    it is not, the run ends in the exception that stopped the construction,
    [TypeError] for an override the column cannot hold and [IndexError] for
    a must-include name that is not in the table, with nothing but warnings
    on the console and without a call of the solver. *)
Lemma main_spec c players games :
  let df := model_table c players in
  let r := main solver c players games in
  (forall p, generated_model c players games = Some p ->
     snd r = None /\ heap (fst r) players_loc = df
     /\ solves (fst r) = [p]
     /\ status (fst r) = fst (solver p)
     /\ stdout (fst r)
        = model_warnings c players
          ++ solution_lines c df (fst (solver p)) (assigned (snd (solver p)))
                            (restored_objective (objective p))
          ++ squad_lines df (snd (solver p)))
  /\ (generated_model c players games = None ->
      snd r = Some (if model_fits c players then IndexError else TypeError)
      /\ solves (fst r) = []
      /\ status (fst r) = LpStatusNotSolved
      /\ forallb is_warning (stdout (fst r)) = true
      /\ (model_fits c players = true ->
          heap (fst r) players_loc = df /\ stdout (fst r) = model_warnings c players)).
Proof.
  intros df r.
  pose proof (build_model_spec (mkOptimizer players_loc games c)
                (fresh (fun _ => players))) as H.
  cbn zeta in H. cbn [config players_df games_df fresh heap prob constraints status
                      varValue solves stdout empty_problem app] in H.
  fold df in H.
  destruct H as (_ & H2 & H3 & H4 & (w & Hw & Hall) & Hfit & Hno).
  subst r. unfold main, generated_model. unfold bind.
  rewrite setup_problem_spec.
  destruct (build_model (mkOptimizer players_loc games c) (fresh (fun _ => players)))
    as [b [e|]]; cbn [fst snd] in *.
  - split; [intros p Hp; discriminate|]. intros _.
    splits; try assumption.
    + destruct (model_fits c players).
      * destruct (Hfit Logic.eq_refl) as (_ & _ & Hok & Hko).
        destruct (forallb (name_in df) (must_include c));
          [destruct (Hok Logic.eq_refl) as [Hn _]; discriminate Hn|].
        apply Hko. reflexivity.
      * apply Hno. reflexivity.
    + rewrite Hw. exact Hall.
    + intro Hf. destruct (Hfit Hf) as (Hh & Hout & _). auto.
  - split; [|intro Hp; discriminate]. intros p Hp. inversion Hp; subst p. clear Hp.
    rewrite print_initial_squad_spec.
    cbn [fst snd emit solve modify heap prob status varValue stdout solves players_df].
    destruct (model_fits c players);
      [|discriminate (Hno Logic.eq_refl)].
    destruct (Hfit Logic.eq_refl) as (Hh & Hout & _).
    splits; try reflexivity.
    + exact Hh.
    + rewrite H4. reflexivity.
    + rewrite Hout, Hh, <- !app_assoc. reflexivity.
Qed.

End RunFacts.

(** ** The points overrides *)

Lemma with_points_absent df n v : name_in df n = false -> with_points df n v = df.
Proof.
  unfold name_in, with_points. generalize (points_dtype df). intro t.
  induction df as [|x r IH]; simpl; [reflexivity|].
  intro H. apply orb_false_iff in H. destruct H as [Hx Hr].
  rewrite Hx, IH by exact Hr. reflexivity.
Qed.

Lemma adjusted_step df e r :
  adjusted df (e :: r) = adjusted (with_points df (fst e) (snd e)) r.
Proof.
  cbn [adjusted]. destruct (name_in df (fst e)) eqn:H; [reflexivity|].
  rewrite with_points_absent by exact H. reflexivity.
Qed.

Lemma points_dtype_adjusted df adjustments :
  points_dtype (adjusted df adjustments) = points_dtype df.
Proof.
  revert df; induction adjustments as [|e r IH]; intro df; [reflexivity|].
  rewrite adjusted_step, IH. apply points_dtype_with_points.
Qed.

(** A row after the overrides: the points are the override's, in the type of
    the column, when an entry has the player's name, and the row is
    untouched otherwise. *)
Lemma adjusted_row adjustments :
  NoDup (map fst adjustments) ->
  forall df i x, nth_error df i = Some x ->
  exists x', nth_error (adjusted df adjustments) i = Some x'
    /\ name x' = name x /\ now_cost x' = now_cost x
    /\ element_type x' = element_type x /\ team x' = team x
    /\ (forall v, In (name x, v) adjustments ->
          points_per_game x' = v /\ points_cell x' = points_dtype df)
    /\ ((forall v, ~ In (name x, v) adjustments) -> x' = x).
Proof.
  induction adjustments as [|e r IH]; intros Hnd df i x Hrow.
  - exists x. cbn. splits; auto. intros v [].
  - inversion Hnd as [|? ? Hfresh Hnd']; subst. rewrite adjusted_step.
    set (x1 := if String.eqb (name x) (fst e)
               then set_points x (snd e) (points_dtype df) else x).
    assert (Hrow1 : nth_error (with_points df (fst e) (snd e)) i = Some x1).
    { unfold with_points. rewrite nth_error_map, Hrow. reflexivity. }
    assert (Hname1 : name x1 = name x)
      by (subst x1; destruct (String.eqb (name x) (fst e)); reflexivity).
    destruct (IH Hnd' _ i x1 Hrow1) as (x' & R & N1 & N2 & N3 & N4 & Hin & Hout).
    rewrite points_dtype_with_points in Hin.
    exists x'. subst x1.
    destruct (String.eqb_spec (name x) (fst e)) as [Heq|Hne]; cbn [name now_cost
      element_type team set_points] in *; splits; try congruence.
    + intros v [Hv|Hv].
      * rewrite Hout; [destruct e; cbn in *; split; congruence|].
        intros w Hw. apply Hfresh. rewrite <- Heq.
        apply in_map_iff. exists (name x, w). auto.
      * apply Hin, Hv.
    + intros Hno. exfalso. apply (Hno (snd e)). left. destruct e; cbn in *; congruence.
    + intros v [Hv|Hv]; [destruct e; cbn in *; congruence|apply Hin, Hv].
    + intros Hno. apply Hout. intros v Hv. apply (Hno v). right; exact Hv.
Qed.

Lemma adjusted_length df adjustments :
  List.length (adjusted df adjustments) = List.length df.
Proof.
  revert df; induction adjustments as [|e r IH]; intro df; [reflexivity|].
  rewrite adjusted_step, IH. unfold with_points. apply length_map.
Qed.

Lemma squad_lines_no_warning df vv : existsb is_warning (squad_lines df vv) = false.
Proof.
  unfold squad_lines. cbn [existsb is_warning orb].
  induction (filter _ _) as [|n l IH]; simpl; auto.
Qed.

Lemma existsb_app' {A} (f : A -> bool) l1 l2 :
  existsb f l1 = false -> existsb f l2 = false -> existsb f (l1 ++ l2) = false.
Proof. intros H1 H2. rewrite existsb_app, H1, H2. reflexivity. Qed.

Lemma map_line_no_warning (g : nat -> string) l :
  existsb is_warning (map (fun i => Transfer_line (g i)) l) = false.
Proof. induction l as [|n r IH]; simpl; auto. Qed.

Lemma solution_lines_no_warning c df st vv obj :
  existsb is_warning (solution_lines c df st vv obj) = false.
Proof.
  unfold solution_lines. destruct (negb (is_optimal st)); [reflexivity|].
  cbn [existsb is_warning orb].
  induction (days c) as [|d l IH]; cbn [flat_map]; [reflexivity|].
  apply existsb_app'; [|exact IH].
  unfold day_lines. cbv zeta.
  destruct (filter _ _) as [|i r]; destruct (filter _ _) as [|j r'];
    cbn [existsb is_warning orb app map]; rewrite ?existsb_app;
    cbn [existsb is_warning orb]; rewrite ?map_line_no_warning; reflexivity.
Qed.

(** ** Configuration errors and solver failures *)

(** A must-include name that is not in the players table stops the run
    while the model is built: no model is generated, the run ends in an
    exception, [IndexError] unless an override has raised [TypeError]
    before, the solver is never called, the status stays "not solved", and
    nothing is printed but warnings of the points overrides. *)
Lemma missing_must_include_aborts
  (solver : LpProblem -> LpStatus * (var -> option Q))
  (c : Config) (players : DataFrame) (games : list Game) (missing : string) :
  In missing (must_include c) -> name_in players missing = false ->
  let r := main solver c players games in
  generated_model c players games = None
  /\ snd r = Some (if model_fits c players then IndexError else TypeError)
  /\ solves (fst r) = []
  /\ status (fst r) = LpStatusNotSolved
  /\ forallb is_warning (stdout (fst r)) = true.
Proof.
  intros Hin Hmiss r.
  assert (Hall : forallb (name_in (model_table c players)) (must_include c) = false).
  { rewrite names_in_model_table.
    destruct (forallb (name_in players) (must_include c)) eqn:H; [|reflexivity].
    rewrite forallb_forall in H. rewrite (H _ Hin) in Hmiss. discriminate. }
  assert (Hgen : generated_model c players games = None).
  { destruct (generated_model_spec c players games) as [_ Hnone]. apply Hnone.
    right. exact Hall. }
  destruct (main_spec solver c players games) as (_ & Hko).
  destruct (Hko Hgen) as (H1 & H2 & H3 & H4 & _). fold r in H1, H2, H3, H4.
  splits; assumption.
Qed.

(** C4. The must-include names "Ghost" and "Phantom" are not in the league,
    and the override mapping names "Nobody", who is not there either.  The
    run warns about "Nobody" by name, and then ends in an [IndexError], an
    exception without a player name, before the solver is called: nothing
    on the console and nothing in the exception says that "Ghost" is the
    name that is missing. *)
Theorem missing_must_include_is_not_reported :
  let r := main League.solver_keep_ten League.ghost League.players League.games in
  In "Ghost"%string (must_include League.ghost)
  /\ name_in League.players "Ghost" = false
  /\ player_points_adjustments League.ghost = Some [("Nobody"%string, 50)]
  /\ snd r = Some IndexError
  /\ solves (fst r) = []
  /\ status (fst r) = LpStatusNotSolved
  /\ stdout (fst r) = [Warning_not_found "Nobody"].
Proof.
  cbv zeta. splits; try (vm_compute; reflexivity).
  right; left; reflexivity.
Qed.

(** When the solver does not report an optimal solution, the run prints the
    failure line and then the initial squad all the same. *)
Lemma non_optimal_run_output
  (solver : LpProblem -> LpStatus * (var -> option Q))
  (c : Config) (players : DataFrame) (games : list Game) (p : LpProblem) :
  generated_model c players games = Some p ->
  is_optimal (fst (solver p)) = false ->
  stdout (fst (main solver c players games))
  = model_warnings c players
    ++ [No_optimal_solution]
    ++ squad_lines (model_table c players) (snd (solver p)).
Proof.
  intros Hgen Hst.
  destruct (main_spec solver c players games) as (Hok & _).
  destruct (Hok p Hgen) as (_ & _ & _ & _ & Hout).
  rewrite Hout. unfold solution_lines. rewrite Hst. reflexivity.
Qed.

(** C5, on a league whose budget no squad fits in. The solver reports
    "infeasible"; the run prints the failure line, and then the header of the
    initial squad and the player the configuration fixed in it. *)
Theorem infeasible_run_still_prints_initial_squad :
  let r := main League.solver_infeasible League.too_poor League.players League.games in
  status (fst r) = LpStatusInfeasible
  /\ snd r = None
  /\ stdout (fst r) = [No_optimal_solution; Initial_squad_header; Squad_line "P0"]
  /\ existsb roster_line (stdout (fst r)) = true.
Proof. vm_compute. auto. Qed.

(** With a points-override mapping that the points column takes, the table
    the model is built from has, for every player whose name is in the
    mapping, the override in place of the projected points; every entry
    whose name is not in the table gives one warning and changes no row; and
    the run goes on: it ends normally exactly when the must-include names
    are all there. *)
Lemma overrides_applied_when_held
  (solver : LpProblem -> LpStatus * (var -> option Q))
  (c : Config) (players : DataFrame) (games : list Game)
  (adjustments : list (string * Q)) :
  player_points_adjustments c = Some adjustments ->
  NoDup (map fst adjustments) ->
  overrides_fit players adjustments = true ->
  let r := main solver c players games in
  let df := heap (fst r) players_loc in
  (forall i x, nth_error players i = Some x ->
     exists x', nth_error df i = Some x' /\ name x' = name x
       /\ (forall v, In (name x, v) adjustments -> points_per_game x' = v)
       /\ ((forall v, ~ In (name x, v) adjustments) -> x' = x))
  /\ (forallb (name_in players) (must_include c) = true ->
      exists p, solves (fst r) = [p]
        /\ constraints p = model_constraints df c
        /\ objective p = Some (objective_function df games c))
  /\ (exists rest,
        stdout (fst r)
        = map Warning_not_found
              (filter (fun n => negb (name_in players n)) (map fst adjustments))
          ++ rest
        /\ existsb is_warning rest = false)
  /\ (snd r = None <-> forallb (name_in players) (must_include c) = true).
Proof.
  intros Hadj Hnd Hfit r df.
  assert (Hf : model_fits c players = true) by (unfold model_fits; rewrite Hadj; exact Hfit).
  assert (Hw : model_warnings c players
               = map Warning_not_found
                   (filter (fun n => negb (name_in players n)) (map fst adjustments))).
  { unfold model_warnings. rewrite Hadj. reflexivity. }
  destruct (main_spec solver c players games) as (Hok & Hko).
  fold r in Hok, Hko.
  destruct (generated_model_spec c players games) as [Hsome Hnone].
  cbn zeta in Hsome, Hnone. rewrite names_in_model_table in Hsome, Hnone.
  assert (Hheap : df = adjusted players adjustments
          /\ (forallb (name_in players) (must_include c) = true ->
              exists p, generated_model c players games = Some p)
          /\ (forallb (name_in players) (must_include c) = false ->
              generated_model c players games = None)).
  { splits.
    - destruct (forallb (name_in players) (must_include c)).
      + destruct (Hsome Hf Logic.eq_refl) as (p & Hgen & _).
        destruct (Hok p Hgen) as (_ & Hh & _). subst df. rewrite Hh.
        unfold model_table. rewrite Hadj. reflexivity.
      + destruct (Hko (Hnone (or_intror Logic.eq_refl))) as (_ & _ & _ & _ & Hh).
        destruct (Hh Hf) as [Hh' _]. subst df. rewrite Hh'.
        unfold model_table. rewrite Hadj. reflexivity.
    - intro Hall. destruct (Hsome Hf Hall) as (p & Hgen & _). eauto.
    - intro Hall. apply Hnone. auto. }
  destruct Hheap as (Hdf & Hgen1 & Hgen0).
  splits.
  - intros i x Hrow. rewrite Hdf.
    destruct (adjusted_row adjustments Hnd players i x Hrow)
      as (x' & R & N1 & _ & _ & _ & Hin & Hout).
    exists x'. splits; auto. intros v Hv. apply Hin, Hv.
  - intro Hall. destruct (Hgen1 Hall) as (p & Hgen).
    destruct (Hok p Hgen) as (_ & Hh & Hs & _).
    exists p. destruct (generated_model_inv _ _ _ _ Hgen) as (Hc & _ & Ho & _).
    fold df in Hh. rewrite Hh. auto.
  - destruct (forallb (name_in players) (must_include c)).
    + destruct (Hgen1 Logic.eq_refl) as (p & Hgen).
      destruct (Hok p Hgen) as (_ & _ & _ & _ & Hout).
      eexists. split; [rewrite Hout, Hw; reflexivity|].
      apply existsb_app'; [apply solution_lines_no_warning|apply squad_lines_no_warning].
    + destruct (Hko (Hgen0 Logic.eq_refl)) as (_ & _ & _ & _ & Hh).
      destruct (Hh Hf) as [_ Hout].
      exists []. rewrite Hout, Hw, app_nil_r. auto.
  - destruct (forallb (name_in players) (must_include c)).
    + destruct (Hgen1 Logic.eq_refl) as (p & Hgen).
      destruct (Hok p Hgen) as (Hn & _). tauto.
    + destruct (Hko (Hgen0 Logic.eq_refl)) as (Hn & _). rewrite Hn, Hf.
      split; discriminate.
Qed.

(** C8. The league without the Rookie has whole numbers only in its points
    column.  The mapping overrides P1 with 99 and P0 with 40.5 and names
    "Nobody", who is not in the table.  The run takes the first override,
    and the second one ends it in a [TypeError], since the column does not
    hold 40.5: P0 keeps the projected points, the warning for "Nobody" is
    never printed, no model is built and the solver is not called. *)
Theorem fractional_override_stops_the_run :
  let r := main League.solver_keep_ten League.fractional League.veterans
                League.games in
  player_points_adjustments League.fractional
  = Some [("P1"%string, 99); ("P0"%string, 40.5); ("Nobody"%string, 50)]
  /\ forallb (name_in League.veterans) (must_include League.fractional) = true
  /\ points_dtype League.veterans = int64
  /\ map points_per_game League.veterans = [30; 25; 20; 15; 10; 28; 22; 18; 12; 8]
  /\ snd r = Some TypeError
  /\ map points_per_game (heap (fst r) players_loc)
     = [30; 99; 20; 15; 10; 28; 22; 18; 12; 8]
  /\ stdout (fst r) = []
  /\ solves (fst r) = []
  /\ generated_model League.fractional League.veterans League.games = None.
Proof. cbv zeta. splits; vm_compute; reflexivity. Qed.

Lemma setup_problem_heap solver self s l :
  heap (fst (setup_problem solver self s)) l = heap (fst (build_model self s)) l.
Proof.
  rewrite setup_problem_spec. destruct (build_model self s) as [b [e|]]; reflexivity.
Qed.

(** The optimiser keeps the reference to the players table it is given, and
    the override loop writes through it: no other object is touched, and
    after [setup_problem] with a points-override mapping that the points
    column takes, the table at the caller's reference has the override as
    [points_per_game] of every player named in the mapping; the other
    columns of those rows and the rows of the other players are as they
    were. *)
Lemma overrides_written_in_place
  (solver : LpProblem -> LpStatus * (var -> option Q))
  (players_ref : loc) (games : list Game) (c : Config)
  (adjustments : list (string * Q)) (s : State) :
  player_points_adjustments c = Some adjustments ->
  NoDup (map fst adjustments) ->
  let r := setup_problem solver (mkOptimizer players_ref games c) s in
  (forall l, l <> players_ref -> heap (fst r) l = heap s l)
  /\ (overrides_fit (heap s players_ref) adjustments = true ->
      List.length (heap (fst r) players_ref) = List.length (heap s players_ref)
      /\ forall i x, nth_error (heap s players_ref) i = Some x ->
           exists x', nth_error (heap (fst r) players_ref) i = Some x'
             /\ name x' = name x /\ now_cost x' = now_cost x
             /\ element_type x' = element_type x /\ team x' = team x
             /\ (forall v, In (name x, v) adjustments -> points_per_game x' = v)
             /\ ((forall v, ~ In (name x, v) adjustments) -> x' = x)).
Proof.
  intros Hadj Hnd r.
  pose proof (build_model_spec (mkOptimizer players_ref games c) s) as H.
  cbn zeta in H. cbn [config players_df] in H.
  destruct H as (H1 & _ & _ & _ & _ & Hfit & _).
  unfold model_table, model_fits in Hfit. rewrite Hadj in Hfit.
  assert (Hr : forall l, heap (fst r) l
                         = heap (fst (build_model (mkOptimizer players_ref games c) s)) l)
    by (intro l; apply setup_problem_heap).
  split.
  - intros l Hl. rewrite Hr. apply H1, Hl.
  - intro Hf. destruct (Hfit Hf) as (Hh & _). rewrite Hr, Hh. split.
    + apply adjusted_length.
    + intros i x Hrow.
      destruct (adjusted_row adjustments Hnd _ i x Hrow)
        as (x' & R & N1 & N2 & N3 & N4 & Hin & Hout).
      exists x'. splits; auto. intros v Hv. apply Hin, Hv.
Qed.

(** C9. The caller's table, at the reference 7, is the league without the
    Rookie, whole numbers only in its points column; the mapping overrides
    P1 with 99 and P0 with 40.5.  After [setup_problem] the table at the
    caller's reference has 99 for P1, written in place through the
    reference the optimiser kept, and still 30 for P0, whose override the
    column does not hold: the run has ended in a [TypeError].  The other
    columns are as they were. *)
Theorem fractional_override_is_not_written :
  let self := mkOptimizer 7%nat League.games League.fractional in
  let s := fresh (fun _ => League.veterans) in
  let r := setup_problem League.solver_keep_ten self s in
  name_in (heap s 7%nat) "P0" = true
  /\ In ("P0"%string, 40.5) [("P1"%string, 99); ("P0"%string, 40.5); ("Nobody"%string, 50)]
  /\ player_points_adjustments (config self)
     = Some [("P1"%string, 99); ("P0"%string, 40.5); ("Nobody"%string, 50)]
  /\ points_dtype (heap s 7%nat) = int64
  /\ snd r = Some TypeError
  /\ map points_per_game (heap s 7%nat) = [30; 25; 20; 15; 10; 28; 22; 18; 12; 8]
  /\ map points_per_game (heap (fst r) 7%nat) = [30; 99; 20; 15; 10; 28; 22; 18; 12; 8]
  /\ map name (heap (fst r) 7%nat) = map name (heap s 7%nat)
  /\ map now_cost (heap (fst r) 7%nat) = map now_cost (heap s 7%nat)
  /\ map element_type (heap (fst r) 7%nat) = map element_type (heap s 7%nat)
  /\ map team (heap (fst r) 7%nat) = map team (heap s 7%nat).
Proof.
  cbv zeta. splits; try (vm_compute; reflexivity).
  right; left; reflexivity.
Qed.

(** ** The size of a day's squad *)










(** ** The league as an instance *)

Lemma league_model_generated :
  generated_model League.no_transfer League.players League.games
  = Some (League.model League.no_transfer).
Proof. vm_compute. reflexivity. Defined.

Lemma league_keep_ten_feasible :
  feasible (League.model League.no_transfer) League.keep_ten.
Proof. apply feasibleb_feasible. vm_compute. reflexivity. Defined.

Lemma no_transfer_keeps_initial_squad_witness :
  generated_model League.no_transfer League.players League.games
  = Some (League.model League.no_transfer)
  /\ feasible (League.model League.no_transfer) League.keep_ten
  /\ transfers League.no_transfer == 0
  /\ forall i d,
       In i (index (model_table League.no_transfer League.players)) ->
       In d (days League.no_transfer) ->
       League.keep_ten (squad_day i d) == League.keep_ten (initial_squad i)
       /\ League.keep_ten (t_in i d) == 0 /\ League.keep_ten (t_out i d) == 0.
Proof.
  split; [exact league_model_generated|].
  split; [exact league_keep_ten_feasible|].
  split; [reflexivity|].
  apply (no_transfer_keeps_initial_squad League.no_transfer League.players
           League.games (League.model League.no_transfer) League.keep_ten
           league_model_generated league_keep_ten_feasible).
  reflexivity.
Defined.

Lemma squad_and_lineup_sizes_witness :
  generated_model League.no_transfer League.players League.games
  = Some (League.model League.no_transfer)
  /\ feasible (League.model League.no_transfer) League.keep_ten
  /\ List.length (initial League.keep_ten
                          (model_table League.no_transfer League.players)) = 10%nat
  /\ forall d, In d (days League.no_transfer) ->
       List.length (lineup League.keep_ten
                           (model_table League.no_transfer League.players) d) = 5%nat
       /\ List.length (squad_of League.keep_ten
                         (model_table League.no_transfer League.players) d
                         (of_type 1)) = 5%nat
       /\ List.length (squad_of League.keep_ten
                         (model_table League.no_transfer League.players) d
                         (of_type 2)) = 5%nat.
Proof.
  split; [exact league_model_generated|].
  split; [exact league_keep_ten_feasible|].
  apply (squad_and_lineup_sizes League.no_transfer League.players League.games
           (League.model League.no_transfer) League.keep_ten
           league_model_generated league_keep_ten_feasible).
Defined.

Lemma one_captain_in_lineup_in_squad_witness :
  generated_model League.no_transfer League.players League.games
  = Some (League.model League.no_transfer)
  /\ feasible (League.model League.no_transfer) League.keep_ten
  /\ In 1%Z (days League.no_transfer)
  /\ (exists captain,
        captains League.keep_ten (model_table League.no_transfer League.players) 1
        = [captain]
        /\ In captain (lineup League.keep_ten
                              (model_table League.no_transfer League.players) 1))
  /\ incl (lineup League.keep_ten (model_table League.no_transfer League.players) 1)
          (squad League.keep_ten (model_table League.no_transfer League.players) 1).
Proof.
  assert (Hd : In 1%Z (days League.no_transfer)) by (left; reflexivity).
  split; [exact league_model_generated|].
  split; [exact league_keep_ten_feasible|].
  split; [exact Hd|].
  apply (one_captain_in_lineup_in_squad League.no_transfer League.players League.games
           (League.model League.no_transfer) League.keep_ten
           league_model_generated league_keep_ten_feasible 1%Z Hd).
Defined.

(** ** The league, evaluated *)

Example league_days : days League.no_transfer = [1; 2]%Z.
Proof. reflexivity. Qed.

Example league_points_day_1 :
  player_points_for_day League.games (mkPlayer "P0" 10 1 1 30 int64) 1 = 30.
Proof. reflexivity. Qed.

Example league_points_day_2 :
  player_points_for_day League.games (mkPlayer "P0" 10 1 1 30 int64) 2 = 0.
Proof. reflexivity. Qed.

(** P0, P1, P2, P5 and P6 play on day 1 and P0 counts twice; none of them
    plays on day 2. *)
Example league_objective_value :
  value League.keep_ten
        (objective_function League.players League.games League.no_transfer)
  == 30 + 25 + 20 + 28 + 22 + 30.
Proof. vm_compute. reflexivity. Qed.

Example league_model_size :
  List.length (constraints (League.model League.no_transfer)) = 118%nat.
Proof. vm_compute. reflexivity. Qed.

(** Without a transfer the Rookie cannot join. *)
Example league_rookie_needs_a_transfer :
  feasibleb (League.model League.no_transfer) League.add_rookie = false
  /\ feasibleb (League.model League.one_transfer) League.add_rookie = true.
Proof. vm_compute. auto. Qed.

Example league_run_prints :
  exists total_points,
    total_points == 229
    /\ stdout (fst (main League.solver_keep_ten League.overrides League.players
                         League.games))
       = [ Warning_not_found "Nobody"; Total_points (Some total_points);
           Transfers_to_be_made; Initial_squad_header;
           Squad_line "P0"; Squad_line "P1"; Squad_line "P2"; Squad_line "P3";
           Squad_line "P4"; Squad_line "P5"; Squad_line "P6"; Squad_line "P7";
           Squad_line "P8"; Squad_line "P9" ].
Proof. eexists. split; [|vm_compute; reflexivity]. reflexivity. Qed.

(** In a week without a game the objective has no term, and the line of the
    objective value reads "None". *)
Example league_idle_week_prints :
  terms (objective_function League.players League.games League.idle_week) = []
  /\ stdout (fst (main League.solver_keep_ten League.idle_week League.players
                       League.games))
     = [ Total_points None; Transfers_to_be_made; Initial_squad_header;
         Squad_line "P0"; Squad_line "P1"; Squad_line "P2"; Squad_line "P3";
         Squad_line "P4"; Squad_line "P5"; Squad_line "P6"; Squad_line "P7";
         Squad_line "P8"; Squad_line "P9" ].
Proof. split; vm_compute; reflexivity. Qed.

(** * Further properties of the model and of the run *)

(** ** Sums over the members of a squad *)

Lemma total_weighted_members {A} (g h : A -> Q) (l : list A) :
  (forall x, In x l -> binary (h x)) ->
  total (map (fun x => g x * h x) l)
  == total (map g (filter (fun x => Qeq_bool (h x) 1) l)).
Proof.
  induction l as [|x r IH]; intro Hb.
  - reflexivity.
  - assert (IH' := IH (fun y Hy => Hb y (or_intror Hy))).
    change (total (map (fun x => g x * h x) (x :: r)))
      with (g x * h x + total (map (fun x => g x * h x) r)).
    cbn [filter].
    destruct (Hb x (or_introl Logic.eq_refl)) as [H0|H1].
    + destruct (Qeq_bool (h x) 1) eqn:Hq.
      * apply Qeq_bool_eq in Hq. rewrite H0 in Hq. discriminate.
      * rewrite IH', H0. ring.
    + rewrite (Qeq_eq_bool _ _ H1).
      change (total (map g (x :: filter (fun x => Qeq_bool (h x) 1) r)))
        with (g x + total (map g (filter (fun x => Qeq_bool (h x) 1) r))).
      rewrite IH', H1. ring.
Qed.

Lemma total_ge_each {A} (g : A -> Q) (m : Q) (l : list A) :
  (forall x, In x l -> m <= g x) ->
  inject_Z (Z.of_nat (List.length l)) * m <= total (map g l).
Proof.
  induction l as [|x r IH]; intro H.
  - change (0 * m <= 0). lra.
  - cbn [List.length map total fold_right]. fold (total (map g r)).
    rewrite Nat2Z.inj_succ, <- Z.add_1_r, inject_Z_plus.
    assert (m <= g x) by (apply H; left; reflexivity).
    assert (inject_Z (Z.of_nat (List.length r)) * m <= total (map g r))
      by (apply IH; intros; apply H; right; assumption).
    change (inject_Z 1) with 1. lra.
Qed.

Lemma value_cost_sum a (f : nat -> var) (df : DataFrame) :
  value a (lpSum (map (fun ip => E (mul (of_var (f (fst ip))) (now_cost (snd ip))))
                      (rows df)))
  == total (map (fun ip => now_cost (snd ip) * a (f (fst ip))) (rows df)).
Proof.
  rewrite value_lpSum, map_map. apply total_map_ext. intros ip _.
  cbn [operand_value]. rewrite value_mul, value_of_var. reflexivity.
Qed.

Lemma rows_index df ip : In ip (rows df) -> In (fst ip) (index df).
Proof. intro H. rewrite <- map_fst_rows. apply in_map, H. Qed.

Lemma unique_in seen l t :
  In t (unique seen l) <-> In t l /\ ~ In t seen.
Proof.
  revert seen; induction l as [|x r IH]; intro seen; cbn [unique].
  - simpl. tauto.
  - destruct (existsb (Z.eqb x) seen) eqn:Hx.
    + rewrite IH. apply existsb_exists in Hx. destruct Hx as (y & Hy & Hxy).
      apply Z.eqb_eq in Hxy. subst y. simpl. split.
      * tauto.
      * intros [[->|H] Hn]; [contradiction|tauto].
    + assert (Hnot : ~ In x seen).
      { intro Hin. assert (existsb (Z.eqb x) seen = true).
        { apply existsb_exists. exists x. split; [exact Hin|apply Z.eqb_refl]. }
        congruence. }
      simpl. rewrite IH. simpl. split.
      * intros [->|[H Hn]]; [tauto|]. split; [tauto|]. intro; apply Hn; tauto.
      * intros [[->|H] Hn]; [tauto|].
        destruct (Z.eq_dec x t) as [->|Hne]; [tauto|]. right. split; [exact H|].
        intros [Heq|Hs]; [contradiction|tauto].
Qed.

Lemma holds_le_count a (f : nat -> var) idx (n : nat) :
  (forall i, In i idx -> binary (a (f i))) ->
  holds a (lp_le (lpSum (map (fun i => V (f i)) idx)) (N (inject_Z (Z.of_nat n)))) ->
  (List.length (members a f idx) <= n)%nat.
Proof.
  intros Hb H. apply holds_le in H. cbn [operand_value] in H.
  rewrite value_lpSum_vars, total_binary_count in H by exact Hb.
  rewrite <- Zle_Qle in H. lia.
Qed.

Lemma holds_ge_count a (f : nat -> var) idx (n : nat) :
  (forall i, In i idx -> binary (a (f i))) ->
  holds a (lp_ge (lpSum (map (fun i => V (f i)) idx)) (N (inject_Z (Z.of_nat n)))) ->
  (n <= List.length (members a f idx))%nat.
Proof.
  intros Hb H. apply holds_ge in H. cbn [operand_value] in H.
  rewrite value_lpSum_vars, total_binary_count in H by exact Hb.
  rewrite <- Zle_Qle in H. lia.
Qed.

Lemma members_length_le a f idx :
  (List.length (members a f idx) <= List.length idx)%nat.
Proof. unfold members. apply filter_length_le. Qed.

Section Invariants.

Variables (c : Config) (players : DataFrame) (games : list Game).
Variables (p : LpProblem) (a : var -> Q).
Hypothesis Hgen : generated_model c players games = Some p.
Hypothesis Hfeas : feasible p a.

Local Abbreviation df := (model_table c players).

Lemma budget_holds q : In q (budget_constraints df c) -> holds a q.
Proof.
  intro Hq. apply (model_holds c players games p a Hgen Hfeas).
  unfold model_constraints. rewrite !in_app_iff. right; left. exact Hq.
Qed.

Lemma team_holds q : In q (team_constraints df c) -> holds a q.
Proof.
  intro Hq. apply (model_holds c players games p a Hgen Hfeas).
  unfold model_constraints. rewrite !in_app_iff. right; right; right; right. exact Hq.
Qed.

Lemma cost_within_budget (f : nat -> var) :
  (forall i, In i (index df) -> binary (a (f i))) ->
  holds a (lp_le (lpSum (map (fun ip => E (mul (of_var (f (fst ip)))
                                               (now_cost (snd ip)))) (rows df)))
                 (N (budget c))) ->
  cost_of a df f <= budget c.
Proof.
  intros Hb H. apply holds_le in H. cbn [operand_value] in H.
  rewrite value_cost_sum in H. unfold cost_of.
  rewrite <- (total_weighted_members (fun ip => now_cost (snd ip))
                (fun ip => a (f (fst ip)))); [exact H|].
  intros ip Hip. apply Hb, rows_index, Hip.
Qed.

Lemma initial_cost_within_budget : cost_of a df initial_squad <= budget c.
Proof.
  apply cost_within_budget.
  - apply (binary_initial c players games p a Hgen Hfeas).
  - rewrite <- (holds_named a _ "Inital Squad Budget").
    apply budget_holds. left. reflexivity.
Qed.

(** X1. The players of the initial squad, and those of each day's squad, cost
    no more than the budget together. *)
Theorem budget_respected :
  cost_of a df initial_squad <= budget c
  /\ forall d, In d (days c) -> cost_of a df (fun i => squad_day i d) <= budget c.
Proof.
  split; [exact initial_cost_within_budget|].
  - intros d Hd. apply cost_within_budget.
    + intros i Hi. apply (binary_squad c players games p a Hgen Hfeas i d Hi Hd).
    + rewrite <- (holds_named a _ ("Budget Day " ++ str_Z d)).
      apply budget_holds. right. unfold budget_constraints.
      apply (in_map (fun d => named _ _) _ _ Hd).
Qed.

(** X2. On every day of the window the squad holds at most 2 players of the
    team of any player of the table. *)
Theorem team_cap_respected :
  forall d x, In d (days c) -> In x df ->
    (List.length (squad_of a df d (fun y => Z.eqb (team y) (team x))) <= 2)%nat.
Proof.
  intros d x Hd Hx.
  apply (holds_le_count a (fun i => squad_day i d)
           (index_where df (fun y => Z.eqb (team y) (team x))) 2).
  - intros i Hi.
    apply (binary_squad c players games p a Hgen Hfeas i d); [|exact Hd].
    apply (index_where_index c players _ i Hi).
  - apply team_holds. unfold team_constraints. apply in_flat_map.
    exists (team x). split.
    + apply unique_in. split; [apply in_map, Hx|intros []].
    + apply (in_map (fun d => lp_le _ _) _ _ Hd).
Qed.

Lemma lineup_of_count d t :
  In d (days c) -> t = 1%Z \/ t = 2%Z ->
  (2 <= List.length (lineup_of a df d (of_type t)))%nat.
Proof.
  intros Hd Ht.
  apply (holds_ge_count a (fun i => chosen_day i d) (index_where df (of_type t)) 2).
  - intros i Hi.
    apply (binary_chosen c players games p a Hgen Hfeas i d); [|exact Hd].
    apply (index_where_index c players _ i Hi).
  - apply (daily_holds c players games p a Hgen Hfeas d); [exact Hd|].
    destruct Ht as [->| ->]; cbn; auto.
Qed.

Lemma lineup_by_type_sum d :
  List.length (lineup a df d)
  = (List.length (lineup_of a df d (of_type 1))
     + List.length (lineup_of a df d (of_type 2))
     + List.length (lineup_of a df d other_type))%nat.
Proof.
  unfold lineup, lineup_of. rewrite members_index, !members_index_where.
  apply count_by_type.
Qed.

(** X3. On every day of the window the line-up has 2 or 3 players of type 1,
    2 or 3 of type 2, and at most one of another type. *)
Theorem lineup_by_type :
  forall d, In d (days c) ->
    (2 <= List.length (lineup_of a df d (of_type 1)) <= 3)%nat
    /\ (2 <= List.length (lineup_of a df d (of_type 2)) <= 3)%nat
    /\ (List.length (lineup_of a df d other_type) <= 1)%nat.
Proof.
  intros d Hd.
  pose proof (lineup_of_count d 1 Hd (or_introl Logic.eq_refl)) as H1.
  pose proof (lineup_of_count d 2 Hd (or_intror Logic.eq_refl)) as H2.
  pose proof (lineup_count c players games p a Hgen Hfeas d Hd) as H5.
  rewrite lineup_by_type_sum in H5. lia.
Qed.

(** X7. A model that can be satisfied has a table of at least 10 players
    and, when the window is not empty, at least 5 players of type 1 and 5 of
    type 2. *)
Theorem feasible_needs_enough_players :
  (10 <= List.length df)%nat
  /\ (days c <> [] ->
      (5 <= List.length (index_where df (of_type 1)))%nat
      /\ (5 <= List.length (index_where df (of_type 2)))%nat).
Proof.
  split.
  - pose proof (initial_count c players games p a Hgen Hfeas) as H.
    pose proof (members_length_le a initial_squad (index df)) as Hle.
    unfold initial in H. unfold index in Hle at 2. rewrite length_seq in Hle. lia.
  - intro Hne. destruct (days c) as [|d ds] eqn:Hdays; [contradiction|].
    assert (Hd : In d (days c)) by (rewrite Hdays; left; reflexivity).
    pose proof (squad_type_count c players games p a Hgen Hfeas d 1 Hd
                  (or_introl Logic.eq_refl)) as H1.
    pose proof (squad_type_count c players games p a Hgen Hfeas d 2 Hd
                  (or_intror Logic.eq_refl)) as H2.
    pose proof (members_length_le a (fun i => squad_day i d)
                  (index_where df (of_type 1))) as L1.
    pose proof (members_length_le a (fun i => squad_day i d)
                  (index_where df (of_type 2))) as L2.
    unfold squad_of in H1, H2. lia.
Qed.

(** X8. A model that can be satisfied has a budget of at least 10 times the
    cost of the cheapest player. *)
Theorem budget_covers_ten_cheapest (m : Q) :
  (forall x, In x (model_table c players) -> m <= now_cost x) ->
  INITIAL_PLAYERS_COUNT * m <= budget c.
Proof.
  intro Hm. unfold INITIAL_PLAYERS_COUNT.
  pose proof initial_cost_within_budget as Hinit. unfold cost_of in Hinit.
  pose proof (initial_count c players games p a Hgen Hfeas) as Hten.
  unfold initial in Hten. rewrite members_index in Hten.
  pose proof (total_ge_each (fun ip : nat * Player => now_cost (snd ip)) m
                (filter (fun ip => Qeq_bool (a (initial_squad (fst ip))) 1) (rows df)))
    as Hge.
  rewrite Hten in Hge. change (inject_Z (Z.of_nat 10)) with 10 in Hge.
  assert (H : 10 * m
              <= total (map (fun ip : nat * Player => now_cost (snd ip))
                   (filter (fun ip => Qeq_bool (a (initial_squad (fst ip))) 1)
                           (rows df)))).
  { apply Hge. intros ip Hip. apply filter_In in Hip. destruct Hip as [Hip _].
    apply Hm. destruct ip as [i x]. apply in_rows in Hip.
    apply (nth_error_In _ _ Hip). }
  lra.
Qed.

End Invariants.

(** ** The must-include players *)

(** The loop over the must-include names leaves the lower bound 1 on the
    variable of the first player of each name, and keeps the bounds that are
    1 already. *)
Lemma must_include_loop_fixes df names s :
  let r := for_each names (fun player_name =>
             match index_where df (fun p => String.eqb (name p) player_name) with
             | [] => raise IndexError
             | player_index :: _ => set_bounds (initial_squad player_index) 1 1
             end) s in
  snd r = None ->
  (forall v, lowBound (prob s) v = 1 -> lowBound (prob (fst r)) v = 1)
  /\ forall n i rest, In n names ->
       index_where df (fun p => String.eqb (name p) n) = i :: rest ->
       lowBound (prob (fst r)) (initial_squad i) = 1.
Proof.
  revert s. induction names as [|m l IH]; intro s; cbn zeta.
  - intros _. split; [auto|]. intros n i rest [].
  - cbn [for_each].
    destruct (index_where df (fun p => String.eqb (name p) m)) as [|j js] eqn:Hm.
    + cbn. discriminate.
    + rewrite bind_ok by reflexivity. intro Hnone.
      specialize (IH _ Hnone). cbn zeta in IH. destruct IH as [Hkeep Hfix].
      assert (Hstep : forall v, lowBound (prob s) v = 1 ->
                lowBound (prob (fst (set_bounds (initial_squad j) 1 1 s))) v = 1).
      { intros v Hv. cbn. destruct (var_eqb v (initial_squad j)); [reflexivity|exact Hv]. }
      split.
      * intros v Hv. apply Hkeep, Hstep, Hv.
      * intros n i rest [->|Hn] Hi.
        -- rewrite Hm in Hi. inversion Hi; subst. apply Hkeep.
           cbn. rewrite Nat.eqb_refl. reflexivity.
        -- apply (Hfix n i rest Hn Hi).
Qed.

Lemma build_model_bounds self s n i rest :
  snd (build_model self s) = None ->
  In n (must_include (config self)) ->
  index_where (model_table (config self) (heap s (players_df self)))
              (fun x => String.eqb (name x) n) = i :: rest ->
  lowBound (prob (fst (build_model self s))) (initial_squad i) = 1.
Proof.
  intros Hnone Hn Hi.
  remember (build_model self s) as r eqn:Hr.
  unfold model_table in Hi. unfold build_model in Hr.
  set (adj := match player_points_adjustments (config self) with
              | Some adjustments => adjust_player_points self adjustments
              | None => ret
              end) in Hr.
  assert (Hadj : snd (adj s) = None
    /\ heap (fst (adj s)) (players_df self)
       = match player_points_adjustments (config self) with
         | Some adjustments => adjusted (heap s (players_df self)) adjustments
         | None => heap s (players_df self)
         end).
  { assert (Hok : snd (adj s) = None).
    { destruct (snd (adj s)) as [e|] eqn:He; [|reflexivity].
      rewrite (bind_raise _ _ _ _ He) in Hr. subst r. discriminate Hnone. }
    split; [exact Hok|]. subst adj.
    destruct (player_points_adjustments (config self)) as [l|]; [|reflexivity].
    destruct (adjust_player_points_spec self l s)
      as (_ & _ & _ & _ & _ & _ & Hfit & Hno).
    cbn zeta in Hfit, Hno.
    destruct (overrides_fit (heap s (players_df self)) l).
    - apply Hfit. reflexivity.
    - rewrite (Hno Logic.eq_refl) in Hok. discriminate Hok. }
  destruct Hadj as (A1 & A2).
  rewrite bind_ok in Hr by exact A1.
  set (s1 := fst (adj s)) in *. clearbody s1. clear adj A1.
  rewrite <- A2 in Hi. clear A2.
  rewrite bind_ok in Hr by reflexivity.
  unfold add_constraints in Hr. rewrite bind_assoc in Hr.
  unfold bind at 1 in Hr. unfold add_initial_player_constraints in Hr.
  cbv beta zeta in Hr.
  rewrite (bind_ok (add_constraints_list _)) in Hr by reflexivity.
  cbn [initialize_variables add_constraints_list set_prob modify fst heap prob
       status varValue stdout solves constraints declared objective lowBound upBound]
    in Hr.
  match type of Hr with context [for_each (must_include (config self)) ?b ?s2] =>
    pose proof (must_include_loop_fixes (heap s1 (players_df self))
                  (must_include (config self)) s2) as L;
    cbn zeta in L; destruct (for_each (must_include (config self)) b s2) as [s3 e]
  end.
  cbn [fst snd] in L.
  destruct e as [e|]; [subst r; discriminate|].
  destruct (L Logic.eq_refl) as [_ Hfix].
  subst r.
  cbn [bind add_budget_constraints add_transfer_constraints add_daily_constraints
       add_team_constraints set_objective_function add_constraints_list set_prob
       modify fst snd heap prob status varValue stdout solves constraints declared
       objective lowBound upBound].
  apply (Hfix n i rest Hn Hi).
Qed.

Lemma must_include_first_index c players games p a :
  generated_model c players games = Some p -> feasible p a ->
  forall n, In n (must_include c) ->
    exists i rest,
      index_where (model_table c players) (fun x => String.eqb (name x) n) = i :: rest
      /\ In i (initial a (model_table c players)).
Proof.
  intros Hgen Hfeas n Hn.
  destruct (generated_model_inv _ _ _ _ Hgen) as (_ & Hdecl & _ & Hbb).
  destruct (generated_model_fits _ _ _ _ Hgen) as [_ Hall].
  unfold generated_model in Hgen.
  pose proof (build_model_bounds (mkOptimizer players_loc games c)
                (fresh (fun _ => players)) n) as Hb.
  cbn [config players_df fresh heap] in Hb.
  destruct (build_model (mkOptimizer players_loc games c) (fresh (fun _ => players)))
    as [s e].
  destruct e as [e|]; [discriminate|]. inversion Hgen; subst p. cbn [fst snd] in *.
  rewrite forallb_forall in Hall. specialize (Hall n Hn).
  destruct (index_where (model_table c players) (fun x => String.eqb (name x) n))
    as [|i rest] eqn:Hi.
  - apply index_where_nil in Hi. unfold name_in in Hall. congruence.
  - exists i, rest. split; [reflexivity|].
    specialize (Hb i rest Logic.eq_refl Hn Logic.eq_refl).
    assert (Hidx : In i (index (model_table c players))).
    { assert (H : In i (index_where (model_table c players)
                          (fun x => String.eqb (name x) n)))
        by (rewrite Hi; left; reflexivity).
      apply in_index_where in H. destruct H as (x & Hx & _).
      apply in_index. eauto. }
    apply filter_In. split; [exact Hidx|].
    destruct Hfeas as [Hv _]. rewrite Forall_forall in Hv.
    assert (Hin : In (initial_squad i) (declared (prob s))).
    { rewrite Hdecl. unfold model_variables. apply in_app_iff. left.
      apply in_map, Hidx. }
    destruct (Hv _ Hin) as (_ & Hlo & Hup).
    rewrite Hb in Hlo. destruct (Hbb (initial_squad i)) as [_ Hu].
    rewrite Hu in Hup. apply Qeq_bool_iff. lra.
Qed.

(** X4. In every assignment that satisfies the generated model, the first
    player of the table that bears a must-include name is in the initial
    squad. *)
Theorem must_include_in_initial_squad c players games p a :
  generated_model c players games = Some p -> feasible p a ->
  forall n, In n (must_include c) ->
    exists i rest,
      index_where (model_table c players) (fun x => String.eqb (name x) n) = i :: rest
      /\ In i (initial a (model_table c players)).
Proof. exact (must_include_first_index c players games p a). Qed.

(** ** Counting the transfers *)

Lemma total_binary_count_over {A} (h : A -> Q) (l : list A) :
  (forall x, In x l -> binary (h x)) ->
  total (map h l)
  == inject_Z (Z.of_nat (List.length (filter (fun x => Qeq_bool (h x) 1) l))).
Proof.
  intro Hb.
  transitivity (total (map (fun x => 1 * h x) l)).
  { apply total_map_ext. intros x _. ring. }
  rewrite (total_weighted_members (fun _ => 1) h l Hb).
  induction (filter (fun x => Qeq_bool (h x) 1) l) as [|x r IH].
  - reflexivity.
  - cbn [map total fold_right List.length]. fold (total (map (fun _ : A => 1) r)).
    rewrite IH, Nat2Z.inj_succ, <- Z.add_1_r, inject_Z_plus.
    change (inject_Z 1) with 1. ring.
Qed.

Lemma length_filter_impl {A} (P R : A -> bool) (l : list A) :
  (forall x, In x l -> P x = true -> R x = true) ->
  (List.length (filter P l) <= List.length (filter R l))%nat.
Proof.
  induction l as [|x r IH]; intro H; cbn [filter]; [apply Nat.le_refl|].
  assert (IH' : (List.length (filter P r) <= List.length (filter R r))%nat)
    by (apply IH; intros y Hy; apply H; right; exact Hy).
  destruct (P x) eqn:HP.
  - rewrite (H x (or_introl Logic.eq_refl) HP). cbn [List.length]. lia.
  - destruct (R x); cbn [List.length]; lia.
Qed.

Lemma keys_pairs df c (f : nat -> Z -> var) :
  keys df (days c) f = map (fun k => f (fst k) (snd k)) (pairs df c).
Proof.
  unfold keys, pairs. induction (index df) as [|i r IH]; cbn [flat_map map].
  - reflexivity.
  - rewrite map_app, map_map, IH. reflexivity.
Qed.

Lemma in_pairs df c k :
  In k (pairs df c) <-> In (fst k) (index df) /\ In (snd k) (days c).
Proof.
  unfold pairs. rewrite in_flat_map. split.
  - intros (i & Hi & Hk). apply in_map_iff in Hk. destruct Hk as (d & <- & Hd).
    auto.
  - intros [Hi Hd]. exists (fst k). split; [exact Hi|].
    apply in_map_iff. exists (snd k). split; [destruct k; reflexivity|exact Hd].
Qed.

Section Transfers.

Variables (c : Config) (players : DataFrame) (games : list Game).
Variables (p : LpProblem) (a : var -> Q).
Hypothesis Hgen : generated_model c players games = Some p.
Hypothesis Hfeas : feasible p a.

Local Abbreviation df := (model_table c players).

Lemma flagged_within_limit (f : nat -> Z -> var) :
  f = t_in \/ f = t_out ->
  inject_Z (Z.of_nat (List.length
     (filter (fun k => Qeq_bool (a (f (fst k) (snd k))) 1) (pairs df c))))
  <= transfers c.
Proof.
  intro Hf.
  assert (Hlimit : holds a (lp_le (lpSum (map V (keys df (days c) f)))
                                  (N (transfers c)))).
  { apply (transfer_holds c players games p a Hgen Hfeas).
    destruct Hf as [->| ->]; unfold transfer_constraints; cbn; auto. }
  apply holds_le in Hlimit. cbn [operand_value] in Hlimit.
  rewrite value_lpSum, map_map, keys_pairs, map_map in Hlimit.
  rewrite <- (total_binary_count_over (fun k => a (f (fst k) (snd k)))).
  - exact Hlimit.
  - intros k Hk. apply in_pairs in Hk. destruct Hk as [Hi Hd].
    destruct Hf as [->| ->].
    + apply (binary_t_in c players games p a Hgen Hfeas _ _ Hi Hd).
    + apply (binary_t_out c players games p a Hgen Hfeas _ _ Hi Hd).
Qed.

Lemma previous_binary i d :
  In i (index df) -> In d (days c) -> binary (a (previous c i d)).
Proof.
  intros Hi Hd. unfold previous.
  destruct (Z.eqb_spec d (start_gameday c)) as [Heq|Hne].
  - apply (binary_initial c players games p a Hgen Hfeas i Hi).
  - apply (binary_squad c players games p a Hgen Hfeas i _ Hi).
    apply (in_days c) in Hd. destruct Hd as (k & Hk & ->).
    apply (in_days c). destruct k as [|k]; [exfalso; apply Hne; lia|].
    exists k. split; [lia|lia].
Qed.

(** X5. In every assignment that satisfies the generated model, the number
    of times a player joins the squad over the window (being in the squad of
    a day and not in the one before, the initial squad for the first day) is
    at most the transfer limit, and so is the number of times a player
    leaves it. *)
Theorem squad_changes_within_limit :
  inject_Z (Z.of_nat (List.length (filter (joins a c) (pairs df c)))) <= transfers c
  /\ inject_Z (Z.of_nat (List.length (filter (leaves a c) (pairs df c))))
     <= transfers c.
Proof.
  split.
  - eapply Qle_trans; [|apply (flagged_within_limit t_in); auto].
    rewrite <- Zle_Qle. apply Nat2Z.inj_le. apply length_filter_impl.
    intros [i d] Hk Hj. apply in_pairs in Hk. destruct Hk as [Hi Hd].
    cbn [fst snd] in *. unfold joins in Hj. cbn [fst snd] in Hj.
    apply andb_true_iff in Hj. destruct Hj as [H1 H0].
    apply Qeq_bool_eq in H1, H0.
    destruct (consistency_holds c players games p a Hgen Hfeas i d Hi Hd) as [Hin _].
    apply Qeq_bool_iff.
    destruct (binary_t_in c players games p a Hgen Hfeas i d Hi Hd) as [E|E];
      [|exact E]. rewrite H1, H0, E in Hin. lra.
  - eapply Qle_trans; [|apply (flagged_within_limit t_out); auto].
    rewrite <- Zle_Qle. apply Nat2Z.inj_le. apply length_filter_impl.
    intros [i d] Hk Hj. apply in_pairs in Hk. destruct Hk as [Hi Hd].
    cbn [fst snd] in *. unfold leaves in Hj. cbn [fst snd] in Hj.
    apply andb_true_iff in Hj. destruct Hj as [H0 H1].
    apply Qeq_bool_eq in H1, H0.
    destruct (consistency_holds c players games p a Hgen Hfeas i d Hi Hd) as [_ Hout].
    apply Qeq_bool_iff.
    destruct (binary_t_out c players games p a Hgen Hfeas i d Hi Hd) as [E|E];
      [|exact E]. rewrite H1, H0, E in Hout. lra.
Qed.

End Transfers.

(** ** What the objective leaves out *)

Lemma coeff_objective_zero df games c v :
  (forall i d, In i (index df) -> In d (days c) ->
     var_eqb (chosen_day i d) v = false /\ var_eqb (doubled_score i d) v = false) ->
  coeff (terms (objective_function df games c)) v == 0.
Proof.
  intro Hv. unfold objective_function.
  rewrite coeff_lpSum, total_flat_map. apply total_zero. intros ip Hip.
  rewrite map_map. apply total_zero. intros d Hd. cbn [operand_weight].
  rewrite weight_objective_term.
  destruct (Hv (fst ip) d (rows_index df ip Hip) Hd) as [-> ->]. ring.
Qed.

(** X10. The objective [set_objective_function] stores gives the coefficient
    0 to every initial-squad, squad, transfer-in and transfer-out variable,
    and to the line-up and captain variables of players outside the table or
    of days outside the window: only who plays and who is captain counts. *)
Theorem objective_rewards_lineup_and_captain_only (self : Optimizer) (s : State) :
  exists obj,
    objective (prob (fst (set_objective_function self s))) = Some obj
    /\ (forall i, coeff (terms obj) (initial_squad i) == 0)
    /\ (forall i d,
          coeff (terms obj) (squad_day i d) == 0
          /\ coeff (terms obj) (t_in i d) == 0
          /\ coeff (terms obj) (t_out i d) == 0)
    /\ (forall i d,
          ~ In i (index (heap s (players_df self))) \/ ~ In d (days (config self)) ->
          coeff (terms obj) (chosen_day i d) == 0
          /\ coeff (terms obj) (doubled_score i d) == 0).
Proof.
  eexists. split; [reflexivity|]. splits.
  - intro i. apply coeff_objective_zero. intros; split; reflexivity.
  - intros i d. splits; apply coeff_objective_zero; intros; split; reflexivity.
  - intros i d Hout.
    assert (Hne : forall j e, In j (index (heap s (players_df self))) ->
              In e (days (config self)) -> (j =? i)%nat && (e =? d)%Z = false).
    { intros j e Hj He. destruct (Nat.eqb_spec j i) as [->|]; [|reflexivity].
      destruct (Z.eqb_spec e d) as [->|]; [|reflexivity]. tauto. }
    split; apply coeff_objective_zero; intros j e Hj He; cbn [var_eqb];
      rewrite ?(Hne j e Hj He); split; reflexivity.
Qed.

(** ** The window *)

Lemma unique_NoDup seen l : NoDup (unique seen l).
Proof.
  revert seen; induction l as [|x r IH]; intro seen; cbn [unique].
  - constructor.
  - destruct (existsb (Z.eqb x) seen); [apply IH|].
    constructor; [|apply IH]. rewrite unique_in. intros [_ H]. apply H. left. reflexivity.
Qed.

(** X16. The window holds the gamedays from [start_gameday] to [end_gameday],
    both included and each once; it is empty when the end precedes the
    start. *)
Theorem window_is_inclusive (c : Config) :
  (forall d, In d (days c) <-> (start_gameday c <= d <= end_gameday c)%Z)
  /\ NoDup (days c)
  /\ List.length (days c) = Z.to_nat (end_gameday c + 1 - start_gameday c)
  /\ ((end_gameday c < start_gameday c)%Z -> days c = []).
Proof.
  splits.
  - intro d. rewrite (in_days c). split.
    + intros (k & Hk & ->). lia.
    + intros [H1 H2]. exists (Z.to_nat (d - start_gameday c)). split; lia.
  - apply NoDup_days.
  - unfold days. rewrite length_map, length_seq. reflexivity.
  - intro H. unfold days.
    replace (Z.to_nat (end_gameday c + 1 - start_gameday c)) with 0%nat by lia.
    reflexivity.
Qed.

(** ** Overrides, applied again *)

Lemma player_eq (x y : Player) :
  name x = name y -> now_cost x = now_cost y -> element_type x = element_type y ->
  team x = team y -> points_per_game x = points_per_game y ->
  points_cell x = points_cell y -> x = y.
Proof. destruct x, y; cbn; intros; subst; reflexivity. Qed.

(** X14. With distinct names in the override mapping, applying the
    overrides to a table they were applied to already changes nothing. *)
Theorem overrides_are_idempotent (df : DataFrame) (adjustments : list (string * Q)) :
  NoDup (map fst adjustments) ->
  adjusted (adjusted df adjustments) adjustments = adjusted df adjustments.
Proof.
  intro Hnd. apply nth_error_ext. intro i.
  destruct (nth_error df i) as [x|] eqn:Hx.
  - destruct (adjusted_row adjustments Hnd df i x Hx)
      as (x' & R1 & N1 & C1 & T1 & M1 & Hin1 & Hout1).
    destruct (adjusted_row adjustments Hnd _ i x' R1)
      as (x'' & R2 & N2 & C2 & T2 & M2 & Hin2 & Hout2).
    rewrite R1, R2. f_equal.
    destruct (existsb (fun e => String.eqb (fst e) (name x)) adjustments) eqn:He.
    + apply existsb_exists in He. destruct He as ([n v] & He & Hn).
      cbn [fst] in Hn. apply String.eqb_eq in Hn. subst n.
      rewrite <- N1 in He at 1.
      destruct (Hin2 v He) as [P2 D2]. rewrite N1 in He.
      destruct (Hin1 v He) as [P1 D1].
      rewrite points_dtype_adjusted in D2.
      apply player_eq; try assumption; congruence.
    + apply Hout2. intros v Hv. rewrite N1 in Hv.
      assert (existsb (fun e => String.eqb (fst e) (name x)) adjustments = true).
      { apply existsb_exists. exists (name x, v). split; [exact Hv|].
        apply String.eqb_refl. }
      congruence.
  - assert (H1 : nth_error (adjusted df adjustments) i = None).
    { apply nth_error_None. rewrite adjusted_length. apply nth_error_None, Hx. }
    rewrite H1. apply nth_error_None. rewrite adjusted_length.
    apply nth_error_None, H1.
Qed.

(** ** The variables of the model *)

Lemma in_keys_iff df ds (f : nat -> Z -> var) v :
  In v (keys df ds f) <-> exists i d, In i (index df) /\ In d ds /\ v = f i d.
Proof.
  unfold keys. rewrite in_flat_map. split.
  - intros (i & Hi & Hv). apply in_map_iff in Hv. destruct Hv as (d & <- & Hd).
    exists i, d. auto.
  - intros (i & d & Hi & Hd & ->). exists i. split; [exact Hi|]. apply in_map, Hd.
Qed.

Lemma model_variables_domain df c v :
  In v (model_variables df c) <-> in_domain df c v.
Proof.
  unfold model_variables. rewrite !in_app_iff, in_map_iff, !in_keys_iff. split.
  - intros [(i & <- & Hi)|[H|[H|[H|[H|H]]]]]; [exact Hi| | | | |];
      destruct H as (i & d & Hi & Hd & ->); cbn; auto.
  - destruct v as [i|i d|i d|i d|i d|i d|]; cbn; intro H.
    + left. exists i. auto.
    + right; left. exists i, d. tauto.
    + right; right; left. exists i, d. tauto.
    + right; right; right; left. exists i, d. tauto.
    + right; right; right; right; left. exists i, d. tauto.
    + right; right; right; right; right. exists i, d. tauto.
    + destruct H.
Qed.

Lemma keys_addterm ts k x v :
  In v (map fst (addterm ts k x)) -> v = k \/ In v (map fst ts).
Proof.
  induction ts as [|[k' y] r IH]; cbn [addterm map fst In].
  - intros [<-|[]]. left; reflexivity.
  - destruct (var_eqb k' k); cbn [map fst In].
    + tauto.
    + intros [H|H]; [tauto|]. destruct (IH H); tauto.
Qed.

Lemma keys_fold_addterm sign other ts v :
  In v (map fst (fold_left (fun ts vx => addterm ts (fst vx) (snd vx * sign)) other ts)) ->
  In v (map fst ts) \/ In v (map fst other).
Proof.
  revert ts; induction other as [|[k y] r IH]; intro ts; cbn [fold_left map fst In].
  - tauto.
  - intro H. destruct (IH _ H) as [H1|H1]; [|tauto].
    apply keys_addterm in H1. cbn [fst] in H1. destruct H1 as [->|H1]; tauto.
Qed.

Lemma keys_addInPlace e o sign v :
  In v (map fst (terms (addInPlace e o sign))) ->
  In v (map fst (terms e)) \/ In v (operand_vars o).
Proof.
  destruct o as [w|o|n]; cbn [addInPlace terms operand_vars In].
  - intro H. apply keys_addterm in H. destruct H as [->|H]; tauto.
  - apply keys_fold_addterm.
  - tauto.
Qed.

Lemma keys_lpSum l v :
  In v (map fst (terms (lpSum l))) -> exists o, In o l /\ In v (operand_vars o).
Proof.
  unfold lpSum.
  assert (H : forall e,
    In v (map fst (terms (fold_left (fun e other => addInPlace e other 1) l e))) ->
    In v (map fst (terms e)) \/ exists o, In o l /\ In v (operand_vars o)).
  { induction l as [|o r IH]; intro e; cbn [fold_left].
    - tauto.
    - intro Hv. destruct (IH _ Hv) as [H1|(o' & Ho' & Hv')].
      + apply keys_addInPlace in H1. destruct H1 as [H1|H1]; [tauto|].
        right. exists o. split; [left; reflexivity|exact H1].
      + right. exists o'. split; [right; exact Ho'|exact Hv']. }
  intro Hv. destruct (H _ Hv) as [[]|Hex]. exact Hex.
Qed.

Lemma keys_mul e c v : In v (map fst (terms (mul e c))) -> In v (map fst (terms e)).
Proof.
  unfold mul. destruct (Qeq_bool c 0); cbn [terms empty_expr map In]; [tauto|].
  rewrite map_map. cbn [fst]. tauto.
Qed.

(** The variables of a comparison are those of its two sides. *)
Lemma mentioned_compare q lhs rhs v :
  q = lp_le lhs rhs \/ q = lp_eq lhs rhs \/ q = lp_ge lhs rhs ->
  In v (mentioned q) -> In v (map fst (terms lhs)) \/ In v (operand_vars rhs).
Proof.
  intros [->|[->| ->]]; unfold mentioned; cbn [expr lp_le lp_eq lp_ge];
    apply keys_addInPlace.
Qed.

Lemma mentioned_sum_vars q (vs : list var) rhs v :
  q = lp_le (lpSum (map V vs)) (N rhs) \/ q = lp_eq (lpSum (map V vs)) (N rhs)
  \/ q = lp_ge (lpSum (map V vs)) (N rhs) ->
  In v (mentioned q) -> In v vs.
Proof.
  intros Hq Hv. destruct (mentioned_compare q _ _ v Hq Hv) as [H|[]].
  apply keys_lpSum in H. destruct H as (o & Ho & Hvo).
  apply in_map_iff in Ho. destruct Ho as (w & <- & Hw).
  destruct Hvo as [<-|[]]. exact Hw.
Qed.

Lemma keys_lpSum_all (P : var -> Prop) l :
  (forall o, In o l -> forall v, In v (operand_vars o) -> P v) ->
  forall v, In v (map fst (terms (lpSum l))) -> P v.
Proof.
  intros H v Hv. apply keys_lpSum in Hv. destruct Hv as (o & Ho & Hvo).
  apply (H o Ho v Hvo).
Qed.

Lemma mentioned_all (P : var -> Prop) q lhs rhs :
  q = lp_le lhs rhs \/ q = lp_eq lhs rhs \/ q = lp_ge lhs rhs ->
  (forall v, In v (map fst (terms lhs)) -> P v) ->
  (forall v, In v (operand_vars rhs) -> P v) ->
  forall v, In v (mentioned q) -> P v.
Proof.
  intros Hq Hl Hr v Hv. destruct (mentioned_compare q lhs rhs v Hq Hv); auto.
Qed.

Lemma mentioned_named q n : mentioned (named q n) = mentioned q.
Proof. reflexivity. Qed.

Lemma previous_in_domain df c i d :
  In i (index df) -> In d (days c) -> in_domain df c (previous c i d).
Proof.
  intros Hi Hd. unfold previous.
  destruct (Z.eqb_spec d (start_gameday c)) as [Heq|Hne]; cbn; [exact Hi|].
  split; [exact Hi|].
  apply (in_days c) in Hd. destruct Hd as (k & Hk & ->).
  apply (in_days c). destruct k as [|k]; [exfalso; apply Hne; lia|].
  exists k. split; lia.
Qed.

Lemma sum_vars_in_domain df c (f : nat -> var) idx :
  (forall i, In i idx -> in_domain df c (f i)) ->
  forall v, In v (map fst (terms (lpSum (map (fun i => V (f i)) idx)))) ->
            in_domain df c v.
Proof.
  intro H. apply keys_lpSum_all. intros o Ho v Hv.
  apply in_map_iff in Ho. destruct Ho as (i & <- & Hi).
  destruct Hv as [<-|[]]. apply H, Hi.
Qed.

Lemma cost_sum_in_domain df c (f : nat -> var) :
  (forall i, In i (index df) -> in_domain df c (f i)) ->
  forall v,
    In v (map fst (terms (lpSum (map (fun ip => E (mul (of_var (f (fst ip)))
                                                       (now_cost (snd ip))))
                                     (rows df))))) ->
    in_domain df c v.
Proof.
  intro H. apply keys_lpSum_all. intros o Ho v Hv.
  apply in_map_iff in Ho. destruct Ho as (ip & <- & Hip).
  cbn [operand_vars] in Hv. apply keys_mul in Hv.
  destruct Hv as [<-|[]]. apply H, rows_index, Hip.
Qed.

Lemma no_vars_in_number (P : var -> Prop) n : forall v, In v (operand_vars (N n)) -> P v.
Proof. intros v []. Qed.

Lemma index_where_in_index df q i : In i (index_where df q) -> In i (index df).
Proof.
  intro H. apply in_index_where in H. destruct H as (x & Hx & _).
  apply in_index. eauto.
Qed.

(** Every constraint of the model is about variables of the table and the
    window. *)
Lemma model_constraints_in_domain df c q v :
  In q (model_constraints df c) -> In v (mentioned q) -> in_domain df c v.
Proof.
  unfold model_constraints. rewrite !in_app_iff.
  intros [Hq|[Hq|[Hq|[Hq|Hq]]]]; revert v.
  - destruct Hq as [<-|[]]. unfold initial_squad_size.
    eapply mentioned_all; [right; left; reflexivity| |apply no_vars_in_number].
    rewrite map_map. apply sum_vars_in_domain. intros i Hi. exact Hi.
  - unfold budget_constraints in Hq. destruct Hq as [<-|Hq].
    + rewrite mentioned_named.
      eapply mentioned_all; [left; reflexivity| |apply no_vars_in_number].
      apply cost_sum_in_domain. intros i Hi. exact Hi.
    + apply in_map_iff in Hq. destruct Hq as (d & <- & Hd).
      rewrite mentioned_named.
      eapply mentioned_all; [left; reflexivity| |apply no_vars_in_number].
      apply (cost_sum_in_domain df c (fun i => squad_day i d)).
      intros i Hi. split; assumption.
  - unfold transfer_constraints in Hq. destruct Hq as [<-|[<-|Hq]].
    + eapply mentioned_all; [left; reflexivity| |apply no_vars_in_number].
      apply keys_lpSum_all. intros o Ho v Hv.
      apply in_map_iff in Ho. destruct Ho as (w & <- & Hw).
      destruct Hv as [<-|[]]. apply in_keys_iff in Hw.
      destruct Hw as (i & d & Hi & Hd & ->). split; assumption.
    + eapply mentioned_all; [left; reflexivity| |apply no_vars_in_number].
      apply keys_lpSum_all. intros o Ho v Hv.
      apply in_map_iff in Ho. destruct Ho as (w & <- & Hw).
      destruct Hv as [<-|[]]. apply in_keys_iff in Hw.
      destruct Hw as (i & d & Hi & Hd & ->). split; assumption.
    + apply in_flat_map in Hq. destruct Hq as (i & Hi & Hq).
      apply in_flat_map in Hq. destruct Hq as (d & Hd & Hq).
      pose proof (previous_in_domain df c i d Hi Hd) as Hprev.
      unfold transfer_consistency in Hq. unfold previous in Hprev.
      assert (Hside : forall t x y,
                in_domain df c t -> in_domain df c x -> in_domain df c y ->
                forall n v,
                  In v (mentioned (named (lp_ge (of_var t)
                                            (E (sub (of_var x) (V y)))) n)) ->
                  in_domain df c v).
      { intros t x y Ht Hx Hy n. rewrite mentioned_named.
        eapply mentioned_all; [right; right; reflexivity| |].
        - intros v [<-|[]]. exact Ht.
        - intros v Hv. cbn [operand_vars] in Hv. unfold sub in Hv.
          apply keys_addInPlace in Hv.
          destruct Hv as [[<-|[]]|[<-|[]]]; assumption. }
      assert (Hsq : in_domain df c (squad_day i d)) by (split; assumption).
      destruct (Z.eqb d (start_gameday c));
        destruct Hq as [<-|[<-|[]]]; apply Hside; try assumption;
        split; assumption.
  - apply in_flat_map in Hq. destruct Hq as (d & Hd & Hq).
    unfold daily_constraints in Hq. apply in_app_iff in Hq.
    destruct Hq as [Hq|Hq].
    + assert (Hsum : forall (f : nat -> var) idx rhs q',
                (forall i, In i idx -> in_domain df c (f i)) ->
                q' = lp_le (lpSum (map (fun i => V (f i)) idx)) (N rhs)
                \/ q' = lp_eq (lpSum (map (fun i => V (f i)) idx)) (N rhs)
                \/ q' = lp_ge (lpSum (map (fun i => V (f i)) idx)) (N rhs) ->
                forall v, In v (mentioned q') -> in_domain df c v).
      { intros f idx rhs q' Hf Hq'.
        eapply mentioned_all; [exact Hq'| |apply no_vars_in_number].
        apply sum_vars_in_domain, Hf. }
      destruct Hq as [<-|[<-|[<-|[<-|[<-|[<-|[]]]]]]].
      * apply (Hsum (fun i => chosen_day i d) (index_where df (of_type 1))
                 MIN_PLAYER_TYPE_COUNT); [|auto].
        intros i Hi; split; [eapply index_where_in_index; eassumption|assumption].
      * apply (Hsum (fun i => chosen_day i d) (index_where df (of_type 2))
                 MIN_PLAYER_TYPE_COUNT); [|auto].
        intros i Hi; split; [eapply index_where_in_index; eassumption|assumption].
      * apply (Hsum (fun i => chosen_day i d) (index df) TOTAL_PLAYERS_PER_DAY);
          [|auto].
        intros i Hi; split; assumption.
      * apply (Hsum (fun i => doubled_score i d) (index df) 1); [|auto].
        intros i Hi; split; assumption.
      * apply (Hsum (fun i => squad_day i d) (index_where df (of_type 1))
                 PLAYER_TYPE_COUNT); [|auto].
        intros i Hi; split; [eapply index_where_in_index; eassumption|assumption].
      * apply (Hsum (fun i => squad_day i d) (index_where df (of_type 2))
                 PLAYER_TYPE_COUNT); [|auto].
        intros i Hi; split; [eapply index_where_in_index; eassumption|assumption].
    + apply in_flat_map in Hq. destruct Hq as (i & Hi & Hq).
      destruct Hq as [<-|[<-|[]]];
        (eapply mentioned_all; [left; reflexivity| |]);
        intros v [<-|[]]; split; assumption.
  - unfold team_constraints in Hq. apply in_flat_map in Hq.
    destruct Hq as (t & _ & Hq). apply in_map_iff in Hq.
    destruct Hq as (d & <- & Hd).
    eapply mentioned_all; [left; reflexivity| |apply no_vars_in_number].
    apply sum_vars_in_domain. intros i Hi. split; [|exact Hd].
    eapply index_where_in_index; eassumption.
Qed.

Lemma objective_in_domain df games c v :
  In v (map fst (terms (objective_function df games c))) -> in_domain df c v.
Proof.
  unfold objective_function. revert v. apply keys_lpSum_all.
  intros o Ho v Hv. apply in_flat_map in Ho. destruct Ho as (ip & Hip & Ho).
  apply in_map_iff in Ho. destruct Ho as (d & <- & Hd).
  cbn [operand_vars] in Hv. apply keys_mul in Hv. unfold add in Hv.
  apply keys_addInPlace in Hv.
  destruct Hv as [[<-|[]]|[<-|[]]]; split; try assumption;
    apply rows_index, Hip.
Qed.

(** X11. The generated model declares one initial-squad variable for every
    player of the table and one squad, line-up, captain, transfer-in and
    transfer-out variable for every player and day of the window, and no
    other; and no constraint and no term of the objective mentions a variable
    that is not declared: the day before a day of the window is referred to
    only when it is in the window too. *)
Theorem model_mentions_declared_variables_only c players games p :
  generated_model c players games = Some p ->
  (forall v, In v (declared p) <-> in_domain (model_table c players) c v)
  /\ (forall q v, In q (constraints p) -> In v (mentioned q) -> In v (declared p))
  /\ (forall obj v, objective p = Some obj -> In v (map fst (terms obj)) ->
                    In v (declared p)).
Proof.
  intro Hgen. destruct (generated_model_inv _ _ _ _ Hgen) as (Hc & Hd & Ho & _).
  splits.
  - intro v. rewrite Hd. apply model_variables_domain.
  - intros q v Hq Hv. rewrite Hd. apply model_variables_domain.
    rewrite Hc in Hq. apply (model_constraints_in_domain _ _ q v Hq Hv).
  - intros obj v Hobj Hv. rewrite Hd. apply model_variables_domain.
    rewrite Ho in Hobj. inversion Hobj; subst obj.
    apply (objective_in_domain _ _ _ v Hv).
Qed.

(** ** The objective, day by day *)

Lemma total_plus {A} (f g : A -> Q) l :
  total (map (fun x => f x + g x) l) == total (map f l) + total (map g l).
Proof.
  induction l as [|x r IH]; cbn [map total fold_right].
  - ring.
  - fold (total (map (fun x => f x + g x) r)). fold (total (map f r)).
    fold (total (map g r)). rewrite IH. ring.
Qed.

Lemma total_swap {A B} (g : A -> B -> Q) (la : list A) (lb : list B) :
  total (map (fun x => total (map (g x) lb)) la)
  == total (map (fun y => total (map (fun x => g x y) la)) lb).
Proof.
  induction la as [|x r IH]; cbn [map total fold_right].
  - symmetry. apply total_zero. intros; reflexivity.
  - fold (total (map (fun x => total (map (g x) lb)) r)). rewrite IH.
    rewrite <- total_plus. apply total_map_ext. intros y _.
    cbn [map total fold_right]. reflexivity.
Qed.

Lemma filter_map_comm {A B} (g : A -> B) (P : B -> bool) l :
  filter P (map g l) = map g (filter (fun x => P (g x)) l).
Proof.
  induction l as [|x r IH]; cbn [map filter]; [reflexivity|].
  destruct (P (g x)); cbn [map]; rewrite IH; reflexivity.
Qed.

Section ObjectiveByDay.

Variables (c : Config) (players : DataFrame) (games : list Game).
Variables (p : LpProblem) (a : var -> Q).
Hypothesis Hgen : generated_model c players games = Some p.
Hypothesis Hfeas : feasible p a.

Local Abbreviation df := (model_table c players).

Lemma day_points d :
  In d (days c) ->
  total (map (fun ip => player_points_for_day games (snd ip) d
                        * (a (chosen_day (fst ip) d) + a (doubled_score (fst ip) d)))
             (rows df))
  == points_of a df games d (fun i => chosen_day i d)
     + points_of a df games d (fun i => doubled_score i d).
Proof.
  intro Hd. unfold points_of.
  rewrite <- (total_weighted_members
                (fun ip => player_points_for_day games (snd ip) d)
                (fun ip => a (chosen_day (fst ip) d))).
  - rewrite <- (total_weighted_members
                  (fun ip => player_points_for_day games (snd ip) d)
                  (fun ip => a (doubled_score (fst ip) d))).
    + rewrite <- total_plus. apply total_map_ext. intros ip _. ring.
    + intros ip Hip.
      apply (binary_doubled c players games p a Hgen Hfeas _ d (rows_index _ _ Hip) Hd).
  - intros ip Hip.
    apply (binary_chosen c players games p a Hgen Hfeas _ d (rows_index _ _ Hip) Hd).
Qed.

Lemma captain_row d :
  In d (days c) ->
  exists i x,
    filter (fun ip => Qeq_bool (a (doubled_score (fst ip) d)) 1) (rows df) = [(i, x)]
    /\ nth_error df i = Some x.
Proof.
  intro Hd.
  assert (Hlen : List.length (captains a df d) = 1%nat).
  { apply (holds_eq_count a (fun i => doubled_score i d) (index df) 1).
    - intros i Hi. apply (binary_doubled c players games p a Hgen Hfeas i d Hi Hd).
    - apply (daily_holds c players games p a Hgen Hfeas d); [exact Hd|]. cbn. auto 6. }
  unfold captains in Hlen. rewrite members_index in Hlen.
  destruct (filter (fun ip => Qeq_bool (a (doubled_score (fst ip) d)) 1) (rows df))
    as [|[i x] [|y r]] eqn:Hf; try discriminate.
  exists i, x. split; [reflexivity|].
  assert (Hin : In (i, x) (filter (fun ip => Qeq_bool (a (doubled_score (fst ip) d)) 1)
                                  (rows df))) by (rewrite Hf; left; reflexivity).
  apply filter_In in Hin. destruct Hin as [Hin _]. apply in_rows, Hin.
Qed.

(** X9. Under an assignment that satisfies the generated model, the
    objective is worth, summed over the days of the window, the points of
    the day's line-up plus the points of the day's captain once more. *)
Theorem objective_is_lineup_points_plus_captain_points :
  value a (objective_function df games c)
  == total (map (fun d => points_of a df games d (fun i => chosen_day i d)
                          + points_of a df games d (fun i => doubled_score i d))
                (days c))
  /\ forall d, In d (days c) ->
       exists i x,
         captains a df d = [i] /\ nth_error df i = Some x
         /\ points_of a df games d (fun i => doubled_score i d)
            == player_points_for_day games x d.
Proof.
  split.
  - rewrite value_objective_function.
    rewrite (total_swap (fun ip d => player_points_for_day games (snd ip) d
               * (a (chosen_day (fst ip) d) + a (doubled_score (fst ip) d)))).
    apply total_map_ext. intros d Hd. apply day_points, Hd.
  - intros d Hd. destruct (captain_row d Hd) as (i & x & Hf & Hx).
    exists i, x. splits; [|exact Hx|].
    + unfold captains, members. rewrite <- map_fst_rows, filter_map_comm, Hf.
      reflexivity.
    + unfold points_of. rewrite Hf. cbn. ring.
Qed.

End ObjectiveByDay.

(** ** What an optimal run prints *)

Lemma value_terms_some (a : var -> Q) (vv : var -> option Q) ts :
  (forall v, vv v = Some (a v)) ->
  forall s0, exists q, value_terms vv ts s0 = Some q /\ q == s0 + eval_terms a ts.
Proof.
  intro Hvv. induction ts as [|[v x] r IH]; intro s0; cbn [value_terms].
  - exists s0. split; [reflexivity|]. cbn. ring.
  - rewrite Hvv. destruct (IH (s0 + a v * x)) as (q & Hq & Heq).
    exists q. split; [exact Hq|]. rewrite Heq.
    cbn [eval_terms fold_right fst snd]. fold (eval_terms a r). ring.
Qed.









Lemma generated_names_found c players games p :
  generated_model c players games = Some p ->
  forallb (name_in players) (must_include c) = true.
Proof.
  intro Hgen. destruct (generated_model_fits c players games p Hgen) as [_ Hall].
  rewrite names_in_model_table in Hall. exact Hall.
Qed.

Lemma filter_none {A} (P : A -> bool) l : existsb P l = false -> filter P l = [].
Proof.
  induction l as [|x r IH]; cbn [existsb filter]; [reflexivity|].
  intro H. apply orb_false_iff in H. destruct H as [-> Hr]. apply IH, Hr.
Qed.

Lemma warnings_no_squad_line c players :
  existsb is_squad_line (model_warnings c players) = false.
Proof.
  unfold model_warnings. destruct (player_points_adjustments c) as [adj|];
    [|reflexivity].
  unfold warnings. induction (filter _ _) as [|n l IH]; simpl; auto.
Qed.

Lemma solution_lines_no_squad_line c df st vv obj :
  existsb is_squad_line (solution_lines c df st vv obj) = false.
Proof.
  unfold solution_lines. destruct (negb (is_optimal st)); [reflexivity|].
  cbn [existsb is_squad_line orb].
  induction (days c) as [|d l IH]; cbn [flat_map]; [reflexivity|].
  apply existsb_app'; [|exact IH].
  assert (Hmap : forall (g : nat -> string) l',
            existsb is_squad_line (map (fun i => Transfer_line (g i)) l') = false).
  { intros g l'. induction l' as [|n r IHr]; simpl; auto. }
  unfold day_lines. cbv zeta.
  destruct (filter _ _) as [|i r]; destruct (filter _ _) as [|j r'];
    cbn [existsb is_squad_line orb app map]; rewrite ?existsb_app;
    cbn [existsb is_squad_line orb]; rewrite ?Hmap; reflexivity.
Qed.

Lemma squad_lines_count df (a : var -> Q) vv :
  (forall v, vv v = Some (a v)) ->
  filter is_squad_line (squad_lines df vv)
  = map (fun i => Squad_line (player_name_at df i)) (initial a df).
Proof.
  intro Hvv. unfold squad_lines, initial, members. cbn [filter is_squad_line].
  induction (index df) as [|i r IH]; cbn [filter map]; [reflexivity|].
  rewrite Hvv. cbn [is_one].
  destruct (Qeq_bool (a (initial_squad i)) 1); cbn [map filter is_squad_line];
    rewrite IH; reflexivity.
Qed.

(** The console after a run whose solver reports an optimal solution. *)
Lemma optimal_run_output solver c players games p :
  generated_model c players games = Some p ->
  fst (solver p) = LpStatusOptimal ->
  let r := main solver c players games in
  snd r = None
  /\ stdout (fst r)
     = model_warnings c players
       ++ solution_lines c (model_table c players) LpStatusOptimal
                         (assigned (snd (solver p)))
                         (restored_objective (objective p))
       ++ squad_lines (model_table c players) (snd (solver p)).
Proof.
  intros Hgen Hopt r.
  destruct (main_spec solver c players games) as (Hok & _).
  destruct (Hok p Hgen) as (Hn & _ & _ & _ & Hout).
  rewrite Hopt in Hout. auto.
Qed.

(** X13. When the solver reports an optimal solution and its values satisfy
    the model, the run ends normally and lists exactly 10 players under
    "Initial Squad:", each of them a player of the initial squad, and every
    must-include name is among them. *)
Theorem optimal_run_lists_ten_players
  (solver : LpProblem -> LpStatus * (var -> option Q))
  (c : Config) (players : DataFrame) (games : list Game)
  (p : LpProblem) (a : var -> Q) :
  generated_model c players games = Some p ->
  fst (solver p) = LpStatusOptimal ->
  (forall v, snd (solver p) v = Some (a v)) ->
  feasible p a ->
  let r := main solver c players games in
  snd r = None
  /\ filter is_squad_line (stdout (fst r))
     = map (fun i => Squad_line (player_name_at (model_table c players) i))
           (initial a (model_table c players))
  /\ List.length (filter is_squad_line (stdout (fst r))) = 10%nat
  /\ forall n, In n (must_include c) -> In (Squad_line n) (stdout (fst r)).
Proof.
  intros Hgen Hopt Hvv Hfeas r.
  destruct (optimal_run_output solver c players games p Hgen Hopt) as [Hnone Hout].
  fold r in Hnone, Hout.
  assert (Hlines : filter is_squad_line (stdout (fst r))
                   = map (fun i => Squad_line (player_name_at (model_table c players) i))
                         (initial a (model_table c players))).
  { rewrite Hout, !filter_app.
    rewrite (filter_none _ _ (warnings_no_squad_line c players)).
    rewrite (filter_none _ _ (solution_lines_no_squad_line _ _ _ _ _)).
    cbn [app]. apply squad_lines_count, Hvv. }
  splits; try assumption.
  - rewrite Hlines, length_map.
    apply (initial_count c players games p a Hgen Hfeas).
  - intros n Hn.
    destruct (must_include_first_index c players games p a Hgen Hfeas n Hn)
      as (i & rest & Hi & Hmem).
    assert (Hin : In (Squad_line n) (filter is_squad_line (stdout (fst r)))).
    { rewrite Hlines. apply in_map_iff. exists i. split; [|exact Hmem].
      assert (H : In i (index_where (model_table c players)
                          (fun x => String.eqb (name x) n)))
        by (rewrite Hi; left; reflexivity).
      apply in_index_where in H. destruct H as (x & Hx & Hname).
      apply String.eqb_eq in Hname. unfold player_name_at. rewrite Hx, Hname.
      reflexivity. }
    apply filter_In in Hin. apply Hin.
Qed.

(** X17. With a transfer limit of 0, an optimal run whose values satisfy the
    model prints no day and no transfer: after the warnings come the
    objective value, the transfer header and the initial squad. *)
Theorem no_transfer_run_prints_no_day
  (solver : LpProblem -> LpStatus * (var -> option Q))
  (c : Config) (players : DataFrame) (games : list Game)
  (p : LpProblem) (a : var -> Q) :
  generated_model c players games = Some p ->
  fst (solver p) = LpStatusOptimal ->
  (forall v, snd (solver p) v = Some (a v)) ->
  feasible p a ->
  transfers c == 0 ->
  exists total_points,
    stdout (fst (main solver c players games))
    = model_warnings c players
      ++ [Total_points total_points; Transfers_to_be_made]
      ++ squad_lines (model_table c players) (snd (solver p)).
Proof.
  intros Hgen Hopt Hvv Hfeas H0.
  destruct (optimal_run_output solver c players games p Hgen Hopt) as [_ Hout].
  cbv zeta in Hout. rewrite Hout. unfold solution_lines. cbn [is_optimal negb].
  eexists. do 2 f_equal. cbn [app]. do 2 f_equal.
  assert (Hnil : forall d, In d (days c) ->
            day_lines (model_table c players) (assigned (snd (solver p))) d = []).
  { intros d Hd. unfold day_lines. cbv zeta. cbn [assigned].
    assert (Hf : forall (f : nat -> Z -> var), f = t_in \/ f = t_out ->
              filter (fun i => is_one (snd (solver p) (f i d)))
                     (index (model_table c players)) = []).
    { intros f Hf. apply filter_none. apply not_true_iff_false. intro Hex.
      apply existsb_exists in Hex. destruct Hex as (i & Hi & H1).
      rewrite Hvv in H1. cbn [is_one] in H1. apply Qeq_bool_eq in H1.
      destruct (transfers_zero_no_transfer c players games p a Hgen Hfeas i d H0 Hi Hd)
        as [Zin Zout].
      destruct Hf as [->| ->]; [rewrite Zin in H1|rewrite Zout in H1]; discriminate. }
    rewrite (Hf t_in), (Hf t_out) by auto. reflexivity. }
  induction (days c) as [|d l IH]; cbn [flat_map]; [reflexivity|].
  rewrite Hnil by (left; reflexivity). rewrite IH; [reflexivity|].
  intros d' Hd'. apply Hnil. right; exact Hd'.
Qed.

(** ** Teams *)

Lemma list_sum_step (n : nat) (l : list nat) : list_sum (n :: l) = (n + list_sum l)%nat.
Proof. reflexivity. Qed.

Lemma list_sum_map_add {A} (f g : A -> nat) l :
  list_sum (map (fun t => f t + g t)%nat l)
  = (list_sum (map f l) + list_sum (map g l))%nat.
Proof.
  induction l as [|x r IH]; cbn [map]; [reflexivity|].
  rewrite !list_sum_step, IH. lia.
Qed.

Lemma list_sum_le_each {A} (f : A -> nat) (n : nat) l :
  (forall t, In t l -> (f t <= n)%nat) ->
  (list_sum (map f l) <= n * List.length l)%nat.
Proof.
  induction l as [|x r IH]; intro H; cbn [map List.length]; [cbn; lia|].
  rewrite list_sum_step.
  assert ((f x <= n)%nat) by (apply H; left; reflexivity).
  assert ((list_sum (map f r) <= n * List.length r)%nat)
    by (apply IH; intros; apply H; right; assumption).
  lia.
Qed.

Lemma list_sum_zero {A} (f : A -> nat) l :
  (forall t, In t l -> f t = 0%nat) -> list_sum (map f l) = 0%nat.
Proof.
  induction l as [|x r IH]; intro H; cbn [map]; [reflexivity|].
  rewrite list_sum_step, (H x (or_introl Logic.eq_refl)), IH; [reflexivity|].
  intros t Ht. apply H. right; exact Ht.
Qed.

Lemma list_sum_pick (k : Z) (T : list Z) :
  NoDup T -> In k T ->
  list_sum (map (fun t => if Z.eqb k t then 1 else 0)%nat T) = 1%nat.
Proof.
  induction T as [|t r IH]; intros Hnd Hin; [destruct Hin|].
  inversion Hnd as [|? ? Hnot Hnd']; subst. cbn [map]. rewrite list_sum_step.
  destruct (Z.eqb_spec k t) as [->|Hne].
  - rewrite list_sum_zero; [reflexivity|]. intros u Hu.
    destruct (Z.eqb_spec t u) as [->|_]; [contradiction|reflexivity].
  - destruct Hin as [->|Hin]; [contradiction|]. rewrite IH by assumption. reflexivity.
Qed.

(** A head count splits over the keys of a list without repetition that
    covers them. *)
Lemma count_by_key {A} (key : A -> Z) (P : A -> bool) (T : list Z) (l : list A) :
  NoDup T -> (forall x, In x l -> In (key x) T) ->
  List.length (filter P l)
  = list_sum (map (fun t => List.length (filter (fun x => Z.eqb (key x) t && P x) l)) T).
Proof.
  intros Hnd. induction l as [|x r IH]; intro Hcov.
  - cbn [filter List.length]. rewrite list_sum_zero; reflexivity.
  - assert (IH' := IH (fun y Hy => Hcov y (or_intror Hy))).
    assert (Hx : In (key x) T) by (apply Hcov; left; reflexivity).
    assert (Hsplit : map (fun t => List.length
                            (filter (fun y => Z.eqb (key y) t && P y) (x :: r))) T
                     = map (fun t => ((if Z.eqb (key x) t then (if P x then 1 else 0)
                                       else 0)
                                      + List.length
                                          (filter (fun y => Z.eqb (key y) t && P y) r))%nat)
                           T).
    { apply map_ext. intro t. cbn [filter].
      destruct (Z.eqb (key x) t); destruct (P x); reflexivity. }
    rewrite Hsplit, list_sum_map_add, <- IH'. cbn [filter].
    destruct (P x).
    + rewrite (list_sum_pick (key x) T Hnd Hx). reflexivity.
    + rewrite list_sum_zero; [reflexivity|].
      intros t _. destruct (Z.eqb (key x) t); reflexivity.
Qed.

(** X15. A model that can be satisfied over a window that is not empty has
    players of at least 5 different teams. *)
Theorem feasible_needs_five_teams c players games p a :
  generated_model c players games = Some p -> feasible p a ->
  days c <> [] ->
  (5 <= List.length (unique [] (map team (model_table c players))))%nat.
Proof.
  intros Hgen Hfeas Hne.
  destruct (days c) as [|d ds] eqn:Hdays; [contradiction|].
  assert (Hd : In d (days c)) by (rewrite Hdays; left; reflexivity).
  set (df := model_table c players).
  set (T := unique [] (map team df)).
  pose proof (squad_size_formula c players games p a d Hgen Hfeas Hd) as Hsize.
  fold df in Hsize. unfold squad in Hsize. rewrite members_index in Hsize.
  rewrite (count_by_key (fun ip : nat * Player => team (snd ip)) _ T) in Hsize.
  - assert (Hle : (list_sum
                     (map (fun t => List.length
                             (filter (fun ip : nat * Player =>
                                        Z.eqb (team (snd ip)) t
                                        && Qeq_bool (a (squad_day (fst ip) d)) 1)
                                     (rows df))) T)
                   <= 2 * List.length T)%nat).
    { apply list_sum_le_each. intros t Ht.
      rewrite <- (members_index_where a (fun i => squad_day i d) df
                    (fun y => Z.eqb (team y) t)).
      apply (holds_le_count a (fun i => squad_day i d)
               (index_where df (fun y => Z.eqb (team y) t)) 2).
      - intros i Hi.
        apply (binary_squad c players games p a Hgen Hfeas i d); [|exact Hd].
        apply (index_where_in_index df _ i Hi).
      - apply (model_holds c players games p a Hgen Hfeas).
        unfold model_constraints. rewrite !in_app_iff. right; right; right; right.
        unfold team_constraints. apply in_flat_map. exists t. split; [exact Ht|].
        apply (in_map (fun d => lp_le _ _) _ _ Hd). }
    lia.
  - apply unique_NoDup.
  - intros [i x] Hin. cbn [snd]. apply unique_in. split; [|intros []].
    apply in_map. apply in_rows in Hin. apply (nth_error_In _ _ Hin).
Qed.

(** ** The table, when no override is configured *)

(** X18. Without a points-override mapping in the configuration,
    [setup_problem] leaves every table as it was, whether it ends normally
    or not. *)
Theorem run_without_overrides_leaves_tables
  (solver : LpProblem -> LpStatus * (var -> option Q))
  (self : Optimizer) (s : State) :
  player_points_adjustments (config self) = None ->
  forall l, heap (fst (setup_problem solver self s)) l = heap s l.
Proof.
  intros Hnone l. rewrite setup_problem_heap.
  pose proof (build_model_spec self s) as H. cbn zeta in H.
  destruct H as (H1 & _ & _ & _ & _ & Hfit & _).
  unfold model_fits, model_table in Hfit. rewrite Hnone in Hfit.
  destruct (Hfit Logic.eq_refl) as (Hh & _).
  destruct (Nat.eq_dec l (players_df self)) as [->|Hne]; [exact Hh|apply H1, Hne].
Qed.

(** ** Transfers over the window *)

(** X6. A model that can be satisfied has a transfer limit that is not
    negative. *)
Theorem feasible_needs_nonnegative_limit c players games p a :
  generated_model c players games = Some p -> feasible p a -> 0 <= transfers c.
Proof.
  intros Hgen Hfeas.
  pose proof (flagged_within_limit c players games p a Hgen Hfeas t_in
                (or_introl Logic.eq_refl)) as H.
  eapply Qle_trans; [|exact H].
  change 0 with (inject_Z 0). rewrite <- Zle_Qle. lia.
Qed.

Section Newcomers.

Variables (c : Config) (players : DataFrame) (games : list Game).
Variables (p : LpProblem) (a : var -> Q).
Hypothesis Hgen : generated_model c players games = Some p.
Hypothesis Hfeas : feasible p a.

Local Abbreviation df := (model_table c players).

Lemma change_is_flagged i (k : nat) :
  In i (index df) ->
  (k < Z.to_nat (end_gameday c + 1 - start_gameday c))%nat ->
  (a (squad_day i (start_gameday c + Z.of_nat k)) == 1 -> a (initial_squad i) == 0 ->
   exists j, (j <= k)%nat /\ a (t_in i (start_gameday c + Z.of_nat j)) == 1)
  /\ (a (squad_day i (start_gameday c + Z.of_nat k)) == 0 -> a (initial_squad i) == 1 ->
      exists j, (j <= k)%nat /\ a (t_out i (start_gameday c + Z.of_nat j)) == 1).
Proof.
  intros Hi. induction k as [|k IH]; intro Hk.
  - assert (Hd : In (start_gameday c + Z.of_nat 0)%Z (days c))
      by (apply (in_days c); exists 0%nat; auto).
    destruct (consistency_holds c players games p a Hgen Hfeas i _ Hi Hd) as [C1 C2].
    unfold previous in C1, C2.
    replace (start_gameday c + Z.of_nat 0 =? start_gameday c)%Z with true
      in C1, C2 by (symmetry; apply Z.eqb_eq; lia).
    split; intros Hs Hinit; exists 0%nat; (split; [lia|]).
    + destruct (binary_t_in c players games p a Hgen Hfeas i _ Hi Hd) as [E|E];
        [|exact E]. rewrite Hs, Hinit, E in C1. lra.
    + destruct (binary_t_out c players games p a Hgen Hfeas i _ Hi Hd) as [E|E];
        [|exact E]. rewrite Hs, Hinit, E in C2. lra.
  - assert (Hd : In (start_gameday c + Z.of_nat (S k))%Z (days c))
      by (apply (in_days c); exists (S k); auto).
    assert (Hd' : In (start_gameday c + Z.of_nat k)%Z (days c))
      by (apply (in_days c); exists k; split; [lia|reflexivity]).
    destruct (IH ltac:(lia)) as [IHin IHout].
    destruct (consistency_holds c players games p a Hgen Hfeas i _ Hi Hd) as [C1 C2].
    unfold previous in C1, C2.
    replace (start_gameday c + Z.of_nat (S k) =? start_gameday c)%Z with false
      in C1, C2 by (symmetry; apply Z.eqb_neq; lia).
    replace (start_gameday c + Z.of_nat (S k) - 1)%Z
      with (start_gameday c + Z.of_nat k)%Z in C1, C2 by lia.
    destruct (binary_squad c players games p a Hgen Hfeas i _ Hi Hd') as [P0|P1].
    + split; intros Hs Hinit.
      * exists (S k). split; [lia|].
        destruct (binary_t_in c players games p a Hgen Hfeas i _ Hi Hd) as [E|E];
          [|exact E]. rewrite Hs, P0, E in C1. lra.
      * destruct (IHout P0 Hinit) as (j & Hj & Hflag). exists j. split; [lia|exact Hflag].
    + split; intros Hs Hinit.
      * destruct (IHin P1 Hinit) as (j & Hj & Hflag). exists j. split; [lia|exact Hflag].
      * exists (S k). split; [lia|].
        destruct (binary_t_out c players games p a Hgen Hfeas i _ Hi Hd) as [E|E];
          [|exact E]. rewrite Hs, P1, E in C2. lra.
Qed.

(** X20. Under an assignment that satisfies the generated model, a player
    who is in the squad of a day of the window without being in the initial
    squad has a transfer-in variable set on that day or an earlier day of the
    window; a player of the initial squad who is not in the squad of a day
    has a transfer-out variable set on that day or an earlier one. *)
Theorem squad_changes_are_flagged :
  forall i d, In i (index df) -> In d (days c) ->
    (a (squad_day i d) == 1 -> a (initial_squad i) == 0 ->
     exists d', In d' (days c) /\ (d' <= d)%Z /\ a (t_in i d') == 1)
    /\ (a (squad_day i d) == 0 -> a (initial_squad i) == 1 ->
        exists d', In d' (days c) /\ (d' <= d)%Z /\ a (t_out i d') == 1).
Proof.
  intros i d Hi Hd. apply (in_days c) in Hd. destruct Hd as (k & Hk & ->).
  destruct (change_is_flagged i k Hi Hk) as [Hin Hout].
  split; intros Hs Hinit.
  - destruct (Hin Hs Hinit) as (j & Hj & Hflag).
    exists (start_gameday c + Z.of_nat j)%Z. splits; [|lia|exact Hflag].
    apply (in_days c). exists j. split; [lia|reflexivity].
  - destruct (Hout Hs Hinit) as (j & Hj & Hflag).
    exists (start_gameday c + Z.of_nat j)%Z. splits; [|lia|exact Hflag].
    apply (in_days c). exists j. split; [lia|reflexivity].
Qed.

End Newcomers.

(** ** The solver call *)


(** ** The league as an instance, again *)

Lemma league_one_transfer_generated :
  generated_model League.one_transfer League.players League.games
  = Some (League.model League.one_transfer).
Proof. vm_compute. reflexivity. Defined.

Lemma league_add_rookie_feasible :
  feasible (League.model League.one_transfer) League.add_rookie.
Proof. apply feasibleb_feasible. vm_compute. reflexivity. Defined.

Lemma budget_respected_witness :
  generated_model League.no_transfer League.players League.games
  = Some (League.model League.no_transfer)
  /\ feasible (League.model League.no_transfer) League.keep_ten
  /\ cost_of League.keep_ten (model_table League.no_transfer League.players)
             initial_squad <= budget League.no_transfer
  /\ forall d, In d (days League.no_transfer) ->
       cost_of League.keep_ten (model_table League.no_transfer League.players)
               (fun i => squad_day i d) <= budget League.no_transfer.
Proof.
  split; [exact league_model_generated|].
  split; [exact league_keep_ten_feasible|].
  apply (budget_respected League.no_transfer League.players League.games
           (League.model League.no_transfer) League.keep_ten
           league_model_generated league_keep_ten_feasible).
Defined.

Lemma team_cap_respected_witness :
  generated_model League.no_transfer League.players League.games
  = Some (League.model League.no_transfer)
  /\ feasible (League.model League.no_transfer) League.keep_ten
  /\ forall d x, In d (days League.no_transfer) ->
       In x (model_table League.no_transfer League.players) ->
       (List.length (squad_of League.keep_ten
                       (model_table League.no_transfer League.players) d
                       (fun y => Z.eqb (team y) (team x))) <= 2)%nat.
Proof.
  split; [exact league_model_generated|].
  split; [exact league_keep_ten_feasible|].
  apply (team_cap_respected League.no_transfer League.players League.games
           (League.model League.no_transfer) League.keep_ten
           league_model_generated league_keep_ten_feasible).
Defined.

Lemma lineup_by_type_witness :
  generated_model League.no_transfer League.players League.games
  = Some (League.model League.no_transfer)
  /\ feasible (League.model League.no_transfer) League.keep_ten
  /\ forall d, In d (days League.no_transfer) ->
       (2 <= List.length (lineup_of League.keep_ten
                            (model_table League.no_transfer League.players) d
                            (of_type 1)) <= 3)%nat
       /\ (2 <= List.length (lineup_of League.keep_ten
                               (model_table League.no_transfer League.players) d
                               (of_type 2)) <= 3)%nat
       /\ (List.length (lineup_of League.keep_ten
                          (model_table League.no_transfer League.players) d
                          other_type) <= 1)%nat.
Proof.
  split; [exact league_model_generated|].
  split; [exact league_keep_ten_feasible|].
  apply (lineup_by_type League.no_transfer League.players League.games
           (League.model League.no_transfer) League.keep_ten
           league_model_generated league_keep_ten_feasible).
Defined.

Lemma must_include_in_initial_squad_witness :
  generated_model League.no_transfer League.players League.games
  = Some (League.model League.no_transfer)
  /\ feasible (League.model League.no_transfer) League.keep_ten
  /\ forall n, In n (must_include League.no_transfer) ->
       exists i rest,
         index_where (model_table League.no_transfer League.players)
                     (fun x => String.eqb (name x) n) = i :: rest
         /\ In i (initial League.keep_ten
                          (model_table League.no_transfer League.players)).
Proof.
  split; [exact league_model_generated|].
  split; [exact league_keep_ten_feasible|].
  apply (must_include_in_initial_squad League.no_transfer League.players League.games
           (League.model League.no_transfer) League.keep_ten
           league_model_generated league_keep_ten_feasible).
Defined.

Lemma squad_changes_within_limit_witness :
  generated_model League.one_transfer League.players League.games
  = Some (League.model League.one_transfer)
  /\ feasible (League.model League.one_transfer) League.add_rookie
  /\ inject_Z (Z.of_nat (List.length
        (filter (joins League.add_rookie League.one_transfer)
                (pairs (model_table League.one_transfer League.players)
                       League.one_transfer))))
     <= transfers League.one_transfer
  /\ inject_Z (Z.of_nat (List.length
        (filter (leaves League.add_rookie League.one_transfer)
                (pairs (model_table League.one_transfer League.players)
                       League.one_transfer))))
     <= transfers League.one_transfer.
Proof.
  split; [exact league_one_transfer_generated|].
  split; [exact league_add_rookie_feasible|].
  apply (squad_changes_within_limit League.one_transfer League.players League.games
           (League.model League.one_transfer) League.add_rookie
           league_one_transfer_generated league_add_rookie_feasible).
Defined.

Lemma feasible_needs_nonnegative_limit_witness :
  generated_model League.one_transfer League.players League.games
  = Some (League.model League.one_transfer)
  /\ feasible (League.model League.one_transfer) League.add_rookie
  /\ 0 <= transfers League.one_transfer.
Proof.
  split; [exact league_one_transfer_generated|].
  split; [exact league_add_rookie_feasible|].
  apply (feasible_needs_nonnegative_limit League.one_transfer League.players
           League.games (League.model League.one_transfer) League.add_rookie
           league_one_transfer_generated league_add_rookie_feasible).
Defined.

Lemma feasible_needs_enough_players_witness :
  generated_model League.no_transfer League.players League.games
  = Some (League.model League.no_transfer)
  /\ feasible (League.model League.no_transfer) League.keep_ten
  /\ (10 <= List.length (model_table League.no_transfer League.players))%nat
  /\ (days League.no_transfer <> [] ->
      (5 <= List.length (index_where (model_table League.no_transfer League.players)
                                     (of_type 1)))%nat
      /\ (5 <= List.length (index_where (model_table League.no_transfer League.players)
                                        (of_type 2)))%nat).
Proof.
  split; [exact league_model_generated|].
  split; [exact league_keep_ten_feasible|].
  apply (feasible_needs_enough_players League.no_transfer League.players League.games
           (League.model League.no_transfer) League.keep_ten
           league_model_generated league_keep_ten_feasible).
Defined.

Lemma league_costs_ten :
  forall x, In x (model_table League.no_transfer League.players) -> 10 <= now_cost x.
Proof.
  intros x Hx. cbn in Hx.
  repeat (destruct Hx as [<-|Hx]; [cbn; apply Qle_refl|]). destruct Hx.
Defined.

Lemma budget_covers_ten_cheapest_witness :
  generated_model League.no_transfer League.players League.games
  = Some (League.model League.no_transfer)
  /\ feasible (League.model League.no_transfer) League.keep_ten
  /\ (forall x, In x (model_table League.no_transfer League.players) ->
                10 <= now_cost x)
  /\ 10 * 10 <= budget League.no_transfer.
Proof.
  split; [exact league_model_generated|].
  split; [exact league_keep_ten_feasible|].
  split; [exact league_costs_ten|].
  apply (budget_covers_ten_cheapest League.no_transfer League.players League.games
           (League.model League.no_transfer) League.keep_ten
           league_model_generated league_keep_ten_feasible 10 league_costs_ten).
Defined.

Lemma objective_is_lineup_points_plus_captain_points_witness :
  generated_model League.no_transfer League.players League.games
  = Some (League.model League.no_transfer)
  /\ feasible (League.model League.no_transfer) League.keep_ten
  /\ value League.keep_ten
           (objective_function (model_table League.no_transfer League.players)
                               League.games League.no_transfer)
     == total (map (fun d =>
                      points_of League.keep_ten
                                (model_table League.no_transfer League.players)
                                League.games d (fun i => chosen_day i d)
                      + points_of League.keep_ten
                                  (model_table League.no_transfer League.players)
                                  League.games d (fun i => doubled_score i d))
                   (days League.no_transfer))
  /\ forall d, In d (days League.no_transfer) ->
       exists i x,
         captains League.keep_ten (model_table League.no_transfer League.players) d
         = [i]
         /\ nth_error (model_table League.no_transfer League.players) i = Some x
         /\ points_of League.keep_ten (model_table League.no_transfer League.players)
                      League.games d (fun i => doubled_score i d)
            == player_points_for_day League.games x d.
Proof.
  split; [exact league_model_generated|].
  split; [exact league_keep_ten_feasible|].
  apply (objective_is_lineup_points_plus_captain_points League.no_transfer
           League.players League.games (League.model League.no_transfer)
           League.keep_ten league_model_generated league_keep_ten_feasible).
Defined.

Lemma model_mentions_declared_variables_only_witness :
  generated_model League.no_transfer League.players League.games
  = Some (League.model League.no_transfer)
  /\ (forall v, In v (declared (League.model League.no_transfer))
                <-> in_domain (model_table League.no_transfer League.players)
                              League.no_transfer v)
  /\ (forall q v, In q (constraints (League.model League.no_transfer)) ->
                  In v (mentioned q) ->
                  In v (declared (League.model League.no_transfer)))
  /\ (forall obj v, objective (League.model League.no_transfer) = Some obj ->
                    In v (map fst (terms obj)) ->
                    In v (declared (League.model League.no_transfer))).
Proof.
  split; [exact league_model_generated|].
  apply (model_mentions_declared_variables_only League.no_transfer League.players
           League.games (League.model League.no_transfer) league_model_generated).
Defined.


Lemma optimal_run_lists_ten_players_witness :
  generated_model League.no_transfer League.players League.games
  = Some (League.model League.no_transfer)
  /\ fst (League.solver_keep_ten (League.model League.no_transfer)) = LpStatusOptimal
  /\ (forall v, snd (League.solver_keep_ten (League.model League.no_transfer)) v
                = Some (League.keep_ten v))
  /\ feasible (League.model League.no_transfer) League.keep_ten
  /\ let r := main League.solver_keep_ten League.no_transfer League.players
                   League.games in
     snd r = None
     /\ filter is_squad_line (stdout (fst r))
        = map (fun i => Squad_line
                          (player_name_at
                             (model_table League.no_transfer League.players) i))
              (initial League.keep_ten (model_table League.no_transfer League.players))
     /\ List.length (filter is_squad_line (stdout (fst r))) = 10%nat
     /\ forall n, In n (must_include League.no_transfer) ->
                  In (Squad_line n) (stdout (fst r)).
Proof.
  split; [exact league_model_generated|].
  split; [reflexivity|]. split; [intro v; reflexivity|].
  split; [exact league_keep_ten_feasible|].
  apply (optimal_run_lists_ten_players League.solver_keep_ten League.no_transfer
           League.players League.games (League.model League.no_transfer)
           League.keep_ten league_model_generated Logic.eq_refl
           (fun v => Logic.eq_refl) league_keep_ten_feasible).
Defined.

Lemma overrides_are_idempotent_witness :
  NoDup (map fst [("P1"%string, 99); ("Nobody"%string, 50)])
  /\ adjusted (adjusted League.players [("P1"%string, 99); ("Nobody"%string, 50)])
              [("P1"%string, 99); ("Nobody"%string, 50)]
     = adjusted League.players [("P1"%string, 99); ("Nobody"%string, 50)].
Proof.
  assert (Hnd : NoDup (map fst [("P1"%string, 99); ("Nobody"%string, 50)])).
  { repeat constructor; simpl; intuition discriminate. }
  split; [exact Hnd|].
  apply (overrides_are_idempotent League.players _ Hnd).
Defined.

Lemma feasible_needs_five_teams_witness :
  generated_model League.no_transfer League.players League.games
  = Some (League.model League.no_transfer)
  /\ feasible (League.model League.no_transfer) League.keep_ten
  /\ days League.no_transfer <> []
  /\ (5 <= List.length
             (unique [] (map team (model_table League.no_transfer League.players))))%nat.
Proof.
  assert (Hne : days League.no_transfer <> []) by discriminate.
  split; [exact league_model_generated|].
  split; [exact league_keep_ten_feasible|].
  split; [exact Hne|].
  apply (feasible_needs_five_teams League.no_transfer League.players League.games
           (League.model League.no_transfer) League.keep_ten
           league_model_generated league_keep_ten_feasible Hne).
Defined.

Lemma no_transfer_run_prints_no_day_witness :
  generated_model League.no_transfer League.players League.games
  = Some (League.model League.no_transfer)
  /\ fst (League.solver_keep_ten (League.model League.no_transfer)) = LpStatusOptimal
  /\ (forall v, snd (League.solver_keep_ten (League.model League.no_transfer)) v
                = Some (League.keep_ten v))
  /\ feasible (League.model League.no_transfer) League.keep_ten
  /\ transfers League.no_transfer == 0
  /\ exists total_points,
       stdout (fst (main League.solver_keep_ten League.no_transfer League.players
                         League.games))
       = model_warnings League.no_transfer League.players
         ++ [Total_points total_points; Transfers_to_be_made]
         ++ squad_lines (model_table League.no_transfer League.players)
                        (snd (League.solver_keep_ten
                                (League.model League.no_transfer))).
Proof.
  assert (H0 : transfers League.no_transfer == 0) by reflexivity.
  split; [exact league_model_generated|].
  split; [reflexivity|]. split; [intro v; reflexivity|].
  split; [exact league_keep_ten_feasible|]. split; [exact H0|].
  apply (no_transfer_run_prints_no_day League.solver_keep_ten League.no_transfer
           League.players League.games (League.model League.no_transfer)
           League.keep_ten league_model_generated Logic.eq_refl
           (fun v => Logic.eq_refl) league_keep_ten_feasible H0).
Defined.

Lemma run_without_overrides_leaves_tables_witness :
  player_points_adjustments
    (config (mkOptimizer 3%nat League.games League.no_transfer)) = None
  /\ forall l,
       heap (fst (setup_problem League.solver_keep_ten
                    (mkOptimizer 3%nat League.games League.no_transfer)
                    (fresh (fun _ => League.players)))) l
       = heap (fresh (fun _ => League.players)) l.
Proof.
  split; [reflexivity|].
  apply (run_without_overrides_leaves_tables League.solver_keep_ten
           (mkOptimizer 3%nat League.games League.no_transfer)
           (fresh (fun _ => League.players)) Logic.eq_refl).
Defined.


Lemma squad_changes_are_flagged_witness :
  generated_model League.one_transfer League.players League.games
  = Some (League.model League.one_transfer)
  /\ feasible (League.model League.one_transfer) League.add_rookie
  /\ forall i d,
       In i (index (model_table League.one_transfer League.players)) ->
       In d (days League.one_transfer) ->
       (League.add_rookie (squad_day i d) == 1 ->
        League.add_rookie (initial_squad i) == 0 ->
        exists d', In d' (days League.one_transfer) /\ (d' <= d)%Z
                   /\ League.add_rookie (t_in i d') == 1)
       /\ (League.add_rookie (squad_day i d) == 0 ->
           League.add_rookie (initial_squad i) == 1 ->
           exists d', In d' (days League.one_transfer) /\ (d' <= d)%Z
                      /\ League.add_rookie (t_out i d') == 1).
Proof.
  split; [exact league_one_transfer_generated|].
  split; [exact league_add_rookie_feasible|].
  apply (squad_changes_are_flagged League.one_transfer League.players League.games
           (League.model League.one_transfer) League.add_rookie
           league_one_transfer_generated league_add_rookie_feasible).
Defined.
